(** * tiny-time-tracker: the duration parser, the ledger commands and the
    monthly report engine

    A shallow embedding of [src/tt_time/cli.py]: [parse_duration], the
    plain-hours branch of [cmd_log], the calendar helpers
    ([start_of_month], [end_of_month], [day_span], [clamp_interval]), the
    aggregation, week-grouping and listing loops of [cmd_report], the
    duration texts ([_secs_to_hms], [human_td]) and the ledger side of
    [cmd_start], [cmd_stop], [cmd_log] and [save_data].

    Conventions.
    - A Python [str] is a [string]; characters are read as ASCII.
    - A Python [int] is a [Z].  [int(num)] is modelled without the limit of
      4300 digits that CPython puts on the text; statements that depend on
      it carry [int_readable].
    - A [timedelta] is its exact number of microseconds, a [Z].  The whole
      seconds of [int(delta.total_seconds())] are those of the exact
      quotient, as the binary64 quotient gives them below 2^33 seconds;
      statements that depend on it carry [seconds_exact].
    - A naive [datetime] is the number of microseconds elapsed since the
      midnight that starts proleptic ordinal day 0, so that the midnight of
      the day with ordinal [d] is [d * US_PER_DAY]; a [date] is its
      proleptic Gregorian ordinal (0001-01-01 has ordinal 1).
    - A Python [dict] with string keys is a [gmap string _]; two dicts are
      equal in Python exactly when they hold the same bindings.
    - A call that raises returns an error value ([Raise _] or [None]).
    - The bound on the magnitude of a [timedelta] (999999999 days) is
      modelled where one is built from user input ([parse_duration],
      [cmd_log]).  The sums of the report stay below it for any ledger of
      fewer than thirty million records, each adding at most one month; and
      [day_span] is only applied to instants before the end of a month
      whose successor exists, so that it stays within the years 1-9999. *)

From Stdlib Require Import ZArith Ascii String List Lia Permutation Sorted.
From stdpp Require Import gmap strings list fin_maps.

Local Open Scope Z_scope.

(** ** Characters and strings *)

Module Str.

Definition code (ch : ascii) : Z := Z.of_N (N_of_ascii ch).

(** [ch.isdigit()] on an ASCII character. *)
Definition isdigit (ch : ascii) : bool := (48 <=? code ch) && (code ch <=? 57).

(** [ch.isspace()] on an ASCII character: tab, line feed, vertical tab,
    form feed, carriage return, the four separators 0x1c-0x1f, space. *)
Definition isspace (ch : ascii) : bool :=
  ((9 <=? code ch) && (code ch <=? 13))
  || ((28 <=? code ch) && (code ch <=? 32)).

Definition lower_char (ch : ascii) : ascii :=
  if (65 <=? code ch) && (code ch <=? 90)
  then ascii_of_N (N_of_ascii ch + 32) else ch.

(** [s.lower()] *)
Fixpoint lower (s : string) : string :=
  match s with
  | EmptyString => EmptyString
  | String ch r => String (lower_char ch) (lower r)
  end.

Fixpoint lstrip (s : string) : string :=
  match s with
  | EmptyString => EmptyString
  | String ch r => if isspace ch then lstrip r else s
  end.

Fixpoint rev_onto (s acc : string) : string :=
  match s with
  | EmptyString => acc
  | String ch r => rev_onto r (String ch acc)
  end.

Definition rev (s : string) : string := rev_onto s EmptyString.

Definition rstrip (s : string) : string := rev (lstrip (rev s)).

(** [s.strip()] *)
Definition strip (s : string) : string := rstrip (lstrip s).

(** [s.isdigit()]: every character is a digit and there is at least one. *)
Fixpoint all_digits (s : string) : bool :=
  match s with
  | EmptyString => true
  | String ch r => isdigit ch && all_digits r
  end.

Definition str_isdigit (s : string) : bool :=
  match s with
  | EmptyString => false
  | _ => all_digits s
  end.

(** [int(s)] for a run of ASCII digits, most significant first.  The
    limit CPython puts on the length of the text is not modelled here; see
    [int_readable]. *)
Fixpoint int_acc (s : string) (acc : Z) : Z :=
  match s with
  | EmptyString => acc
  | String ch r => int_acc r (10 * acc + (code ch - 48))
  end.

Definition int (s : string) : Z := int_acc s 0.

(** [s.replace(".", "", 1)]: the first full stop is removed. *)
Fixpoint remove_first_dot (s : string) : string :=
  match s with
  | EmptyString => EmptyString
  | String ch r => if Ascii.eqb ch "." then r else String ch (remove_first_dot r)
  end.

(** Number of characters after the first full stop, [None] without one. *)
Fixpoint after_dot (s : string) : option nat :=
  match s with
  | EmptyString => None
  | String ch r => if Ascii.eqb ch "." then Some (String.length r) else after_dot r
  end.

(** [not s]: the empty string is falsy. *)
Definition is_empty (s : string) : bool :=
  match s with EmptyString => true | _ => false end.

End Str.

(** The first character, if any, is not white space. *)
Definition head_not_space (s : string) : bool :=
  match s with
  | EmptyString => true
  | String ch _ => negb (Str.isspace ch)
  end.

(** Characters that [strip] and [lower] leave as they are: no white space,
    no upper case. *)
Definition stable (ch : ascii) : bool :=
  negb (Str.isspace ch) && Ascii.eqb (Str.lower_char ch) ch.

Fixpoint all_stable (s : string) : bool :=
  match s with
  | EmptyString => true
  | String ch r => stable ch && all_stable r
  end.

(** ** Time deltas *)

Abbreviation timedelta := Z (only parsing).

Definition US_PER_SECOND : Z := 1000000.
Definition US_PER_MINUTE : Z := 60 * US_PER_SECOND.
Definition US_PER_HOUR : Z := 60 * US_PER_MINUTE.
Definition US_PER_DAY : Z := 24 * US_PER_HOUR.

(** The [timedelta] constructor refuses a value whose day count leaves
    [-999999999, 999999999] (OverflowError). *)
Definition MAX_DELTA_DAYS : Z := 999999999.

Definition timedelta_in_range (us : Z) : bool :=
  (- MAX_DELTA_DAYS <=? us / US_PER_DAY) && (us / US_PER_DAY <=? MAX_DELTA_DAYS).

(** ** [parse_duration] *)

Inductive duration_error :=
| MissingNumberBeforeUnit          (* ValueError("Missing number before unit") *)
| UnsupportedCharacter (ch : ascii) (* ValueError("Unsupported character in duration: ...") *)
| DurationNotPositive              (* ValueError("Duration must be > 0") *)
| DurationOverflow.                (* OverflowError raised by timedelta(...) *)

Inductive result (A : Type) :=
| Ok (a : A)
| Raise (e : duration_error).
Arguments Ok {A} a.
Arguments Raise {A} e.

(** The loop state of [parse_duration]: [total], [num], [had_unit]. *)
Record scan_state := {
  total : Z;
  num : string;
  had_unit : bool
}.

(** One iteration of [for ch in s] (lines 68-84). *)
Definition scan_char (ch : ascii) (st : scan_state) : result scan_state :=
  if Str.isdigit ch then
    Ok {| total := total st; num := num st +:+ String ch EmptyString;
          had_unit := had_unit st |}
  else if Ascii.eqb ch "h" || Ascii.eqb ch "m" then
    if Str.is_empty (num st) then Raise MissingNumberBeforeUnit
    else
      let total' :=
        if Ascii.eqb ch "h" then total st + Str.int (num st) * 60
        else total st + Str.int (num st) in
      Ok {| total := total'; num := EmptyString; had_unit := true |}
  else if Ascii.eqb ch ":" then Ok st
  else Raise (UnsupportedCharacter ch).

Fixpoint scan (s : string) (st : scan_state) : result scan_state :=
  match s with
  | EmptyString => Ok st
  | String ch r =>
      match scan_char ch st with
      | Ok st' => scan r st'
      | Raise e => Raise e
      end
  end.

(** [timedelta(minutes=total)] *)
Definition timedelta_minutes (total : Z) : result timedelta :=
  let us := total * US_PER_MINUTE in
  if timedelta_in_range us then Ok us else Raise DurationOverflow.

(** The closing steps of [parse_duration] (lines 85-90) on the state the
    scanner leaves. *)
Definition finish (st : scan_state) : result timedelta :=
  let total :=
    if negb (Str.is_empty (num st)) && negb (had_unit st)
    then total st + Str.int (num st) else total st in
  if total <=? 0 then Raise DurationNotPositive else timedelta_minutes total.

Definition parse_duration (s : string) : result timedelta :=
  let s := Str.lower (Str.strip s) in
  match scan s {| total := 0; num := EmptyString; had_unit := false |} with
  | Raise e => Raise e
  | Ok st => finish st
  end.

(** ** The duration accepted by [cmd_log] (lines 305-316)

    A text that is a digit run with at most one full stop is read as a
    number of hours by [float(txt)].  The binary64 value is modelled by the
    exact decimal it denotes, and [timedelta(hours=...)] by rounding that
    many hours to the nearest microsecond, ties to even; both agree with
    Python whenever the decimal is a binary64 number whose microsecond count
    is an integer, as for every multiple of a half, a quarter or an eighth. *)

Definition round_half_even (n d : Z) : Z :=
  let q := n / d in
  let r := n mod d in
  if 2 * r <? d then q
  else if d <? 2 * r then q + 1
  else if Z.even q then q else q + 1.

Definition timedelta_hours_decimal (txt : string) : result timedelta :=
  let digits := Str.int (Str.remove_first_dot txt) in
  let scale := 10 ^ Z.of_nat (default 0%nat (Str.after_dot txt)) in
  if digits <=? 0 then Raise DurationNotPositive
  else
    let us := round_half_even (digits * US_PER_HOUR) scale in
    if timedelta_in_range us then Ok us else Raise DurationOverflow.

Definition log_duration (duration : string) : result timedelta :=
  let txt := Str.strip duration in
  if Str.str_isdigit (Str.remove_first_dot txt)
  then timedelta_hours_decimal txt
  else parse_duration txt.

Definition minutes (n : Z) : timedelta := n * US_PER_MINUTE.


(** ** Calendar arithmetic of Python's [datetime] module

    These are the library routines the report relies on ([_is_leap],
    [_days_before_year], [_days_in_month], [_days_before_month], [_ymd2ord],
    [_ord2ymd], [_isoweek1monday], [date.isocalendar], [date.isoformat]),
    written as the library computes them. *)

Abbreviation date := Z (only parsing).
Abbreviation datetime := Z (only parsing).

Definition MINYEAR : Z := 1.
Definition MAXYEAR : Z := 9999.

Definition is_leap (year : Z) : bool :=
  (year mod 4 =? 0) && (negb (year mod 100 =? 0) || (year mod 400 =? 0)).

Definition days_before_year (year : Z) : Z :=
  let y := year - 1 in
  y * 365 + y / 4 - y / 100 + y / 400.

Definition DAYS_IN_MONTH : list Z :=
  [-1; 31; 28; 31; 30; 31; 30; 31; 31; 30; 31; 30; 31].

Definition DAYS_BEFORE_MONTH : list Z :=
  [-1; 0; 31; 59; 90; 120; 151; 181; 212; 243; 273; 304; 334].

Definition table (t : list Z) (i : Z) : Z := nth (Z.to_nat i) t 0.

Definition days_in_month (year month : Z) : Z :=
  if (month =? 2) && is_leap year then 29 else table DAYS_IN_MONTH month.

Definition days_before_month (year month : Z) : Z :=
  table DAYS_BEFORE_MONTH month + (if (2 <? month) && is_leap year then 1 else 0).

Definition ymd2ord (year month day : Z) : date :=
  days_before_year year + days_before_month year month + day.

Definition DI400Y : Z := days_before_year 401.
Definition DI100Y : Z := days_before_year 101.
Definition DI4Y : Z := days_before_year 5.

Definition ord2ymd (n : date) : Z * Z * Z :=
  let n := n - 1 in
  let n400 := n / DI400Y in
  let n := n mod DI400Y in
  let year := n400 * 400 + 1 in
  let n100 := n / DI100Y in
  let n := n mod DI100Y in
  let n4 := n / DI4Y in
  let n := n mod DI4Y in
  let n1 := n / 365 in
  let n := n mod 365 in
  let year := year + n100 * 100 + n4 * 4 + n1 in
  if (n1 =? 4) || (n100 =? 4) then (year - 1, 12, 31)
  else
    let leapyear := (n1 =? 3) && (negb (n4 =? 24) || (n100 =? 3)) in
    let month := Z.shiftr (n + 50) 5 in
    let preceding :=
      table DAYS_BEFORE_MONTH month
      + (if (2 <? month) && leapyear then 1 else 0) in
    if n <? preceding then
      let month := month - 1 in
      let preceding :=
        preceding
        - (table DAYS_IN_MONTH month
           + (if (month =? 2) && leapyear then 1 else 0)) in
      (year, month, n - preceding + 1)
    else (year, month, n - preceding + 1).

Definition year_of (d : date) : Z := fst (fst (ord2ymd d)).
Definition month_of (d : date) : Z := snd (fst (ord2ymd d)).
Definition day_of (d : date) : Z := snd (ord2ymd d).

Definition isoweek1monday (year : Z) : Z :=
  let THURSDAY := 3 in
  let firstday := ymd2ord year 1 1 in
  let firstweekday := (firstday + 6) mod 7 in
  let week1monday := firstday - firstweekday in
  if THURSDAY <? firstweekday then week1monday + 7 else week1monday.

(** [d.isocalendar()]: ISO year, ISO week number, ISO weekday. *)
Definition isocalendar (d : date) : Z * Z * Z :=
  let year := year_of d in
  let week1monday := isoweek1monday year in
  let today := ymd2ord year (month_of d) (day_of d) in
  let week := (today - week1monday) / 7 in
  let day := (today - week1monday) mod 7 in
  if week <? 0 then
    let year := year - 1 in
    let week1monday := isoweek1monday year in
    (year, (today - week1monday) / 7 + 1, (today - week1monday) mod 7 + 1)
  else if (52 <=? week) && (isoweek1monday (year + 1) <=? today) then
    (year + 1, 1, day + 1)
  else (year, week + 1, day + 1).

(** Decimal rendering with zero padding to [width] digits ([{n:0wd}]). *)
Definition digit_char (d : Z) : ascii := ascii_of_N (Z.to_N (48 + d)).

Fixpoint zero_pad (width : nat) (n : Z) (acc : string) : string :=
  match width with
  | O => acc
  | S w => zero_pad w (n / 10) (String (digit_char (n mod 10)) acc)
  end.

(** [d.isoformat()] for a year of at most four digits: YYYY-MM-DD. *)
Definition date_isoformat (d : date) : string :=
  let '(y, m, dd) := ord2ymd d in
  zero_pad 4 y ("-" +:+ zero_pad 2 m ("-" +:+ zero_pad 2 dd EmptyString)).

(** ** Naive datetimes *)

(** [dt.date()] *)
Definition date_of (dt : datetime) : date := dt / US_PER_DAY.

(** [datetime.combine(d, datetime.min.time())]: the midnight starting [d]. *)
Definition combine_midnight (d : date) : datetime := d * US_PER_DAY.

(** [dt.replace(hour=0, minute=0, second=0, microsecond=0)] *)
Definition replace_midnight (dt : datetime) : datetime :=
  combine_midnight (date_of dt).

(** The constructor [datetime(year, month, day, hour, minute, second,
    microsecond)]; [None] stands for the [ValueError] of a field out of
    range. *)
Definition mk_datetime (year month day hour minute second us : Z)
  : option datetime :=
  if (MINYEAR <=? year) && (year <=? MAXYEAR)
     && (1 <=? month) && (month <=? 12)
     && (1 <=? day) && (day <=? days_in_month year month)
     && (0 <=? hour) && (hour <=? 23)
     && (0 <=? minute) && (minute <=? 59)
     && (0 <=? second) && (second <=? 59)
     && (0 <=? us) && (us <=? 999999)
  then Some (combine_midnight (ymd2ord year month day)
             + hour * US_PER_HOUR + minute * US_PER_MINUTE
             + second * US_PER_SECOND + us)
  else None.

(** [start_of_month] (lines 362-363). *)
Definition start_of_month (d : date) : option datetime :=
  mk_datetime (year_of d) (month_of d) 1 0 0 0 0.

(** [end_of_month] (lines 366-372): midnight of the first day of the next
    month. *)
Definition end_of_month (d : date) : option datetime :=
  if month_of d =? 12 then mk_datetime (year_of d + 1) 1 1 0 0 0 0
  else mk_datetime (year_of d) (month_of d + 1) 1 0 0 0 0.

(** [day_span] (lines 375-378): the next midnight after [dt].  The code
    raises [OverflowError] when [dt + 1 day] lies past the year 9999; the
    model is total, and is meant for instants whose next day exists. *)
Definition day_span (dt : datetime) : datetime :=
  replace_midnight (dt + US_PER_DAY).

(** [clamp_interval] (lines 381-386). *)
Definition clamp_interval (a b lo hi : datetime) : option (datetime * datetime) :=
  let start := Z.max a lo in
  let end_ := Z.min b hi in
  if end_ <=? start then None else Some (start, end_).

(** ** [datetime.fromisoformat]

    A library routine, modelled on its documented grammar, which is the one
    of the strings [datetime.isoformat()] writes into the ledger:
    [YYYY-MM-DD], then optionally one separator character followed by
    [HH[:MM[:SS[.fff[fff]]]]].  This is what Python 3.7 to 3.10 read; from
    3.11 on the routine reads further ISO 8601 forms as well, all of which
    begin with a digit.  [None] stands for a raised exception.  A
    text that carries a UTC offset is also answered by [None]: Python reads
    it as an aware datetime, and the first comparison of that value with
    the naive month bounds in [clamp_interval] raises [TypeError], so no
    record holding one gets past line 415.  The properties below that
    quantify over ledgers hold for any such parser; only the scenarios
    evaluate this one. *)

Module Iso.

Definition digit (ch : ascii) : option Z :=
  if Str.isdigit ch then Some (Str.code ch - 48) else None.

(** Exactly [n] digits, then the rest of the text. *)
Fixpoint digits (n : nat) (s : string) (acc : Z) : option (Z * string) :=
  match n with
  | O => Some (acc, s)
  | S k =>
      match s with
      | EmptyString => None
      | String ch r =>
          match digit ch with
          | Some d => digits k r (10 * acc + d)
          | None => None
          end
      end
  end.

Definition expect (c : ascii) (s : string) : option string :=
  match s with
  | String ch r => if Ascii.eqb ch c then Some r else None
  | EmptyString => None
  end.

(** The fraction: three or six digits, up to the end of the text. *)
Definition fraction (s : string) : option Z :=
  match digits 3 s 0 with
  | Some (ms, EmptyString) => Some (ms * 1000)
  | Some (_, _) =>
      match digits 6 s 0 with
      | Some (us, EmptyString) => Some us
      | _ => None
      end
  | None => None
  end.

(** [HH[:MM[:SS[.fff[fff]]]]] as (hour, minute, second, microsecond). *)
Definition time (s : string) : option (Z * Z * Z * Z) :=
  '(hh, r) ← digits 2 s 0;
  match r with
  | EmptyString => Some (hh, 0, 0, 0)
  | _ =>
      r ← expect ":" r;
      '(mm, r) ← digits 2 r 0;
      match r with
      | EmptyString => Some (hh, mm, 0, 0)
      | _ =>
          r ← expect ":" r;
          '(ss, r) ← digits 2 r 0;
          match r with
          | EmptyString => Some (hh, mm, ss, 0)
          | _ => r ← expect "." r; us ← fraction r; Some (hh, mm, ss, us)
          end
      end
  end.

End Iso.

Definition fromisoformat (date_string : string) : option datetime :=
  '(y, r) ← Iso.digits 4 date_string 0;
  r ← Iso.expect "-" r;
  '(m, r) ← Iso.digits 2 r 0;
  r ← Iso.expect "-" r;
  '(d, r) ← Iso.digits 2 r 0;
  match r with
  | EmptyString => mk_datetime y m d 0 0 0 0
  | String _ tstr =>
      '(hh, mm, ss, us) ← Iso.time tstr;
      mk_datetime y m d hh mm ss us
  end.

(** ** The ledger and the aggregation loop of [cmd_report] *)

(** A ledger record as [load_data] returns it.  [None] in [project] is an
    absent key; [None] in [start] or [end_] is an absent key or a JSON
    null. *)
Record entry := {
  project : option string;
  start : option string;
  end_ : option string
}.

(** Truth value of [e.get(key)]: [None] and the empty string are falsy. *)
Definition truthy (v : option string) : bool :=
  match v with
  | Some s => negb (Str.is_empty s)
  | None => false
  end.

(** [per_day_totals] and [monthly_project_totals]. *)
Record totals := {
  per_day_totals : gmap string (gmap string Z);
  monthly_project_totals : gmap string Z
}.

Definition no_totals : totals :=
  {| per_day_totals := ∅; monthly_project_totals := ∅ |}.

(** [d.setdefault(day_key, {})] *)
Definition setdefault_day (day_key : string) (pd : gmap string (gmap string Z))
  : gmap string (gmap string Z) :=
  match pd !! day_key with
  | Some _ => pd
  | None => <[day_key := ∅]> pd
  end.

(** [m[proj] = m.get(proj, timedelta()) + dur] *)
Definition accumulate (proj : string) (dur : Z) (m : gmap string Z)
  : gmap string Z :=
  <[proj := default 0 (m !! proj) + dur]> m.

(** Lines 426-428: the duration is added to the day's cell and to the
    project's monthly cell. *)
Definition add_segment (day_key proj : string) (dur : Z) (st : totals) : totals :=
  let pd := setdefault_day day_key (per_day_totals st) in
  let day := default ∅ (pd !! day_key) in
  {| per_day_totals := <[day_key := accumulate proj dur day]> pd;
     monthly_project_totals := accumulate proj dur (monthly_project_totals st) |}.

(** The [while cur_start < cur_end] loop (lines 421-429), bounded by
    [fuel] iterations. *)
Fixpoint split_loop (fuel : nat) (proj : string) (cur_start cur_end : datetime)
    (st : totals) : totals :=
  match fuel with
  | O => st
  | S fuel' =>
      if cur_start <? cur_end then
        let next_midnight := day_span cur_start in
        let seg_end := Z.min cur_end next_midnight in
        let dur := seg_end - cur_start in
        let day_key := date_isoformat (date_of cur_start) in
        split_loop fuel' proj seg_end cur_end (add_segment day_key proj dur st)
      else st
  end.

(** Enough iterations for the loop to leave through its guard: one per
    calendar day touched. *)
Definition split_fuel (cur_start cur_end : datetime) : nat :=
  Z.to_nat (date_of cur_end - date_of cur_start + 1).

(** The body of [for e in data] (lines 406-429); [None] when the record
    makes [cmd_report] raise. *)
Definition process_entry (now month_start month_end : datetime) (e : entry)
    (st : totals) : option totals :=
  let proj := default "(unknown)" (project e) in
  let start_s := start e in
  let end_s := end_ e in
  if negb (truthy start_s) then Some st
  else
    start ← fromisoformat (default EmptyString start_s);
    end_ ← (if truthy end_s then fromisoformat (default EmptyString end_s)
            else Some now);
    match clamp_interval start end_ month_start month_end with
    | None => Some st
    | Some (cur_start, cur_end) =>
        Some (split_loop (split_fuel cur_start cur_end) proj cur_start cur_end st)
    end.

Fixpoint aggregate_from (now month_start month_end : datetime)
    (data : list entry) (st : totals) : option totals :=
  match data with
  | [] => Some st
  | e :: rest =>
      st' ← process_entry now month_start month_end e st;
      aggregate_from now month_start month_end rest st'
  end.

(** The aggregation of a ledger over the window [month_start, month_end),
    from empty totals. *)
Definition aggregate (now month_start month_end : datetime) (data : list entry)
  : option totals :=
  aggregate_from now month_start month_end data no_totals.

(** The window of the month that holds [now] (lines 395-398). *)
Definition report_window (now : datetime) : option (datetime * datetime) :=
  let today := date_of now in
  month_start ← start_of_month today;
  month_end ← end_of_month today;
  Some (month_start, month_end).

(** The aggregation part of [cmd_report] (lines 390-429).  On an empty
    ledger [cmd_report] prints a notice and returns before it builds the
    window: nothing is filed and nothing raises. *)
Definition report_totals (now : datetime) (data : list entry) : option totals :=
  match data with
  | [] => Some no_totals
  | _ :: _ =>
      '(month_start, month_end) ← report_window now;
      aggregate now month_start month_end data
  end.

(** ** Day segments: the trace of the splitting loop *)

Record segment := {
  seg_day : string;
  seg_start : datetime;
  seg_end : datetime
}.

Definition seg_duration (s : segment) : Z := seg_end s - seg_start s.

(** The segments the loop of lines 421-429 visits, in order. *)
Fixpoint split_segments (fuel : nat) (cur_start cur_end : datetime) : list segment :=
  match fuel with
  | O => []
  | S fuel' =>
      if cur_start <? cur_end then
        let next_midnight := day_span cur_start in
        let seg_end := Z.min cur_end next_midnight in
        {| seg_day := date_isoformat (date_of cur_start);
           seg_start := cur_start; seg_end := seg_end |}
        :: split_segments fuel' seg_end cur_end
      else []
  end.

Definition split_by_day (cur_start cur_end : datetime) : list segment :=
  split_segments (split_fuel cur_start cur_end) cur_start cur_end.

(** The position [cur_start] holds when the loop stops. *)
Fixpoint split_exit (fuel : nat) (cur_start cur_end : datetime) : datetime :=
  match fuel with
  | O => cur_start
  | S fuel' =>
      if cur_start <? cur_end
      then split_exit fuel' (Z.min cur_end (day_span cur_start)) cur_end
      else cur_start
  end.

(** Segments of an interval against a window: clamp, then split. *)
Definition interval_segments (a b lo hi : datetime) : list segment :=
  match clamp_interval a b lo hi with
  | None => []
  | Some (cur_start, cur_end) => split_by_day cur_start cur_end
  end.

(** [end = ... if end_s else now] at the level of parsed values. *)
Definition effective_end (now : datetime) (end_ : option datetime) : datetime :=
  default now end_.

Definition add_segments (proj : string) (segs : list segment) (st : totals) : totals :=
  fold_left (fun acc s => add_segment (seg_day s) proj (seg_duration s) acc) segs st.

(** ** The calendar grouping of [cmd_report] (lines 433-448) *)

(** The [while] loop of lines 435-437, bounded by [fuel] iterations. *)
Fixpoint days_loop (fuel : nat) (dcur : date) (month_end : datetime) : list date :=
  match fuel with
  | O => []
  | S fuel' =>
      if combine_midnight dcur <? month_end
      then dcur :: days_loop fuel' (dcur + 1) month_end
      else []
  end.

Definition days_fuel (month_start month_end : datetime) : nat :=
  Z.to_nat (date_of month_end + 1 - date_of month_start).

Definition month_days (month_start month_end : datetime) : list date :=
  days_loop (days_fuel month_start month_end) (date_of month_start) month_end.

(** [key = (iso[0], iso[1])] *)
Definition week_key (d : date) : Z * Z :=
  let '(y, w, _) := isocalendar d in (y, w).

Definition key_eqb (a b : Z * Z) : bool :=
  (fst a =? fst b) && (snd a =? snd b).

(** An [OrderedDict]: bindings in order of first insertion. *)
Abbreviation week_buckets := (list ((Z * Z) * list date)) (only parsing).

(** [key in weeks] *)
Fixpoint has_key (key : Z * Z) (weeks : week_buckets) : bool :=
  match weeks with
  | [] => false
  | (k, _) :: rest => key_eqb k key || has_key key rest
  end.

(** [weeks[key].append(dday)] for a key that is present. *)
Fixpoint append_day (key : Z * Z) (dday : date) (weeks : week_buckets)
  : week_buckets :=
  match weeks with
  | [] => []
  | (k, ds) :: rest =>
      if key_eqb k key then (k, ds ++ [dday]) :: rest
      else (k, ds) :: append_day key dday rest
  end.

(** The body of [for dday in days] (lines 444-448). *)
Definition group_step (weeks : week_buckets) (dday : date) : week_buckets :=
  let key := week_key dday in
  let weeks := if has_key key weeks then weeks else weeks ++ [(key, [])] in
  append_day key dday weeks.

Definition group_by_iso_week (days : list date) : week_buckets :=
  fold_left group_step days [].

(** The first day of a bucket. *)
Definition first_day (b : (Z * Z) * list date) : date := hd 0 (snd b).

(** The segments a ledger record contributes, [None] when reading it
    raises: the record is skipped without a start, and its end is the
    evaluation instant when it has none. *)
Definition entry_segments (now month_start month_end : datetime) (e : entry)
  : option (list segment) :=
  if negb (truthy (start e)) then Some []
  else
    start ← fromisoformat (default EmptyString (start e));
    end_ ← (if truthy (end_ e) then fromisoformat (default EmptyString (end_ e))
            else Some now);
    Some (interval_segments start end_ month_start month_end).

(** [sum(per_day_totals[d][p] for all d)], a day without the project
    counting for nothing. *)
Definition day_sum (p : string) (pd : gmap string (gmap string Z)) : Z :=
  map_fold (fun _ day acc => acc + default 0 (day !! p)) 0 pd.

(** [monthly_project_totals[p]], an absent project counting for nothing. *)
Definition month_total (p : string) (mt : gmap string Z) : Z :=
  default 0 (mt !! p).

(** [per_day_totals[day_key][proj]], an absent day or project counting
    for nothing. *)
Definition day_cell (day_key proj : string) (st : totals) : Z :=
  default 0 (default ∅ (per_day_totals st !! day_key) !! proj).

(** The project has a cell in some day of [per_day_totals]. *)
Definition tracked (p : string) (pd : gmap string (gmap string Z)) : Prop :=
  exists k day, pd !! k = Some day /\ is_Some (day !! p).

(** The day totals and the monthly totals tell the same story. *)
Definition balanced (st : totals) : Prop :=
  forall p,
    day_sum p (per_day_totals st) = month_total p (monthly_project_totals st)
    /\ (is_Some (monthly_project_totals st !! p) <-> tracked p (per_day_totals st)).

(** Sum of the durations of a list of segments. *)
Definition total_duration (segs : list segment) : Z :=
  fold_right (fun s acc => seg_duration s + acc) 0 segs.

(** [chained from segs to]: the segments follow one another without gap or
    overlap, the first starting at [from] and the last ending at [to]. *)
Fixpoint chained (from : datetime) (segs : list segment) (to : datetime) : Prop :=
  match segs with
  | [] => from = to
  | s :: rest => seg_start s = from /\ chained (seg_end s) rest to
  end.

(** A segment lies within the calendar day it is filed under: it is not
    empty, it ends at the next midnight at the latest, and its key is the
    date of its first instant. *)
Definition within_one_day (s : segment) : Prop :=
  seg_start s < seg_end s
  /\ seg_end s <= day_span (seg_start s)
  /\ date_of (seg_end s - 1) = date_of (seg_start s)
  /\ seg_day s = date_isoformat (date_of (seg_start s)).

(** A bucket holds at least one day, its days ascend, all of them come
    before [bound] and belong to the ISO week that keys the bucket. *)
Definition bucket_ok (bound : Z) (b : (Z * Z) * list date) : Prop :=
  snd b <> []
  /\ StronglySorted Z.lt (snd b)
  /\ Forall (fun d => d < bound /\ week_key d = fst b) (snd b).

(** The buckets built from the days [done]: every bucket is sound, the
    first days of the buckets ascend in the order of the buckets, no key
    occurs twice, and the buckets together hold each day of [done] as often
    as [done] does. *)
Definition weeks_ok (bound : Z) (done : list date) (weeks : week_buckets) : Prop :=
  Forall (bucket_ok bound) weeks
  /\ StronglySorted Z.lt (map first_day weeks)
  /\ NoDup (map fst weeks)
  /\ Permutation (concat (map snd weeks)) done.

(** ** Sample data *)

(** 2024-03-15 10:00, the evaluation instant of the scenarios, and the
    bounds of its month: 2024-03-01 00:00 and 2024-04-01 00:00. *)
Definition sample_now : datetime := 63846180000000000.
Definition march_start : datetime := 63844934400000000.
Definition march_end : datetime := 63847612800000000.

(** 2024-03-15 09:00. *)
Definition open_start : datetime := 63846176400000000.

(** Two closed sessions on 2024-03-01. *)
Definition sample_ledger : list entry :=
  [ {| project := Some "alpha"; start := Some "2024-03-01T09:00:00";
       end_ := Some "2024-03-01T11:00:00" |};
    {| project := Some "beta"; start := Some "2024-03-01T11:00:00";
       end_ := Some "2024-03-01T11:45:00" |} ].

(** A session started at 09:00 on 2024-03-15 and still running. *)
Definition open_entry : entry :=
  {| project := Some "alpha"; start := Some "2024-03-15T09:00:00";
     end_ := None |}.

(** Records whose start, or whose end, is not a timestamp. *)
Definition bad_start_entry : entry :=
  {| project := Some "alpha"; start := Some "yesterday";
     end_ := Some "2024-03-01T11:00:00" |}.

Definition bad_end_entry : entry :=
  {| project := Some "alpha"; start := Some "2024-03-01T09:00:00";
     end_ := Some "11 o'clock" |}.

(** A record without a start. *)
Definition no_start_entry : entry :=
  {| project := Some "alpha"; start := None;
     end_ := Some "2024-03-01T11:00:00" |}.

(** ** Formatting durations ([_secs_to_hms], [human_td], [td_to_hm]) *)

(** [int(num)] reads a digit run of at most 4300 characters, the default
    limit of the conversion from text; on a longer one it raises
    [ValueError], which [Str.int] does not model. *)
Definition MAX_STR_DIGITS : nat := 4300.

Definition int_readable (num : string) : bool :=
  (String.length num <=? MAX_STR_DIGITS)%nat.

(** The decimal digits of a non-negative integer, most significant first,
    within [fuel] digits. *)
Fixpoint decimal_fuel (fuel : nat) (n : Z) : string :=
  match fuel with
  | O => EmptyString
  | S fuel' =>
      (if n / 10 =? 0 then EmptyString else decimal_fuel fuel' (n / 10))
      +:+ String (digit_char (n mod 10)) EmptyString
  end.

(** A number below [2 ^ fuel] has at most [fuel] decimal digits. *)
Definition decimal (n : Z) : string :=
  decimal_fuel (S (Z.to_nat (Z.log2 n))) n.

(** [f"{n}"] for an integer. *)
Definition format_d (n : Z) : string :=
  if n <? 0 then "-" +:+ decimal (- n) else decimal n.

(** [f"{n:02d}"]: zero-padded to two characters, longer when need be. *)
Definition format_02d (n : Z) : string :=
  if n <? 0 then format_d n
  else if (String.length (decimal n) <? 2)%nat then "0" +:+ decimal n
  else decimal n.

(** [int(delta.total_seconds())]: the whole seconds of a [timedelta],
    truncated towards zero.  [total_seconds()] is the binary64 nearest to
    the exact quotient; below 2^33 seconds that value cannot reach the next
    integer, so truncating it and truncating the exact quotient agree. *)
Definition int_total_seconds (delta : timedelta) : Z :=
  Z.quot delta US_PER_SECOND.

(** The durations whose whole seconds [int_total_seconds] gives as the
    code does: fewer than 2^33 seconds either way. *)
Definition seconds_exact (delta : timedelta) : bool :=
  Z.abs delta <? 2 ^ 33 * US_PER_SECOND.

(** [_secs_to_hms] (lines 97-102). *)
Definition _secs_to_hms (total_seconds : Z) : string :=
  let total_seconds := if total_seconds <? 0 then 0 else total_seconds in
  let h := total_seconds / 3600 in
  let rem := total_seconds mod 3600 in
  let m := rem / 60 in
  let s := rem mod 60 in
  format_02d h +:+ ":" +:+ format_02d m +:+ ":" +:+ format_02d s.

(** [human_td] (lines 350-359). *)
Definition human_td (delta : timedelta) : string :=
  let total_seconds := int_total_seconds delta in
  let neg := total_seconds <? 0 in
  let total_seconds := Z.abs total_seconds in
  let h := total_seconds / 3600 in
  let rem := total_seconds mod 3600 in
  let m := rem / 60 in
  let s := if neg then "-" else EmptyString in
  if negb (h =? 0) then s +:+ format_d h +:+ "h" +:+ format_02d m +:+ "m"
  else s +:+ format_d m +:+ "m".

(** [td_to_hm] inside [cmd_report] (lines 496-500). *)
Definition td_to_hm (td : timedelta) : string :=
  let total := int_total_seconds td in
  let h := total / 3600 in
  let rem := total mod 3600 in
  let m := rem / 60 in
  format_02d h +:+ ":" +:+ format_02d m.

(** Characters [parse_duration] lets through: digits, the two units and
    the colon. *)
Definition allowed (ch : ascii) : bool :=
  Str.isdigit ch || Ascii.eqb ch "h" || Ascii.eqb ch "m" || Ascii.eqb ch ":".

Fixpoint all_allowed (s : string) : bool :=
  match s with
  | EmptyString => true
  | String ch r => allowed ch && all_allowed r
  end.

Fixpoint has_digit (s : string) : bool :=
  match s with
  | EmptyString => false
  | String ch r => Str.isdigit ch || has_digit r
  end.

(** ** Checking one 400-year cycle of the calendar *)

(** [check] holds at the [fuel] integers from [n] on. *)
Fixpoint all_from (check : Z -> bool) (fuel : nat) (n : Z) : bool :=
  match fuel with
  | O => true
  | S fuel' => if check n then all_from check fuel' (n + 1) else false
  end.

Definition ymd_eqb (a b : Z * Z * Z) : bool :=
  (fst (fst a) =? fst (fst b)) && (snd (fst a) =? snd (fst b))
  && (snd a =? snd b).

(** The ordinal [n] of the first cycle splits into a valid date of the
    years 1-400 whose ordinal is [n] again; the first 145731 days fall
    before year 400. *)
Definition ordinal_ok (n : Z) : bool :=
  let '(y, m, d) := ord2ymd n in
  (1 <=? y) && (y <=? 400) && (1 <=? m) && (m <=? 12)
  && (1 <=? d) && (d <=? days_in_month y m)
  && (ymd2ord y m d =? n)
  && ((145731 <? n) || (y <=? 399)).

Definition month_numbers : list Z := map Z.of_nat (seq 1 12).

Definition day_numbers : list Z := map Z.of_nat (seq 1 31).

(** Every date of year [y] has an ordinal within the first cycle that
    splits back into that date. *)
Definition year_ok (y : Z) : bool :=
  forallb
    (fun m =>
       forallb
         (fun d =>
            (days_in_month y m <? d)
            || ((1 <=? ymd2ord y m d) && (ymd2ord y m d <=? 146097)
                && ymd_eqb (ord2ymd (ymd2ord y m d)) (y, m, d)))
         day_numbers)
    month_numbers.

(** ** Timestamps written to the ledger ([iso_now]) *)

Definition hour_of (dt : datetime) : Z := dt mod US_PER_DAY / US_PER_HOUR.

Definition minute_of (dt : datetime) : Z :=
  dt mod US_PER_DAY mod US_PER_HOUR / US_PER_MINUTE.

Definition second_of (dt : datetime) : Z :=
  dt mod US_PER_DAY mod US_PER_HOUR mod US_PER_MINUTE / US_PER_SECOND.

Definition microsecond_of (dt : datetime) : Z :=
  dt mod US_PER_DAY mod US_PER_HOUR mod US_PER_MINUTE mod US_PER_SECOND.

(** [dt.isoformat()] for a naive datetime: YYYY-MM-DDTHH:MM:SS, followed
    by a full stop and six digits when the microsecond is not zero. *)
Definition datetime_isoformat (dt : datetime) : string :=
  date_isoformat (date_of dt)
  +:+ "T"
  +:+ zero_pad 2 (hour_of dt)
        (":" +:+ zero_pad 2 (minute_of dt)
           (":" +:+ zero_pad 2 (second_of dt)
              (if microsecond_of dt =? 0 then EmptyString
               else "." +:+ zero_pad 6 (microsecond_of dt) EmptyString))).

(** [iso_now] (lines 93-94), the reading of the clock passed in. *)
Definition iso_now (now : datetime) : string := datetime_isoformat now.

(** The instants a Python [datetime] can hold: the years 1 to 9999. *)
Definition valid_datetime (dt : datetime) : bool :=
  (1 <=? date_of dt) && (date_of dt <=? 3652059).

(** ** Timestamps that carry a UTC offset

    [fromisoformat] above answers [None] for them because of the
    comparison that follows in [cmd_report]; [cmd_start] only formats the
    value it reads, so there such a text is read without error.  After the
    time, the documented grammar allows a sign and [HH:MM[:SS[.ffffff]]],
    an offset of less than a day. *)

(** The text before the first sign, and the text after it. *)
Fixpoint split_sign (s : string) : string * option string :=
  match s with
  | EmptyString => (EmptyString, None)
  | String ch r =>
      if Ascii.eqb ch "+" || Ascii.eqb ch "-" then (EmptyString, Some r)
      else let '(a, b) := split_sign r in (String ch a, b)
  end.

Definition offset_ok (tz : string) : bool :=
  ((String.length tz =? 5) || (String.length tz =? 8)
   || (String.length tz =? 15))%nat
  && match Iso.time tz with
     | Some (hh, mm, ss, _) => hh * 3600 + mm * 60 + ss <? 86400
     | None => false
     end.

Definition aware_readable (date_string : string) : bool :=
  match
    '(y, r) ← Iso.digits 4 date_string 0;
    r ← Iso.expect "-" r;
    '(m, r) ← Iso.digits 2 r 0;
    r ← Iso.expect "-" r;
    '(d, r) ← Iso.digits 2 r 0;
    match r with
    | EmptyString => None
    | String _ tstr =>
        match split_sign tstr with
        | (timestr, Some tz) =>
            '(hh, mm, ss, us) ← Iso.time timestr;
            _ ← mk_datetime y m d hh mm ss us;
            if offset_ok tz then Some tt else None
        | (_, None) => None
        end
    end
  with
  | Some _ => true
  | None => false
  end.

(** [datetime.fromisoformat(s)] returns, with a naive or an aware value. *)
Definition isoformat_readable (s : string) : bool :=
  match fromisoformat s with
  | Some _ => true
  | None => aware_readable s
  end.

(** ** The ledger commands ([cmd_start], [cmd_stop], [cmd_log])

    The ledger is the list that [load_data] returns; a command answers
    with the ledger that the next [load_data] returns, which is the one it
    was given when the command does not call [save_data].  [now] is the
    reading of the clock. *)

(** What a stored record holds under the key "project": nothing, a JSON
    null, or a text. *)
Inductive project_field :=
| NoProject
| NullProject
| Project (name : string).

(** A ledger record with the fields the commands add to it.  [None] in
    [row_start] or [row_end] is an absent key or a null; [manual] is
    [false] for a record without that key. *)
Record row := {
  row_project : project_field;
  row_start : option string;
  row_end : option string;
  duration_seconds : option Z;
  duration : option string;
  manual : bool
}.

(** [e.get("project")], [e.get("start")] and [e.get("end")]: [None] for
    an absent key and for a null. *)
Definition row_entry (r : row) : entry :=
  {| project := match row_project r with
                | Project name => Some name
                | NoProject | NullProject => None
                end;
     start := row_start r;
     end_ := row_end r |}.

(** [e["project"]] inside an f-string: the text, [None] printed for a
    null; no value when the key is absent, where the lookup raises. *)
Definition project_text (p : project_field) : option string :=
  match p with
  | NoProject => None
  | NullProject => Some "None"
  | Project name => Some name
  end.

(** The record [save_data] writes for a record (lines 50-56): the three
    essential keys are always written, a missing one with a null; every
    other field is kept. *)
Definition cleaned (r : row) : row :=
  {| row_project := match row_project r with
                    | NoProject => NullProject
                    | p => p
                    end;
     row_start := row_start r;
     row_end := row_end r;
     duration_seconds := duration_seconds r;
     duration := duration r;
     manual := manual r |}.

(** [save_data] (lines 45-60), as the ledger the next [load_data]
    returns. *)
Definition save_data (data : list row) : list row := map cleaned data.

(** What a command prints.  [Stopped None] stands for a record without a
    project key: the ledger is written, then line 298 raises. *)
Inductive message :=
| AlreadyTracking (project : string)
| StartedTracking (project : string)
| NoActiveTimer
| Stopped (project : option string)
| InvalidDuration (e : duration_error)
| Logged (mins : Z) (project : string).

(** [data and data[-1].get("end") is None] *)
Definition is_active (data : list row) : bool :=
  match last data with
  | Some r =>
      match end_ (row_entry r) with
      | None => true
      | Some _ => false
      end
  | None => false
  end.

(** [" ".join(args.project)] *)
Definition project_name (words : list string) : string :=
  String.concat " " words.

(** The ledger part of [cmd_start] (lines 220-233); [None] when it raises,
    which it does when the start of the running session cannot be read or
    the record has no project key. *)
Definition cmd_start (words : list string) (now : datetime) (data : list row)
  : option (list row * message) :=
  if is_active data then
    match last data with
    | Some active =>
        match row_start active with
        | Some s =>
            if isoformat_readable s then
              match project_text (row_project active) with
              | Some p => Some (data, AlreadyTracking p)
              | None => None
              end
            else None
        | None => None
        end
    | None => None
    end
  else
    let now_iso := iso_now now in
    let name := project_name words in
    Some (save_data
            (data ++ [ {| row_project := Project name;
                          row_start := Some now_iso;
                          row_end := None;
                          duration_seconds := None; duration := None;
                          manual := false |} ]),
          StartedTracking name).

(** The update of the last record shared by [cmd_stop] (lines 287-296) and
    by the two handlers of [cmd_start] (lines 239-249, 265-275): the end is
    set, and the duration fields too when both instants can be read. *)
Definition close_row (r : row) (end_iso : string) (end_dt : option datetime)
  : row :=
  match row_start r ≫= fromisoformat, end_dt with
  | Some start_dt, Some end_dt =>
      let secs := int_total_seconds (end_dt - start_dt) in
      {| row_project := row_project r; row_start := row_start r;
         row_end := Some end_iso;
         duration_seconds := Some secs;
         duration := Some (_secs_to_hms secs); manual := manual r |}
  | _, _ =>
      {| row_project := row_project r; row_start := row_start r;
         row_end := Some end_iso;
         duration_seconds := duration_seconds r;
         duration := duration r; manual := manual r |}
  end.

(** [data[-1] = ...] *)
Definition set_last (data : list row) (r : row) : list row :=
  removelast data ++ [r].

(** [cmd_stop] (lines 281-298). *)
Definition cmd_stop (now : datetime) (data : list row) : list row * message :=
  if is_active data then
    match last data with
    | Some active =>
        let end_iso := iso_now now in
        (save_data
           (set_last data (close_row active end_iso (fromisoformat end_iso))),
         Stopped (project_text (row_project active)))
    | None => (data, NoActiveTimer)
    end
  else (data, NoActiveTimer).

(** The handlers that [cmd_start] installs for Ctrl-C and for SIGHUP and
    SIGTERM: the running session, if any, is closed at [end_dt]. *)
Definition finalize_active (end_dt : datetime) (data : list row) : list row :=
  if is_active data then
    match last data with
    | Some active =>
        save_data
          (set_last data
             (close_row active (datetime_isoformat end_dt) (Some end_dt)))
    | None => data
    end
  else data.

(** [cmd_log] (lines 301-331); [None] when it raises: [OverflowError] from
    [timedelta] or from a start before the year 1 is not caught.  The
    duration is read by [log_duration], with its conventions on decimals
    and on the length of digit runs. *)
Definition cmd_log (proj duration_text : string) (now : datetime)
    (data : list row) : option (list row * message) :=
  match log_duration duration_text with
  | Raise DurationOverflow => None
  | Raise e => Some (data, InvalidDuration e)
  | Ok dur =>
      let end_time := now in
      let start_time := end_time - dur in
      if valid_datetime start_time then
        let secs := int_total_seconds dur in
        Some (save_data
                (data ++ [ {| row_project := Project proj;
                              row_start := Some (datetime_isoformat start_time);
                              row_end := Some (datetime_isoformat end_time);
                              duration_seconds := Some secs;
                              duration := Some (_secs_to_hms secs);
                              manual := true |} ]),
              Logged (secs / 60) proj)
      else None
  end.

(** The record as [cmd_report] reads it (lines 406-408).  A null project
    is filed under the key [None], which the totals of this development,
    keyed by texts, do not hold: no value then. *)
Definition report_entry (r : row) : option entry :=
  match row_project r with
  | NullProject => None
  | NoProject | Project _ => Some (row_entry r)
  end.

(** The records of a ledger as [cmd_report] reads them. *)
Definition entries (data : list row) : option (list entry) :=
  mapM report_entry data.

(** Every record files its time under a project name. *)
Definition named (r : row) : bool :=
  match row_project r with
  | Project _ => true
  | NoProject | NullProject => false
  end.

(** Only the last record may be open. *)
Definition closed (r : row) : Prop := end_ (row_entry r) <> None.

Definition open_at_tail_only (data : list row) : Prop :=
  Forall closed (removelast data).

(** A ledger with a logged record and a session still running. *)
Definition sample_rows : list row :=
  [ {| row_project := Project "beta";
       row_start := Some "2024-03-01T11:00:00";
       row_end := Some "2024-03-01T11:45:00";
       duration_seconds := Some 2700; duration := Some "00:45:00";
       manual := true |};
    {| row_project := Project "alpha";
       row_start := Some "2024-03-15T09:00:00"; row_end := None;
       duration_seconds := None; duration := None; manual := false |} ].

(** ** What a record is worth to the report *)

(** [e.get("project", "(unknown)")] *)
Definition project_of (e : entry) : string :=
  default "(unknown)" (project e).

(** The two instants lines 411-412 read from a record; [None] when the
    record is skipped or cannot be read. *)
Definition entry_times (now : datetime) (e : entry)
  : option (datetime * datetime) :=
  if negb (truthy (start e)) then None
  else
    s ← fromisoformat (default EmptyString (start e));
    en ← (if truthy (end_ e) then fromisoformat (default EmptyString (end_ e))
          else Some now);
    Some (s, en).

(** The length of the part of the record's interval inside the window. *)
Definition entry_overlap (now lo hi : datetime) (e : entry) : Z :=
  match entry_times now e with
  | Some (s, en) => Z.max 0 (Z.min en hi - Z.max s lo)
  | None => 0
  end.

(** The overlaps of the records of project [p], added up. *)
Definition overlap_sum (p : string) (now lo hi : datetime) (data : list entry)
  : Z :=
  fold_right
    (fun e acc =>
       (if decide (project_of e = p) then entry_overlap now lo hi e else 0) + acc)
    0 data.

(** [sum(projects.values(), timedelta())] (lines 468, 481). *)
Definition dict_sum (m : gmap string Z) : Z :=
  map_fold (fun _ v acc => acc + v) 0 m.

(** The day totals of the report, added up over all days. *)
Definition grand_total (pd : gmap string (gmap string Z)) : Z :=
  map_fold (fun _ day acc => acc + dict_sum day) 0 pd.

(** Every cell holds a positive duration and no day is empty. *)
Definition all_positive (st : totals) : Prop :=
  (forall k day, per_day_totals st !! k = Some day ->
     day <> ∅ /\ forall p v, day !! p = Some v -> 0 < v)
  /\ (forall p v, monthly_project_totals st !! p = Some v -> 0 < v).

(** Every day key is the text of a day of the window. *)
Definition keys_in_window (lo hi : datetime) (st : totals) : Prop :=
  forall k, is_Some (per_day_totals st !! k) ->
    exists d, In d (month_days lo hi) /\ k = date_isoformat d.

(** ** The weekly listing of [cmd_report] (lines 456-474) *)

(** [day_key in per_day_totals] *)
Definition has_time (pd : gmap string (gmap string Z)) (d : date) : bool :=
  bool_decide (is_Some (pd !! date_isoformat d)).

(** The days of a week that get a line: those with time filed under
    them. *)
Definition shown_days (pd : gmap string (gmap string Z)) (wdays : list date)
  : list date :=
  filter (fun d => has_time pd d = true) wdays.

(** The weeks with the days shown under each; a week without any shows
    "(no time)". *)
Definition weekly_listing (pd : gmap string (gmap string Z))
    (weeks : list ((Z * Z) * list date)) : list ((Z * Z) * list date) :=
  map (fun b => (fst b, shown_days pd (snd b))) weeks.

(** [day_total] of a shown day (line 468). *)
Definition day_total (pd : gmap string (gmap string Z)) (d : date) : Z :=
  dict_sum (default ∅ (pd !! date_isoformat d)).

(** The day totals printed in the listing, added up. *)
Definition listing_total (pd : gmap string (gmap string Z))
    (listing : list ((Z * Z) * list date)) : Z :=
  fold_right (fun d acc => day_total pd d + acc) 0 (concat (map snd listing)).

(** * Properties *)

(** ** Strings *)

Section StringFacts.

Local Arguments String.append !_ _ / : simpl nomatch.

Lemma append_nil_r s : s +:+ EmptyString = s.
Proof. induction s as [|ch r IH]; simpl; [reflexivity | now rewrite IH]. Qed.

Lemma append_assoc (a b c : string) : (a +:+ b) +:+ c = a +:+ (b +:+ c).
Proof. induction a as [|ch r IH]; simpl; [reflexivity | now rewrite IH]. Qed.

Lemma rev_onto_app s acc : Str.rev_onto s acc = Str.rev s +:+ acc.
Proof.
  unfold Str.rev. revert acc.
  induction s as [|ch r IH]; intros acc; simpl; [reflexivity|].
  rewrite (IH (String ch acc)), (IH (String ch EmptyString)), append_assoc.
  reflexivity.
Qed.

Lemma rev_onto_snoc s ch acc :
  Str.rev_onto (s +:+ String ch EmptyString) acc = String ch (Str.rev_onto s acc).
Proof.
  revert acc. induction s as [|c r IH]; intros acc; simpl; [reflexivity|].
  apply IH.
Qed.

Lemma rev_involutive s : Str.rev (Str.rev s) = s.
Proof.
  unfold Str.rev at 2.
  induction s as [|ch r IH]; simpl; [reflexivity|].
  rewrite rev_onto_app. unfold Str.rev at 1. rewrite rev_onto_snoc.
  f_equal. exact IH.
Qed.

Lemma lstrip_id s : head_not_space s = true -> Str.lstrip s = s.
Proof.
  destruct s as [|ch r]; simpl; [reflexivity|].
  destruct (Str.isspace ch); [discriminate | reflexivity].
Qed.

(** A text that neither starts nor ends with white space is its own
    [strip]. *)
Lemma strip_id s :
  head_not_space s = true -> head_not_space (Str.rev s) = true ->
  Str.strip s = s.
Proof.
  intros Hh Hl. unfold Str.strip, Str.rstrip.
  rewrite (lstrip_id s Hh), (lstrip_id _ Hl). apply rev_involutive.
Qed.

Lemma all_stable_app a b :
  all_stable (a +:+ b) = all_stable a && all_stable b.
Proof.
  induction a as [|ch r IH]; simpl; [reflexivity|].
  rewrite IH. now rewrite andb_assoc.
Qed.

Lemma all_stable_rev_onto s acc :
  all_stable s = true -> all_stable acc = true ->
  all_stable (Str.rev_onto s acc) = true.
Proof.
  revert acc. induction s as [|ch r IH]; intros acc Hs Ha; simpl in *;
    [exact Ha|].
  apply andb_prop in Hs as [Hc Hr]. apply IH; [exact Hr|].
  simpl. now rewrite Hc, Ha.
Qed.

Lemma all_stable_head s : all_stable s = true -> head_not_space s = true.
Proof.
  destruct s as [|ch r]; simpl; [reflexivity|].
  intros H. apply andb_prop in H as [H _]. unfold stable in H.
  now apply andb_prop in H as [H _].
Qed.

Lemma lower_stable s : all_stable s = true -> Str.lower s = s.
Proof.
  induction s as [|ch r IH]; simpl; [reflexivity|].
  intros H. apply andb_prop in H as [Hc Hr]. rewrite (IH Hr).
  unfold stable in Hc. apply andb_prop in Hc as [_ Hc].
  apply Ascii.eqb_eq in Hc. now rewrite Hc.
Qed.

Lemma normalise_stable s :
  all_stable s = true -> Str.lower (Str.strip s) = s.
Proof.
  intros H. rewrite strip_id.
  - now apply lower_stable.
  - now apply all_stable_head.
  - apply all_stable_head. now apply all_stable_rev_onto.
Qed.

Lemma isdigit_stable ch : Str.isdigit ch = true -> stable ch = true.
Proof.
  destruct ch as [[] [] [] [] [] [] [] []]; vm_compute;
    intros H; first [reflexivity | discriminate H].
Qed.

Lemma all_digits_stable s : Str.all_digits s = true -> all_stable s = true.
Proof.
  induction s as [|ch r IH]; simpl; [reflexivity|].
  intros H. apply andb_prop in H as [Hc Hr].
  now rewrite (isdigit_stable _ Hc), (IH Hr).
Qed.

(** The scanner on a run of digits: they are all appended to [num]. *)
Lemma scan_digits d rest st :
  Str.all_digits d = true ->
  scan (d +:+ rest) st
  = scan rest {| total := total st; num := num st +:+ d;
                 had_unit := had_unit st |}.
Proof.
  revert st. induction d as [|ch r IH]; intros st H; simpl in *.
  - rewrite append_nil_r. now destruct st.
  - apply andb_prop in H as [Hc Hr].
    unfold scan_char. rewrite Hc. rewrite (IH _ Hr). simpl.
    now rewrite append_assoc.
Qed.

Lemma is_empty_false s : s <> EmptyString -> Str.is_empty s = false.
Proof. destruct s; [congruence | reflexivity]. Qed.

End StringFacts.

(** ** The duration parser *)

Section ParseDuration.

Local Arguments String.append !_ _ / : simpl nomatch.

Lemma scan_digits_end d st :
  Str.all_digits d = true ->
  scan d st = Ok {| total := total st; num := num st +:+ d;
                    had_unit := had_unit st |}.
Proof.
  intros H. rewrite <- (append_nil_r d) at 1.
  now rewrite (scan_digits d EmptyString st H).
Qed.

Lemma all_digits_app a b :
  Str.all_digits a = true -> Str.all_digits b = true ->
  Str.all_digits (a +:+ b) = true.
Proof.
  intros Ha Hb. induction a as [|ch r IH]; simpl in *; [exact Hb|].
  apply andb_prop in Ha as [Hc Hr]. now rewrite Hc, (IH Hr).
Qed.

Lemma parse_duration_stable s :
  all_stable s = true ->
  parse_duration s
  = match scan s {| total := 0; num := EmptyString; had_unit := false |} with
    | Raise e => Raise e
    | Ok st => finish st
    end.
Proof.
  intros H. unfold parse_duration. now rewrite (normalise_stable s H).
Qed.




End ParseDuration.

(** C6. The test vectors of the duration parser: "1h30m" is 90 minutes,
    "45m" is 45 minutes, "90" is 90 minutes; "3.5" is refused by
    [parse_duration] and accepted by the plain-hours branch of [cmd_log]
    as 210 minutes; "0", "h30m" and "1x" are refused. *)
Theorem parse_duration_vectors :
  parse_duration "1h30m" = Ok (minutes 90)
  /\ parse_duration "45m" = Ok (minutes 45)
  /\ parse_duration "90" = Ok (minutes 90)
  /\ parse_duration "3.5" = Raise (UnsupportedCharacter ".")
  /\ log_duration "3.5" = Ok (minutes 210)
  /\ parse_duration "0" = Raise DurationNotPositive
  /\ parse_duration "h30m" = Raise MissingNumberBeforeUnit
  /\ parse_duration "1x" = Raise (UnsupportedCharacter "x").
Proof. repeat split; vm_compute; reflexivity. Qed.






(** ** Midnights and dates *)

Section DayArithmetic.

Lemma US_PER_DAY_pos : 0 < US_PER_DAY.
Proof. reflexivity. Qed.

Lemma date_of_combine d : date_of (combine_midnight d) = d.
Proof.
  unfold date_of, combine_midnight. apply Z.div_mul.
  pose proof US_PER_DAY_pos. lia.
Qed.

Lemma midnight_le dt : combine_midnight (date_of dt) <= dt.
Proof.
  unfold date_of, combine_midnight. rewrite Z.mul_comm.
  apply Z.mul_div_le. exact US_PER_DAY_pos.
Qed.

Lemma next_midnight_gt dt : dt < combine_midnight (date_of dt + 1).
Proof.
  unfold date_of, combine_midnight. rewrite Z.mul_comm.
  apply Z.mul_succ_div_gt. exact US_PER_DAY_pos.
Qed.

Lemma date_of_mono a b : a <= b -> date_of a <= date_of b.
Proof. apply Z.div_le_mono. exact US_PER_DAY_pos. Qed.

Lemma date_of_within d x :
  combine_midnight d <= x -> x < combine_midnight (d + 1) -> date_of x = d.
Proof.
  intros Hlo Hhi. unfold date_of, combine_midnight in *.
  symmetry. apply (Z.div_unique_pos x US_PER_DAY d (x - d * US_PER_DAY)); lia.
Qed.

Lemma day_span_next dt : day_span dt = combine_midnight (date_of dt + 1).
Proof.
  unfold day_span, replace_midnight. f_equal. unfold date_of.
  replace (dt + US_PER_DAY) with (dt + 1 * US_PER_DAY) by lia.
  apply Z.div_add. pose proof US_PER_DAY_pos. lia.
Qed.

Lemma day_span_gt dt : dt < day_span dt.
Proof. rewrite day_span_next. apply next_midnight_gt. Qed.

Lemma combine_midnight_lt a b : a < b -> combine_midnight a < combine_midnight b.
Proof.
  unfold combine_midnight. intros H.
  apply Z.mul_lt_mono_pos_r; [exact US_PER_DAY_pos | exact H].
Qed.

Lemma combine_midnight_le a b : a <= b -> combine_midnight a <= combine_midnight b.
Proof.
  unfold combine_midnight. intros H.
  apply Z.mul_le_mono_nonneg_r; [pose proof US_PER_DAY_pos; lia | exact H].
Qed.

End DayArithmetic.

(** ** The splitting loop *)

Section Splitting.

Lemma within_one_day_intro cs e :
  cs < e -> e <= day_span cs ->
  within_one_day {| seg_day := date_isoformat (date_of cs);
                    seg_start := cs; seg_end := e |}.
Proof.
  intros Hlt Hle. unfold within_one_day. simpl.
  repeat split; try assumption.
  rewrite day_span_next in Hle.
  apply date_of_within; [pose proof (midnight_le cs); lia | lia].
Qed.

(** The trace of the loop, for any bound that covers the days touched. *)
Lemma split_segments_sound fuel : forall cs ce,
  cs <= ce ->
  (cs < ce -> date_of ce - date_of cs + 1 <= Z.of_nat fuel) ->
  chained cs (split_segments fuel cs ce) ce
  /\ Forall within_one_day (split_segments fuel cs ce).
Proof.
  induction fuel as [|fuel IH]; intros cs ce Hle Hfuel.
  - simpl. split; [|constructor].
    destruct (Z.eq_dec cs ce) as [E|N]; [exact E|].
    assert (Hlt : cs < ce) by lia. specialize (Hfuel Hlt).
    pose proof (date_of_mono cs ce Hle). simpl in Hfuel. lia.
  - simpl. destruct (Z.ltb_spec cs ce) as [Hlt|Hge].
    + specialize (Hfuel Hlt).
      pose proof (day_span_gt cs) as Hnm.
      set (se := Z.min ce (day_span cs)).
      assert (Hse : cs < se /\ se <= ce /\ se <= day_span cs)
        by (unfold se; lia).
      destruct Hse as (H1 & H2 & H3).
      destruct (IH se ce H2) as [Hc Hf].
      { intros Hlt'. assert (E : se = day_span cs) by (unfold se in *; lia).
        rewrite E, day_span_next, date_of_combine. lia. }
      split.
      * simpl. split; [reflexivity | exact Hc].
      * constructor; [|exact Hf]. now apply within_one_day_intro.
    + split; [simpl; lia | constructor].
Qed.

Lemma chained_total from segs to :
  chained from segs to -> total_duration segs = to - from.
Proof.
  revert from. induction segs as [|s rest IH]; intros from H; simpl in *.
  - lia.
  - destruct H as [Hs Hr]. rewrite (IH _ Hr). unfold seg_duration. lia.
Qed.

(** More iterations than the days touched change nothing: the loop has
    left through its guard. *)
Lemma split_segments_stable fuel : forall cs ce extra,
  (cs < ce -> date_of ce - date_of cs + 1 <= Z.of_nat fuel) ->
  split_segments (fuel + extra) cs ce = split_segments fuel cs ce.
Proof.
  induction fuel as [|fuel IH]; intros cs ce extra Hfuel.
  - destruct (Z.ltb_spec cs ce) as [Hlt|Hge].
    + specialize (Hfuel Hlt).
      pose proof (date_of_mono cs ce ltac:(lia)). simpl in Hfuel. lia.
    + destruct extra; simpl; [reflexivity|].
      destruct (Z.ltb_spec cs ce); [lia | reflexivity].
  - simpl. destruct (Z.ltb_spec cs ce) as [Hlt|Hge]; [|reflexivity].
    f_equal. apply IH. intros Hlt'.
    specialize (Hfuel Hlt).
    assert (E : Z.min ce (day_span cs) = day_span cs) by lia.
    rewrite E, day_span_next, date_of_combine. lia.
Qed.

Lemma split_exit_reaches fuel : forall cs ce,
  cs <= ce ->
  (cs < ce -> date_of ce - date_of cs + 1 <= Z.of_nat fuel) ->
  split_exit fuel cs ce = ce.
Proof.
  induction fuel as [|fuel IH]; intros cs ce Hle Hfuel.
  - simpl. destruct (Z.eq_dec cs ce) as [E|N]; [exact E|].
    assert (Hlt : cs < ce) by lia. specialize (Hfuel Hlt).
    pose proof (date_of_mono cs ce Hle). simpl in Hfuel. lia.
  - simpl. destruct (Z.ltb_spec cs ce) as [Hlt|Hge]; [|lia].
    specialize (Hfuel Hlt). pose proof (day_span_gt cs).
    apply IH; [lia|]. intros Hlt'.
    assert (E : Z.min ce (day_span cs) = day_span cs) by lia.
    rewrite E, day_span_next, date_of_combine. lia.
Qed.

(** The loop with its totals is the fold of [add_segment] over its trace. *)
Lemma split_loop_trace fuel proj : forall cs ce st,
  split_loop fuel proj cs ce st
  = add_segments proj (split_segments fuel cs ce) st.
Proof.
  induction fuel as [|fuel IH]; intros cs ce st; simpl; [reflexivity|].
  destruct (cs <? ce); [|reflexivity].
  rewrite IH. reflexivity.
Qed.

Lemma split_fuel_enough cs ce :
  cs < ce -> date_of ce - date_of cs + 1 <= Z.of_nat (split_fuel cs ce).
Proof.
  intros H. unfold split_fuel.
  pose proof (date_of_mono cs ce ltac:(lia)). lia.
Qed.

Lemma within_one_day_positive s : within_one_day s -> 0 < seg_duration s.
Proof. intros (H & _). unfold seg_duration. lia. Qed.

End Splitting.

(** ** Clamping and splitting an interval *)

Section Clamping.

Lemma clamp_interval_some a b lo hi cs ce :
  clamp_interval a b lo hi = Some (cs, ce) ->
  cs = Z.max a lo /\ ce = Z.min b hi /\ cs < ce.
Proof.
  unfold clamp_interval.
  destruct (Z.leb_spec (Z.min b hi) (Z.max a lo)) as [H|H]; [discriminate|].
  intros E. injection E as <- <-. repeat split. exact H.
Qed.

Lemma clamp_interval_none a b lo hi :
  Z.min b hi <= Z.max a lo -> clamp_interval a b lo hi = None.
Proof.
  intros H. unfold clamp_interval.
  destruct (Z.leb_spec (Z.min b hi) (Z.max a lo)); [reflexivity | lia].
Qed.

Lemma clamp_interval_overlap a b lo hi :
  Z.max a lo < Z.min b hi ->
  clamp_interval a b lo hi = Some (Z.max a lo, Z.min b hi).
Proof.
  intros H. unfold clamp_interval.
  destruct (Z.leb_spec (Z.min b hi) (Z.max a lo)); [lia | reflexivity].
Qed.

Lemma interval_segments_within a b lo hi :
  Forall within_one_day (interval_segments a b lo hi).
Proof.
  unfold interval_segments.
  destruct (clamp_interval a b lo hi) as [[cs ce]|] eqn:E; [|constructor].
  apply clamp_interval_some in E as (_ & _ & Hlt).
  apply split_segments_sound; [lia | intros _; now apply split_fuel_enough].
Qed.

End Clamping.

(** C2. Splitting a clamped interval by day gives a finite chain of
    segments from the clamped start to the clamped end, in chronological
    order: their durations add up to exactly clamped_end - clamped_start,
    each duration is strictly positive, and each segment stays within one
    calendar day.  The loop leaves through its guard, and its totals are
    those of its segments. *)
Theorem split_by_day_sum (a b lo hi cs ce : datetime) :
  clamp_interval a b lo hi = Some (cs, ce) ->
  cs < ce
  /\ interval_segments a b lo hi = split_by_day cs ce
  /\ chained cs (split_by_day cs ce) ce
  /\ total_duration (split_by_day cs ce) = ce - cs
  /\ Forall (fun s => 0 < seg_duration s) (split_by_day cs ce)
  /\ Forall within_one_day (split_by_day cs ce)
  /\ split_exit (split_fuel cs ce) cs ce = ce
  /\ (forall extra,
        split_segments (split_fuel cs ce + extra) cs ce = split_by_day cs ce)
  /\ (forall proj st,
        split_loop (split_fuel cs ce) proj cs ce st
        = add_segments proj (split_by_day cs ce) st).
Proof.
  intros Hc.
  assert (Hi : interval_segments a b lo hi = split_by_day cs ce)
    by (unfold interval_segments; now rewrite Hc).
  apply clamp_interval_some in Hc as (_ & _ & Hlt).
  assert (Hle : cs <= ce) by lia.
  pose proof (fun _ : cs < ce => split_fuel_enough cs ce Hlt) as Hfuel.
  destruct (split_segments_sound _ cs ce Hle Hfuel) as [Hch Hday].
  split; [exact Hlt|]. split; [exact Hi|]. split; [exact Hch|].
  split; [now apply chained_total|].
  split.
  { eapply List.Forall_impl; [|exact Hday].
    intros s Hs. now apply within_one_day_positive. }
  split; [exact Hday|].
  split; [now apply split_exit_reaches|].
  split.
  - intros extra. now apply split_segments_stable.
  - intros proj st. apply split_loop_trace.
Qed.

Lemma split_by_day_sum_witness :
  0 < 90 * US_PER_MINUTE
  /\ total_duration (split_by_day (1410 * US_PER_MINUTE) (1500 * US_PER_MINUTE))
     = 1500 * US_PER_MINUTE - 1410 * US_PER_MINUTE.
Proof.
  split; [reflexivity|].
  apply (split_by_day_sum (1410 * US_PER_MINUTE) (1500 * US_PER_MINUTE)
           0 (31 * US_PER_DAY) (1410 * US_PER_MINUTE) (1500 * US_PER_MINUTE)).
  reflexivity.
Defined.

(** C3. With effective_end the end of the interval when it has one and
    the evaluation instant otherwise, [clamp_interval] returns
    (max(start, window_start), min(effective_end, window_end)) when the
    minimum exceeds the maximum, and no overlap otherwise; an interval
    that lies entirely before or entirely after the window yields no
    segment. *)
Theorem clamp_interval_spec (start_ : datetime) (end_opt : option datetime)
    (now lo hi : datetime) :
  effective_end now end_opt = match end_opt with Some e => e | None => now end
  /\ (Z.max start_ lo < Z.min (effective_end now end_opt) hi ->
      clamp_interval start_ (effective_end now end_opt) lo hi
      = Some (Z.max start_ lo, Z.min (effective_end now end_opt) hi))
  /\ (Z.min (effective_end now end_opt) hi <= Z.max start_ lo ->
      clamp_interval start_ (effective_end now end_opt) lo hi = None)
  /\ (effective_end now end_opt <= lo \/ hi <= start_ ->
      interval_segments start_ (effective_end now end_opt) lo hi = []).
Proof.
  split; [now destruct end_opt|].
  split; [apply clamp_interval_overlap|].
  split; [apply clamp_interval_none|].
  intros H. unfold interval_segments.
  rewrite clamp_interval_none; [reflexivity | lia].
Qed.

Lemma clamp_interval_spec_witness :
  clamp_interval 5 (effective_end 20 None) 10 30 = Some (10, 20)
  /\ clamp_interval 5 (effective_end 20 (Some 8)) 10 30 = None
  /\ interval_segments 5 (effective_end 20 (Some 8)) 10 30 = []
  /\ interval_segments 40 (effective_end 20 (Some 50)) 10 30 = [].
Proof.
  split; [|split; [|split]].
  - apply (proj1 (proj2 (clamp_interval_spec 5 None 20 10 30))). reflexivity.
  - apply (proj1 (proj2 (proj2 (clamp_interval_spec 5 (Some 8) 20 10 30)))).
    vm_compute. discriminate.
  - apply (proj2 (proj2 (proj2 (clamp_interval_spec 5 (Some 8) 20 10 30)))).
    left. vm_compute. discriminate.
  - apply (proj2 (proj2 (proj2 (clamp_interval_spec 40 (Some 50) 20 10 30)))).
    right. vm_compute. discriminate.
Defined.

(** ** The aggregation *)

Section Aggregation.

Implicit Types (m : gmap string Z) (pd : gmap string (gmap string Z)).
Implicit Types (st : totals) (p proj k : string).

Lemma accumulate_comm p1 d1 p2 d2 m :
  accumulate p1 d1 (accumulate p2 d2 m) = accumulate p2 d2 (accumulate p1 d1 m).
Proof.
  unfold accumulate. destruct (decide (p1 = p2)) as [->|Hne].
  - rewrite !lookup_insert_eq, !insert_insert_eq. simpl. f_equal. lia.
  - rewrite (lookup_insert_ne _ p2 p1) by congruence.
    rewrite (lookup_insert_ne _ p1 p2) by congruence.
    now apply insert_insert_ne.
Qed.

Lemma month_total_accumulate p proj dur m :
  month_total p (accumulate proj dur m)
  = month_total p m + (if decide (proj = p) then dur else 0).
Proof.
  unfold month_total, accumulate. destruct (decide (proj = p)) as [->|Hne].
  - now rewrite lookup_insert_eq.
  - rewrite lookup_insert_ne by exact Hne. lia.
Qed.

(** The day cell after [setdefault] and the update, in one insertion. *)
Lemma add_segment_per_day k proj dur st :
  per_day_totals (add_segment k proj dur st)
  = <[k := accumulate proj dur (default ∅ (per_day_totals st !! k))]>
      (per_day_totals st).
Proof.
  unfold add_segment, setdefault_day. simpl.
  destruct (per_day_totals st !! k) as [day|] eqn:E.
  - now rewrite E.
  - now rewrite lookup_insert_eq, insert_insert_eq.
Qed.

Lemma totals_eq st1 st2 :
  per_day_totals st1 = per_day_totals st2 ->
  monthly_project_totals st1 = monthly_project_totals st2 ->
  st1 = st2.
Proof. destruct st1, st2. simpl. now intros -> ->. Qed.

Lemma add_segment_comm k1 p1 d1 k2 p2 d2 st :
  add_segment k1 p1 d1 (add_segment k2 p2 d2 st)
  = add_segment k2 p2 d2 (add_segment k1 p1 d1 st).
Proof.
  apply totals_eq.
  - rewrite !add_segment_per_day.
    destruct (decide (k1 = k2)) as [->|Hne].
    + rewrite !lookup_insert_eq, !insert_insert_eq. simpl.
      f_equal. apply accumulate_comm.
    + rewrite (lookup_insert_ne _ k2 k1) by congruence.
      rewrite (lookup_insert_ne _ k1 k2) by congruence.
      now apply insert_insert_ne.
  - simpl. apply accumulate_comm.
Qed.

Lemma add_segments_cons proj s segs st :
  add_segments proj (s :: segs) st
  = add_segments proj segs (add_segment (seg_day s) proj (seg_duration s) st).
Proof. reflexivity. Qed.

Lemma add_segments_one_comm k p d proj segs : forall st,
  add_segment k p d (add_segments proj segs st)
  = add_segments proj segs (add_segment k p d st).
Proof.
  induction segs as [|s rest IH]; intros st; [reflexivity|].
  rewrite !add_segments_cons, IH. f_equal. apply add_segment_comm.
Qed.

Lemma add_segments_comm p1 segs1 p2 segs2 : forall st,
  add_segments p1 segs1 (add_segments p2 segs2 st)
  = add_segments p2 segs2 (add_segments p1 segs1 st).
Proof.
  induction segs1 as [|s rest IH]; intros st; [reflexivity|].
  rewrite !add_segments_cons, <- IH. f_equal.
  apply add_segments_one_comm.
Qed.

(** A record acts on the totals through its segments alone. *)
Lemma process_entry_segments now lo hi e st :
  process_entry now lo hi e st
  = (fun segs => add_segments (default "(unknown)" (project e)) segs st)
      <$> entry_segments now lo hi e.
Proof.
  unfold process_entry, entry_segments.
  destruct (negb (truthy (start e))); [reflexivity|].
  destruct (fromisoformat (default EmptyString (start e))) as [s|];
    [|reflexivity]. simpl.
  destruct (if truthy (end_ e) then fromisoformat (default EmptyString (end_ e))
            else Some now) as [en|]; [|reflexivity]. simpl.
  unfold interval_segments.
  destruct (clamp_interval s en lo hi) as [[cs ce]|]; [|reflexivity].
  now rewrite split_loop_trace.
Qed.

Lemma process_entry_comm now lo hi e1 e2 st :
  process_entry now lo hi e1 st ≫= process_entry now lo hi e2
  = process_entry now lo hi e2 st ≫= process_entry now lo hi e1.
Proof.
  rewrite (process_entry_segments now lo hi e1 st).
  rewrite (process_entry_segments now lo hi e2 st).
  destruct (entry_segments now lo hi e1) as [s1|] eqn:E1;
    destruct (entry_segments now lo hi e2) as [s2|] eqn:E2; simpl;
    rewrite ?process_entry_segments, ?E1, ?E2; simpl; try reflexivity.
  f_equal. apply add_segments_comm.
Qed.

Lemma aggregate_from_permutation now lo hi data data' :
  Permutation data data' ->
  forall st, aggregate_from now lo hi data st = aggregate_from now lo hi data' st.
Proof.
  induction 1 as [|e l l' _ IH|e1 e2 l|l1 l2 l3 _ IH1 _ IH2]; intros st.
  - reflexivity.
  - simpl. destruct (process_entry now lo hi e st); simpl; [apply IH | reflexivity].
  - simpl.
    pose proof (process_entry_comm now lo hi e1 e2 st) as Hc.
    destruct (process_entry now lo hi e1 st) as [st1|];
      destruct (process_entry now lo hi e2 st) as [st2|]; simpl in *.
    + now rewrite Hc.
    + now rewrite Hc.
    + now rewrite <- Hc.
    + reflexivity.
  - now rewrite IH1.
Qed.

Lemma day_sum_step (p : string) (z1 z2 : gmap string Z) (y : Z) :
  y + default 0 (z2 !! p) + default 0 (z1 !! p)
  = y + default 0 (z1 !! p) + default 0 (z2 !! p).
Proof. lia. Qed.

Lemma day_sum_insert p k day' pd :
  day_sum p (<[k := day']> pd)
  = day_sum p pd - month_total p (default ∅ (pd !! k)) + month_total p day'.
Proof.
  unfold day_sum, month_total.
  destruct (pd !! k) as [old|] eqn:E.
  - rewrite <- (insert_delete_eq pd k day').
    rewrite (map_fold_insert_L _ 0 k day' (delete k pd));
      [|intros; apply day_sum_step | apply lookup_delete_eq].
    rewrite (map_fold_delete_L _ 0 k old pd);
      [|intros; apply day_sum_step | exact E].
    simpl. lia.
  - rewrite (map_fold_insert_L _ 0 k day' pd);
      [|intros; apply day_sum_step | exact E].
    simpl. rewrite lookup_empty. simpl. lia.
Qed.

Lemma day_sum_add_segment p k proj dur st :
  day_sum p (per_day_totals (add_segment k proj dur st))
  = day_sum p (per_day_totals st) + (if decide (proj = p) then dur else 0).
Proof.
  rewrite add_segment_per_day, day_sum_insert, month_total_accumulate. lia.
Qed.

Lemma tracked_add_segment p k proj dur st :
  tracked p (per_day_totals (add_segment k proj dur st))
  <-> proj = p \/ tracked p (per_day_totals st).
Proof.
  rewrite add_segment_per_day. unfold tracked, accumulate. split.
  - intros (k0 & day & Hk & Hp).
    destruct (decide (proj = p)) as [->|Hne]; [now left | right].
    destruct (decide (k = k0)) as [->|Hk0].
    + rewrite lookup_insert_eq in Hk. injection Hk as <-.
      rewrite lookup_insert_ne in Hp by exact Hne.
      destruct (per_day_totals st !! k0) as [old|] eqn:E; simpl in Hp.
      * exists k0, old. now split.
      * rewrite lookup_empty in Hp. now destruct Hp.
    + rewrite lookup_insert_ne in Hk by exact Hk0. now exists k0, day.
  - intros [->|(k0 & day & Hk & Hp)].
    + eexists k, _. split; [apply lookup_insert_eq|].
      rewrite lookup_insert_eq. now eexists.
    + destruct (decide (k = k0)) as [->|Hk0].
      * eexists k0, _. split; [apply lookup_insert_eq|].
        rewrite Hk. simpl.
        destruct (decide (proj = p)) as [->|Hne];
          [rewrite lookup_insert_eq; now eexists|].
        now rewrite lookup_insert_ne by exact Hne.
      * exists k0, day. split; [|exact Hp].
        now rewrite lookup_insert_ne by exact Hk0.
Qed.

Lemma balanced_empty : balanced no_totals.
Proof.
  intros p. unfold day_sum, month_total, tracked. simpl. split.
  - now rewrite map_fold_empty, lookup_empty.
  - rewrite lookup_empty. split.
    + intros [x Hx]; discriminate.
    + intros (k & day & Hk & _). rewrite lookup_empty in Hk. discriminate.
Qed.

Lemma balanced_add_segment k proj dur st :
  balanced st -> balanced (add_segment k proj dur st).
Proof.
  intros Hb p. destruct (Hb p) as [Hsum Hdom]. split.
  - rewrite day_sum_add_segment, Hsum. simpl.
    now rewrite month_total_accumulate.
  - rewrite tracked_add_segment, <- Hdom. simpl. unfold accumulate.
    destruct (decide (proj = p)) as [->|Hne].
    + rewrite lookup_insert_eq. split; [now left | now eexists].
    + rewrite lookup_insert_ne by exact Hne. tauto.
Qed.

Lemma balanced_add_segments proj segs : forall st,
  balanced st -> balanced (add_segments proj segs st).
Proof.
  induction segs as [|s rest IH]; intros st Hb; [exact Hb|].
  rewrite add_segments_cons. apply IH. now apply balanced_add_segment.
Qed.

Lemma balanced_process_entry now lo hi e st st' :
  balanced st -> process_entry now lo hi e st = Some st' -> balanced st'.
Proof.
  intros Hb. rewrite process_entry_segments.
  destruct (entry_segments now lo hi e) as [segs|]; simpl; [|discriminate].
  intros E. injection E as <-. now apply balanced_add_segments.
Qed.

Lemma balanced_aggregate_from now lo hi data : forall st st',
  balanced st -> aggregate_from now lo hi data st = Some st' -> balanced st'.
Proof.
  induction data as [|e rest IH]; intros st st' Hb; simpl.
  - intros E. injection E as <-. exact Hb.
  - destruct (process_entry now lo hi e st) as [st1|] eqn:E1; simpl;
      [|discriminate].
    apply IH. now apply (balanced_process_entry now lo hi e st st1).
Qed.

(** A record without a start leaves the totals as they are. *)
Lemma process_entry_no_start now lo hi e st :
  truthy (start e) = false -> process_entry now lo hi e st = Some st.
Proof. intros H. unfold process_entry. now rewrite H. Qed.

Lemma aggregate_from_skip now lo hi e before after : forall st,
  truthy (start e) = false ->
  aggregate_from now lo hi (before ++ e :: after) st
  = aggregate_from now lo hi (before ++ after) st.
Proof.
  induction before as [|b rest IH]; intros st H; simpl.
  - now rewrite (process_entry_no_start now lo hi e st H).
  - destruct (process_entry now lo hi b st); simpl; [now apply IH | reflexivity].
Qed.

(** A record with a readable start and no end runs until [now]. *)
Lemma process_entry_open now lo hi e s st :
  truthy (start e) = true ->
  fromisoformat (default EmptyString (start e)) = Some s ->
  truthy (end_ e) = false ->
  process_entry now lo hi e st
  = Some (add_segments (default "(unknown)" (project e))
            (interval_segments s now lo hi) st).
Proof.
  intros Hs Hp He. rewrite process_entry_segments. unfold entry_segments.
  rewrite Hs, Hp, He. reflexivity.
Qed.

End Aggregation.

(** C1. The claim holds for a record without a start and fails for a
    record whose start or end is not a timestamp.  Reported on 2024-03-15
    10:00, the ledger of two sound records gives two hours for alpha and
    45 minutes for beta, and still does with a record without a start in
    front; with a record whose start is "yesterday" in front, or one whose
    end is "11 o'clock" behind, the aggregation raises and the sound
    records are lost with it. *)
Theorem unparsable_timestamp_blocks_report :
  report_totals sample_now (bad_start_entry :: sample_ledger) = None
  /\ report_totals sample_now (sample_ledger ++ [bad_end_entry]) = None
  /\ report_totals sample_now sample_ledger
     = Some {| per_day_totals :=
                 {[ "2024-03-01" :=
                      {[ "alpha" := minutes 120; "beta" := minutes 45 ]} ]};
               monthly_project_totals :=
                 {[ "alpha" := minutes 120; "beta" := minutes 45 ]} |}
  /\ report_totals sample_now (no_start_entry :: sample_ledger)
     = report_totals sample_now sample_ledger
  /\ process_entry sample_now march_start march_end bad_start_entry no_totals
     = None
  /\ process_entry sample_now march_start march_end bad_end_entry no_totals
     = None.
Proof.
  split; [vm_compute; reflexivity|].
  split; [vm_compute; reflexivity|].
  split; [vm_compute; reflexivity|].
  split; [vm_compute; reflexivity|].
  split; vm_compute; reflexivity.
Qed.

(** The part of the promise that the code keeps.  A ledger record whose
    start timestamp is missing (absent, null or empty) is skipped by the
    aggregation without raising: the totals are left as they were, and the
    outcome for the whole ledger is the one of the ledger without that
    record.  A record with a readable start and no end is no malformed
    record: it is aggregated as running until the evaluation instant. *)
Theorem missing_start_skipped (now lo hi : datetime) (before after : list entry)
    (e o : entry) (s : datetime) :
  truthy (start e) = false ->
  truthy (start o) = true ->
  fromisoformat (default EmptyString (start o)) = Some s ->
  truthy (end_ o) = false ->
  (forall st, process_entry now lo hi e st = Some st)
  /\ aggregate now lo hi (before ++ e :: after)
     = aggregate now lo hi (before ++ after)
  /\ (forall st,
        process_entry now lo hi o st
        = Some (add_segments (default "(unknown)" (project o))
                  (interval_segments s (effective_end now None) lo hi) st)).
Proof.
  intros He Hs Hp Ho. split; [|split].
  - intros st. now apply process_entry_no_start.
  - unfold aggregate. now apply aggregate_from_skip.
  - intros st. now apply process_entry_open.
Qed.

Lemma missing_start_skipped_witness :
  aggregate sample_now march_start march_end
    ([] ++ no_start_entry :: sample_ledger)
  = aggregate sample_now march_start march_end
      ([] ++ sample_ledger).
Proof.
  refine (proj1 (proj2 (missing_start_skipped sample_now march_start
                          march_end [] sample_ledger no_start_entry
                          open_entry open_start _ _ _ _))).
  - reflexivity.
  - reflexivity.
  - vm_compute. reflexivity.
  - reflexivity.
Defined.

(** C4. Once the aggregation has completed, for every project the sum
    over all days of its per-day totals equals its monthly total, and the
    projects with a monthly total are those with a cell in some day. *)
Theorem day_month_cross_check (now lo hi : datetime) (data : list entry)
    (t : totals) :
  aggregate now lo hi data = Some t ->
  forall p,
    day_sum p (per_day_totals t) = month_total p (monthly_project_totals t)
    /\ (is_Some (monthly_project_totals t !! p) <-> tracked p (per_day_totals t)).
Proof.
  intros H. apply (balanced_aggregate_from now lo hi data no_totals t).
  - exact balanced_empty.
  - exact H.
Qed.

Lemma day_month_cross_check_witness :
  day_sum "alpha"
    (per_day_totals
       (default no_totals
          (aggregate sample_now march_start march_end
             (open_entry :: sample_ledger))))
  = month_total "alpha"
      (monthly_project_totals
         (default no_totals
            (aggregate sample_now march_start march_end
               (open_entry :: sample_ledger)))).
Proof.
  refine (proj1 (day_month_cross_check sample_now march_start
                   march_end (open_entry :: sample_ledger) _ _ "alpha")).
  vm_compute. reflexivity.
Defined.

(** C5. Aggregating a permutation of a ledger over the same window gives
    the same outcome: the same [per_day_totals] and the same
    [monthly_project_totals]. *)
Theorem aggregation_commutes (now lo hi : datetime) (data data' : list entry) :
  Permutation data data' ->
  aggregate now lo hi data' = aggregate now lo hi data
  /\ (forall t t',
        aggregate now lo hi data = Some t ->
        aggregate now lo hi data' = Some t' ->
        per_day_totals t' = per_day_totals t
        /\ monthly_project_totals t' = monthly_project_totals t).
Proof.
  intros Hp.
  assert (E : aggregate now lo hi data' = aggregate now lo hi data).
  { unfold aggregate. symmetry. now apply aggregate_from_permutation. }
  split; [exact E|].
  intros t t' Ht Ht'. rewrite E, Ht in Ht'. injection Ht' as <-. now split.
Qed.

Lemma aggregation_commutes_witness :
  aggregate sample_now march_start march_end
    [open_entry; bad_start_entry; no_start_entry]
  = aggregate sample_now march_start march_end
      [bad_start_entry; open_entry; no_start_entry]
  /\ aggregate sample_now march_start march_end
       (rev sample_ledger)
     = aggregate sample_now march_start march_end sample_ledger.
Proof.
  split.
  - apply (aggregation_commutes sample_now march_start march_end
             [bad_start_entry; open_entry; no_start_entry]
             [open_entry; bad_start_entry; no_start_entry]).
    apply perm_swap.
  - apply (aggregation_commutes sample_now march_start march_end
             sample_ledger (rev sample_ledger)).
    apply perm_swap.
Defined.

(** ** The calendar grouping *)

Section Grouping.

Implicit Types (weeks : list ((Z * Z) * list Z)) (key : Z * Z).

Lemma key_eqb_eq (a b : Z * Z) : key_eqb a b = true <-> a = b.
Proof.
  destruct a as [a1 a2], b as [b1 b2]. unfold key_eqb. simpl.
  rewrite andb_true_iff, !Z.eqb_eq. split.
  - now intros [-> ->].
  - intros E. injection E as -> ->. now split.
Qed.

Lemma key_eqb_refl key : key_eqb key key = true.
Proof. now apply key_eqb_eq. Qed.

Lemma has_key_in key weeks :
  has_key key weeks = true <-> In key (map fst weeks).
Proof.
  induction weeks as [|[k ds] rest IH]; simpl.
  - split; [discriminate | tauto].
  - rewrite orb_true_iff, key_eqb_eq, IH. tauto.
Qed.

Lemma has_key_not_in key weeks :
  has_key key weeks = false -> ~ In key (map fst weeks).
Proof.
  intros H Hin. apply has_key_in in Hin. congruence.
Qed.

Lemma sorted_snoc (l : list Z) (d : Z) :
  StronglySorted Z.lt l -> Forall (fun x => x < d) l ->
  StronglySorted Z.lt (l ++ [d]).
Proof.
  induction l as [|x rest IH]; intros Hs Hb; simpl.
  - constructor; constructor.
  - inversion Hs as [|? ? Hrest Hx]; subst.
    inversion Hb as [|? ? Hxd Hbrest]; subst.
    constructor; [now apply IH|].
    apply List.Forall_app. split; [exact Hx|].
    constructor; [exact Hxd | constructor].
Qed.

Lemma bucket_ok_weaken bound bound' b :
  bound <= bound' -> bucket_ok bound b -> bucket_ok bound' b.
Proof.
  intros Hle (Hne & Hs & Hall). repeat split; try assumption.
  eapply List.Forall_impl; [|exact Hall].
  intros d [Hd Hk]. split; [lia | exact Hk].
Qed.

Lemma bucket_ok_append bound d k ds :
  bound <= d -> week_key d = k ->
  bucket_ok bound (k, ds) -> bucket_ok (d + 1) (k, ds ++ [d]).
Proof.
  intros Hle Hk (Hne & Hs & Hall). simpl in *. repeat split; simpl.
  - destruct ds; discriminate.
  - apply sorted_snoc; [exact Hs|].
    eapply List.Forall_impl; [|exact Hall]. intros x [Hx _]. lia.
  - apply List.Forall_app. split.
    + eapply List.Forall_impl; [|exact Hall].
      intros x [Hx Hkx]. split; [lia | exact Hkx].
    + constructor; [|constructor]. split; [lia | exact Hk].
Qed.

Lemma append_day_keys key d weeks :
  map fst (append_day key d weeks) = map fst weeks.
Proof.
  induction weeks as [|[k ds] rest IH]; simpl; [reflexivity|].
  destruct (key_eqb k key); simpl; [reflexivity | now rewrite IH].
Qed.

Lemma append_day_first key d weeks :
  Forall (fun b => snd b <> []) weeks ->
  map first_day (append_day key d weeks) = map first_day weeks.
Proof.
  induction weeks as [|[k ds] rest IH]; intros H; simpl; [reflexivity|].
  inversion H as [|? ? Hne Hrest]; subst. simpl in Hne.
  destruct (key_eqb k key); simpl.
  - f_equal. unfold first_day. simpl. destruct ds; [congruence | reflexivity].
  - now rewrite IH.
Qed.

Lemma append_day_buckets bound key d weeks :
  bound <= d -> week_key d = key ->
  Forall (bucket_ok bound) weeks ->
  Forall (bucket_ok (d + 1)) (append_day key d weeks).
Proof.
  intros Hle <-. induction weeks as [|[k ds] rest IH]; intros H; simpl;
    [constructor|].
  inversion H as [|? ? Hb Hrest]; subst.
  destruct (key_eqb k (week_key d)) eqn:E.
  - constructor.
    + apply key_eqb_eq in E. subst k. now apply (bucket_ok_append bound).
    + eapply List.Forall_impl; [|exact Hrest].
      intros b. apply bucket_ok_weaken. lia.
  - constructor; [|now apply IH].
    apply (bucket_ok_weaken bound); [lia | exact Hb].
Qed.

Lemma append_day_days key d weeks :
  has_key key weeks = true ->
  Permutation (concat (map snd (append_day key d weeks)))
              (concat (map snd weeks) ++ [d]).
Proof.
  induction weeks as [|[k ds] rest IH]; simpl; [discriminate|].
  destruct (key_eqb k key) eqn:E; simpl.
  - intros _. rewrite <- !app_assoc.
    apply Permutation_app_head. apply Permutation_app_comm.
  - intros H. rewrite <- app_assoc.
    apply Permutation_app_head. now apply IH.
Qed.

Lemma append_day_new key d weeks :
  has_key key weeks = false ->
  append_day key d (weeks ++ [(key, [])]) = weeks ++ [(key, [d])].
Proof.
  induction weeks as [|[k ds] rest IH]; simpl.
  - intros _. now rewrite key_eqb_refl.
  - intros H. apply orb_false_elim in H as [Hk Hrest].
    rewrite Hk. now rewrite IH.
Qed.

Lemma first_day_below bound weeks :
  Forall (bucket_ok bound) weeks ->
  Forall (fun x => x < bound) (map first_day weeks).
Proof.
  induction 1 as [|[k ds] rest (Hne & _ & Hall) _ IH]; simpl; constructor;
    [|exact IH].
  unfold first_day. simpl in *. destruct ds as [|x ds']; [congruence|].
  inversion Hall as [|? ? [Hx _] _]; subst. exact Hx.
Qed.

(** One day more, not earlier than [bound], keeps the buckets sound. *)
Lemma group_step_ok bound done weeks d :
  bound <= d ->
  weeks_ok bound done weeks ->
  weeks_ok (d + 1) (done ++ [d]) (group_step weeks d).
Proof.
  intros Hle (Hb & Hf & Hk & Hp). unfold group_step.
  destruct (has_key (week_key d) weeks) eqn:E.
  - repeat split.
    + now apply (append_day_buckets bound).
    + rewrite append_day_first; [exact Hf|].
      eapply List.Forall_impl; [|exact Hb]. now intros b (Hne & _).
    + now rewrite append_day_keys.
    + rewrite append_day_days by exact E.
      now apply Permutation_app_tail.
  - rewrite append_day_new by exact E. repeat split.
    + apply List.Forall_app. split.
      * eapply List.Forall_impl; [|exact Hb].
        intros b. apply bucket_ok_weaken. lia.
      * constructor; [|constructor]. repeat split; simpl.
        -- discriminate.
        -- constructor; [constructor | constructor].
        -- constructor; [|constructor]. split; [lia | reflexivity].
    + rewrite map_app. simpl. apply sorted_snoc; [exact Hf|].
      eapply List.Forall_impl; [|exact (first_day_below bound weeks Hb)].
      intros x Hx. unfold first_day. simpl in *. lia.
    + rewrite map_app. simpl.
      apply NoDup_ListNoDup. apply NoDup_ListNoDup in Hk.
      apply List.NoDup_rev in Hk.
      rewrite <- (List.rev_involutive (map fst weeks ++ [week_key d])).
      apply List.NoDup_rev. rewrite List.rev_app_distr. simpl.
      constructor; [|exact Hk].
      rewrite <- List.in_rev. now apply has_key_not_in.
    + rewrite map_app, concat_app. simpl.
      now apply Permutation_app_tail.
Qed.

Lemma group_fold_ok days : forall bound done weeks,
  StronglySorted Z.lt days ->
  Forall (fun d => bound <= d) days ->
  weeks_ok bound done weeks ->
  exists bound', weeks_ok bound' (done ++ days) (fold_left group_step days weeks).
Proof.
  induction days as [|d rest IH]; intros bound done weeks Hs Hb Hok; simpl.
  - exists bound. now rewrite app_nil_r.
  - inversion Hs as [|? ? Hrest Hd]; subst.
    inversion Hb as [|? ? Hbd _]; subst.
    destruct (IH (d + 1) (done ++ [d]) (group_step weeks d)) as [bound' H].
    + exact Hrest.
    + eapply List.Forall_impl; [|exact Hd]. simpl. intros x Hx. lia.
    + now apply (group_step_ok bound).
    + exists bound'. now rewrite <- app_assoc in H.
Qed.

Lemma weeks_ok_empty bound : weeks_ok bound [] [].
Proof. repeat split; constructor. Qed.

(** The enumeration of the days of the window. *)
Lemma days_loop_sorted fuel : forall dcur hi,
  StronglySorted Z.lt (days_loop fuel dcur hi)
  /\ Forall (fun d => dcur <= d /\ combine_midnight d < hi) (days_loop fuel dcur hi).
Proof.
  induction fuel as [|fuel IH]; intros dcur hi; simpl.
  - split; constructor.
  - destruct (Z.ltb_spec (combine_midnight dcur) hi) as [Hlt|Hge];
      [|split; constructor].
    destruct (IH (dcur + 1) hi) as [Hs Hall]. split.
    + constructor; [exact Hs|].
      eapply List.Forall_impl; [|exact Hall]. simpl. intros x [Hx _]. lia.
    + constructor; [split; [lia | exact Hlt]|].
      eapply List.Forall_impl; [|exact Hall]. simpl.
      intros x [Hx Hh]. split; [lia | exact Hh].
Qed.

Lemma days_loop_complete fuel : forall dcur hi d,
  dcur <= d -> combine_midnight d < hi ->
  d - dcur < Z.of_nat fuel ->
  In d (days_loop fuel dcur hi).
Proof.
  induction fuel as [|fuel IH]; intros dcur hi d Hle Hlt Hf; [simpl in Hf; lia|].
  simpl. destruct (Z.ltb_spec (combine_midnight dcur) hi) as [H|H].
  - destruct (Z.eq_dec dcur d) as [->|Hne]; [now left | right].
    apply IH; lia.
  - pose proof (combine_midnight_le dcur d Hle). lia.
Qed.

Lemma month_days_spec lo hi d :
  In d (month_days lo hi) <-> date_of lo <= d /\ combine_midnight d < hi.
Proof.
  unfold month_days. split.
  - intros H.
    destruct (days_loop_sorted (days_fuel lo hi) (date_of lo) hi) as [_ Hall].
    rewrite List.Forall_forall in Hall. now apply Hall.
  - intros [Hle Hlt]. apply days_loop_complete; [exact Hle | exact Hlt|].
    unfold days_fuel.
    assert (d <= date_of hi).
    { rewrite <- (date_of_combine d). apply date_of_mono. lia. }
    lia.
Qed.

Lemma mk_datetime_midnight y m d x :
  mk_datetime y m d 0 0 0 0 = Some x -> x = combine_midnight (date_of x).
Proof.
  unfold mk_datetime.
  destruct (_ && _); [|discriminate].
  intros E. injection E as <-.
  replace (combine_midnight (ymd2ord y m d) + 0 * US_PER_HOUR
           + 0 * US_PER_MINUTE + 0 * US_PER_SECOND + 0)
    with (combine_midnight (ymd2ord y m d)) by lia.
  now rewrite date_of_combine.
Qed.

Lemma report_window_midnight now lo hi :
  report_window now = Some (lo, hi) -> lo = combine_midnight (date_of lo).
Proof.
  unfold report_window, start_of_month.
  destruct (mk_datetime (year_of (date_of now)) (month_of (date_of now)) 1 0 0 0 0)
    as [ms|] eqn:E; simpl; [|discriminate].
  destruct (end_of_month (date_of now)) as [me|]; simpl; [|discriminate].
  intros H. injection H as <- <-. now apply (mk_datetime_midnight _ _ _ _ E).
Qed.

Lemma midnight_le_iff a d :
  combine_midnight a <= combine_midnight d <-> a <= d.
Proof.
  split; [|apply combine_midnight_le].
  intros H. destruct (Z_lt_le_dec d a) as [Hlt|Hge]; [|exact Hge].
  pose proof (combine_midnight_lt _ _ Hlt). lia.
Qed.

Lemma keyed_unique weeks (b1 b2 : (Z * Z) * list Z) :
  List.NoDup (map fst weeks) -> In b1 weeks -> In b2 weeks ->
  fst b1 = fst b2 -> b1 = b2.
Proof.
  induction weeks as [|b rest IH]; intros Hnd H1 H2 Hk; [destruct H1|].
  simpl in Hnd. inversion Hnd as [|? ? Hnotin Hrest]; subst.
  destruct H1 as [<-|H1], H2 as [<-|H2].
  - reflexivity.
  - exfalso. apply Hnotin. rewrite Hk. now apply List.in_map.
  - exfalso. apply Hnotin. rewrite <- Hk. now apply List.in_map.
  - now apply IH.
Qed.

Lemma sorted_NoDup (l : list Z) : StronglySorted Z.lt l -> List.NoDup l.
Proof.
  induction 1 as [|x rest _ IH Hx]; constructor; [|exact IH].
  intros Hin. rewrite List.Forall_forall in Hx. specialize (Hx x Hin). lia.
Qed.

End Grouping.

(** C9. For the window of a calendar month, the grouping by ISO week
    puts every day of the window in exactly one bucket, the one keyed by
    its ISO week: the buckets together hold each day of the window once and
    nothing else, no key occurs twice, each bucket lists its days in
    ascending date order, and the buckets come in the chronological order
    of their first days. *)
Theorem week_coverage (now month_start month_end : datetime) :
  report_window now = Some (month_start, month_end) ->
  (forall d,
     In d (month_days month_start month_end)
     <-> month_start <= combine_midnight d < month_end)
  /\ (forall d,
        In d (month_days month_start month_end) ->
        exists b,
          In b (group_by_iso_week (month_days month_start month_end))
          /\ In d (snd b)
          /\ fst b = week_key d
          /\ forall b',
               In b' (group_by_iso_week (month_days month_start month_end)) ->
               In d (snd b') -> b' = b)
  /\ Permutation
       (concat (map snd (group_by_iso_week (month_days month_start month_end))))
       (month_days month_start month_end)
  /\ List.NoDup
       (concat (map snd (group_by_iso_week (month_days month_start month_end))))
  /\ List.NoDup
       (map fst (group_by_iso_week (month_days month_start month_end)))
  /\ Forall
       (fun b =>
          snd b <> []
          /\ StronglySorted Z.lt (snd b)
          /\ Forall (fun d => week_key d = fst b) (snd b))
       (group_by_iso_week (month_days month_start month_end))
  /\ StronglySorted Z.lt
       (map first_day (group_by_iso_week (month_days month_start month_end))).
Proof.
  intros Hw. apply report_window_midnight in Hw.
  set (days := month_days month_start month_end).
  destruct (days_loop_sorted (days_fuel month_start month_end)
              (date_of month_start) month_end) as [Hs Hall].
  fold (month_days month_start month_end) in Hs, Hall. fold days in Hs, Hall.
  destruct (group_fold_ok days (date_of month_start) [] []) as [bound Hok].
  - exact Hs.
  - eapply List.Forall_impl; [|exact Hall]. now intros d [Hd _].
  - apply weeks_ok_empty.
  - simpl in Hok. fold (group_by_iso_week days) in Hok.
    destruct Hok as (Hb & Hf & Hk & Hp).
    split.
    { intros d. unfold days. rewrite month_days_spec.
      rewrite Hw at 2. now rewrite midnight_le_iff. }
    assert (Hkey : forall b d,
               In b (group_by_iso_week days) -> In d (snd b) ->
               week_key d = fst b).
    { intros b d Hin Hd. rewrite List.Forall_forall in Hb.
      destruct (Hb b Hin) as (_ & _ & Hall').
      rewrite List.Forall_forall in Hall'. now apply Hall'. }
    split.
    { intros d Hd.
      apply (Permutation_in d (Permutation_sym Hp)) in Hd.
      apply in_concat in Hd as (l & Hl & Hdl).
      apply List.in_map_iff in Hl as (b & <- & Hbin).
      exists b. split; [exact Hbin|]. split; [exact Hdl|].
      split; [symmetry; now apply Hkey|].
      intros b' Hb' Hd'.
      apply (keyed_unique (group_by_iso_week days));
        [now apply NoDup_ListNoDup | exact Hb' | exact Hbin|].
      now rewrite <- (Hkey b d Hbin Hdl), <- (Hkey b' d Hb' Hd'). }
    split; [exact Hp|].
    split.
    { apply NoDup_ListNoDup. rewrite Hp. apply NoDup_ListNoDup.
      now apply sorted_NoDup. }
    split; [now apply NoDup_ListNoDup|].
    split; [|exact Hf].
    eapply List.Forall_impl; [|exact Hb].
    intros b (Hne & Hsb & Hab). repeat split; try assumption.
    eapply List.Forall_impl; [|exact Hab]. now intros d [_ Hd].
Qed.

Lemma week_coverage_witness :
  Permutation
    (concat (map snd (group_by_iso_week
                        (month_days march_start march_end))))
    (month_days march_start march_end).
Proof.
  refine (proj1 (proj2 (proj2 (week_coverage sample_now march_start
                                 march_end _)))).
  vm_compute. reflexivity.
Defined.

(** ** Scenarios *)

Example sample_instants :
  fromisoformat "2024-03-15T10:00:00" = Some sample_now
  /\ fromisoformat "2024-03-01T00:00:00" = Some march_start
  /\ fromisoformat "2024-04-01" = Some march_end
  /\ fromisoformat "2024-03-15 09:00" = Some open_start
  /\ report_window sample_now = Some (march_start, march_end).
Proof. repeat split; vm_compute; reflexivity. Qed.

(** The two sessions of 2024-03-01, reported in March 2024: two hours for
    alpha, 45 minutes for beta, both filed under 2024-03-01. *)
Example end_to_end_scenario :
  report_totals sample_now sample_ledger
  = Some {| per_day_totals :=
              {[ "2024-03-01" := {[ "alpha" := minutes 120; "beta" := minutes 45 ]} ]};
            monthly_project_totals :=
              {[ "alpha" := minutes 120; "beta" := minutes 45 ]} |}.
Proof. vm_compute. reflexivity. Qed.

(** A session without an end, evaluated at 2024-03-15 10:00, is clamped to
    that instant and not to the end of the month. *)
Example ongoing_interval_scenario :
  entry_segments sample_now march_start march_end open_entry
  = Some [ {| seg_day := "2024-03-15"; seg_start := open_start;
              seg_end := sample_now |} ].
Proof. vm_compute. reflexivity. Qed.

(** * Further properties of the code *)

(** ** Decimal rendering *)

Section Decimal.

Local Arguments String.append !_ _ / : simpl nomatch.

Lemma code_digit_char d : 0 <= d < 10 -> Str.code (digit_char d) - 48 = d.
Proof.
  intros H.
  assert (E : d = 0 \/ d = 1 \/ d = 2 \/ d = 3 \/ d = 4 \/ d = 5 \/ d = 6
              \/ d = 7 \/ d = 8 \/ d = 9) by lia.
  repeat (destruct E as [->|E]; [reflexivity|]). now subst.
Qed.

Lemma isdigit_digit_char d : 0 <= d < 10 -> Str.isdigit (digit_char d) = true.
Proof.
  intros H.
  assert (E : d = 0 \/ d = 1 \/ d = 2 \/ d = 3 \/ d = 4 \/ d = 5 \/ d = 6
              \/ d = 7 \/ d = 8 \/ d = 9) by lia.
  repeat (destruct E as [->|E]; [reflexivity|]). now subst.
Qed.

Lemma int_acc_snoc s ch acc :
  Str.int_acc (s +:+ String ch EmptyString) acc
  = 10 * Str.int_acc s acc + (Str.code ch - 48).
Proof.
  revert acc. induction s as [|c r IH]; intros acc; simpl; [reflexivity|].
  apply IH.
Qed.

Lemma int_acc_app a b acc :
  Str.int_acc (a +:+ b) acc = Str.int_acc b (Str.int_acc a acc).
Proof.
  revert acc. induction a as [|c r IH]; intros acc; simpl; [reflexivity|].
  apply IH.
Qed.

Lemma all_digits_snoc s ch :
  Str.all_digits s = true -> Str.isdigit ch = true ->
  Str.all_digits (s +:+ String ch EmptyString) = true.
Proof.
  intros Hs Hc. apply all_digits_app; [exact Hs|]. simpl. now rewrite Hc.
Qed.

Lemma snoc_not_empty s ch : s +:+ String ch EmptyString <> EmptyString.
Proof. destruct s; discriminate. Qed.

Lemma decimal_fuel_sound fuel : forall n,
  0 <= n < 2 ^ Z.of_nat fuel ->
  Str.int (decimal_fuel fuel n) = n
  /\ Str.all_digits (decimal_fuel fuel n) = true
  /\ (0 < n -> decimal_fuel fuel n <> EmptyString).
Proof.
  induction fuel as [|fuel IH]; intros n Hn.
  - simpl in Hn. assert (n = 0) by lia. subst. simpl.
    repeat split. intros; lia.
  - assert (Hd : 0 <= n mod 10 < 10) by (apply Z.mod_pos_bound; lia).
    assert (Hq : 0 <= n / 10) by (apply Z.div_pos; lia).
    assert (Hnq : n = 10 * (n / 10) + n mod 10) by (apply Z.div_mod; lia).
    simpl decimal_fuel.
    destruct (Z.eqb_spec (n / 10) 0) as [E|E].
    + simpl. unfold Str.int. simpl.
      rewrite (code_digit_char _ Hd), (isdigit_digit_char _ Hd).
      repeat split; [lia | discriminate].
    + destruct (IH (n / 10)) as (Hi & Ha & _).
      { split; [exact Hq|].
        rewrite Nat2Z.inj_succ, Z.pow_succ_r in Hn by lia. lia. }
      unfold Str.int in *. rewrite int_acc_snoc, Hi, (code_digit_char _ Hd).
      repeat split.
      * lia.
      * apply all_digits_snoc; [exact Ha | now apply isdigit_digit_char].
      * intros _. apply snoc_not_empty.
Qed.

Lemma decimal_not_empty n : decimal n <> EmptyString.
Proof. unfold decimal. simpl decimal_fuel. apply snoc_not_empty. Qed.

Lemma decimal_sound n :
  0 <= n ->
  Str.int (decimal n) = n /\ Str.all_digits (decimal n) = true.
Proof.
  intros Hn. unfold decimal.
  destruct (decimal_fuel_sound (S (Z.to_nat (Z.log2 n))) n) as (Hi & Ha & _);
    [|now split].
  split; [exact Hn|].
  destruct (Z.eq_dec n 0) as [->|Hne]; [reflexivity|].
  rewrite Nat2Z.inj_succ, Z2Nat.id by apply Z.log2_nonneg.
  apply Z.log2_spec. lia.
Qed.

Lemma format_02d_sound n :
  0 <= n ->
  Str.int (format_02d n) = n
  /\ Str.all_digits (format_02d n) = true
  /\ format_02d n <> EmptyString.
Proof.
  intros Hn. destruct (decimal_sound n Hn) as [Hi Ha].
  unfold format_02d. destruct (Z.ltb_spec n 0) as [H|_]; [lia|].
  destruct (_ <? _)%nat.
  - repeat split; [| |discriminate].
    + unfold Str.int in *. simpl. exact Hi.
    + simpl. exact Ha.
  - repeat split; [exact Hi | exact Ha | apply decimal_not_empty].
Qed.

Lemma format_d_sound n :
  0 <= n ->
  Str.int (format_d n) = n
  /\ Str.all_digits (format_d n) = true
  /\ format_d n <> EmptyString.
Proof.
  intros Hn. destruct (decimal_sound n Hn) as [Hi Ha].
  unfold format_d. destruct (Z.ltb_spec n 0) as [H|_]; [lia|].
  repeat split; [exact Hi | exact Ha | apply decimal_not_empty].
Qed.

(** Two digits exactly below one hundred. *)
Lemma format_02d_two n :
  0 <= n < 100 ->
  format_02d n
  = String (digit_char (n / 10)) (String (digit_char (n mod 10)) EmptyString).
Proof.
  intros Hn. unfold format_02d, decimal.
  destruct (Z.ltb_spec n 0) as [H|_]; [lia|].
  simpl decimal_fuel.
  destruct (Z.eqb_spec (n / 10) 0) as [E|E].
  - rewrite E. reflexivity.
  - assert (Hge : 10 <= n).
    { destruct (Z_lt_le_dec n 10) as [Hlt|Hge]; [|exact Hge].
      rewrite Z.div_small in E by lia. congruence. }
    assert (Hq : 0 < n / 10 < 10).
    { split; [|apply Z.div_lt_upper_bound; lia].
      pose proof (Z.div_pos n 10). lia. }
    assert (Hl : 0 < Z.log2 n) by (apply Z.log2_pos; lia).
    destruct (Z.to_nat (Z.log2 n)) as [|k] eqn:Ek; [lia|].
    simpl decimal_fuel.
    assert (n / 10 / 10 = 0) by (apply Z.div_small; lia).
    rewrite H. simpl.
    rewrite (Z.mod_small (n / 10) 10) by lia. reflexivity.
Qed.

End Decimal.

(** ** More on the duration parser *)

Section ParseDurationMore.

Local Arguments String.append !_ _ / : simpl nomatch.

Lemma scan_hours a rest st :
  a <> EmptyString -> Str.all_digits a = true -> num st = EmptyString ->
  scan (a +:+ String "h" rest) st
  = scan rest {| total := total st + Str.int a * 60; num := EmptyString;
                 had_unit := true |}.
Proof.
  intros Hne Ha Hn. rewrite (scan_digits a _ st Ha). simpl.
  unfold scan_char. simpl. rewrite Hn. simpl.
  now rewrite (is_empty_false _ Hne).
Qed.

Lemma scan_minutes a rest st :
  a <> EmptyString -> Str.all_digits a = true -> num st = EmptyString ->
  scan (a +:+ String "m" rest) st
  = scan rest {| total := total st + Str.int a; num := EmptyString;
                 had_unit := true |}.
Proof.
  intros Hne Ha Hn. rewrite (scan_digits a _ st Ha). simpl.
  unfold scan_char. simpl. rewrite Hn. simpl.
  now rewrite (is_empty_false _ Hne).
Qed.

Lemma scan_colon rest st : scan (String ":" rest) st = scan rest st.
Proof. reflexivity. Qed.

Lemma all_stable_unit a (u : ascii) rest :
  stable u = true -> Str.all_digits a = true -> all_stable rest = true ->
  all_stable (a +:+ String u rest) = true.
Proof.
  intros Hu Ha Hr. rewrite all_stable_app, (all_digits_stable _ Ha). simpl.
  now rewrite Hu, Hr.
Qed.

Lemma scan_allowed s : forall st st',
  scan s st = Ok st' -> all_allowed s = true.
Proof.
  induction s as [|ch r IH]; intros st st' H; simpl in *; [reflexivity|].
  destruct (scan_char ch st) as [st1|e] eqn:E; [|discriminate].
  rewrite (IH _ _ H), andb_true_r.
  unfold scan_char in E. unfold allowed.
  destruct (Str.isdigit ch); [reflexivity|]. simpl.
  destruct (Ascii.eqb ch "h"); [reflexivity|].
  destruct (Ascii.eqb ch "m"); [reflexivity|]. simpl in *.
  destruct (Ascii.eqb ch ":"); [reflexivity | discriminate].
Qed.

(** Without a digit nothing is ever counted. *)
Lemma scan_no_digit s : forall st st',
  has_digit s = false -> num st = EmptyString ->
  scan s st = Ok st' -> st' = st.
Proof.
  induction s as [|ch r IH]; intros st st' Hd Hn H; simpl in *.
  - now injection H as <-.
  - apply orb_false_elim in Hd as [Hc Hr].
    unfold scan_char in H. rewrite Hc, Hn in H. simpl in H.
    destruct (Ascii.eqb ch "h" || Ascii.eqb ch "m"); [discriminate|].
    destruct (Ascii.eqb ch ":"); [|discriminate].
    now apply (IH st st').
Qed.

Lemma timedelta_minutes_ok n td :
  timedelta_minutes n = Ok td ->
  td = minutes n /\ timedelta_in_range td = true.
Proof.
  unfold timedelta_minutes, minutes.
  destruct (timedelta_in_range (n * US_PER_MINUTE)) eqn:E; [|discriminate].
  intros H. injection H as <-. now split.
Qed.

Lemma finish_ok st td :
  finish st = Ok td ->
  exists n, 0 < n /\ td = minutes n /\ timedelta_in_range td = true
            /\ (n = total st \/ n = total st + Str.int (num st)).
Proof.
  unfold finish.
  set (n := if negb (Str.is_empty (num st)) && negb (had_unit st)
            then total st + Str.int (num st) else total st).
  destruct (Z.leb_spec n 0) as [H|H]; [discriminate|].
  intros E. apply timedelta_minutes_ok in E as [-> Hr].
  exists n. repeat split; try assumption.
  subst n. destruct (_ && _); [now right | now left].
Qed.

Lemma timedelta_in_range_below a b :
  0 <= a <= b -> timedelta_in_range b = true -> timedelta_in_range a = true.
Proof.
  unfold timedelta_in_range. intros [Ha Hab] H.
  apply andb_prop in H as [_ H]. apply Z.leb_le in H.
  apply andb_true_intro. split; apply Z.leb_le.
  - pose proof (Z.div_pos a US_PER_DAY Ha US_PER_DAY_pos).
    unfold MAX_DELTA_DAYS. lia.
  - pose proof (Z.div_le_mono a b US_PER_DAY US_PER_DAY_pos Hab). lia.
Qed.

End ParseDurationMore.

Section DurationTexts.

Local Arguments String.append !_ _ / : simpl nomatch.





(** A run of digits before a colon ends where the colon stands. *)
Lemma split_at_colon a : forall a' r r',
  Str.all_digits a = true -> Str.all_digits a' = true ->
  a +:+ String ":" r = a' +:+ String ":" r' -> a = a' /\ r = r'.
Proof.
  induction a as [|c t IH]; intros a' r r' Ha Ha' E; destruct a' as [|c' t'];
    simpl in *.
  - injection E as ->. now split.
  - injection E as <- _. discriminate Ha'.
  - injection E as -> _. discriminate Ha.
  - injection E as -> E. apply andb_prop in Ha as [_ Ha].
    apply andb_prop in Ha' as [_ Ha'].
    destruct (IH t' r r' Ha Ha' E) as [-> ->]. now split.
Qed.

Lemma hms_fields t :
  0 <= t ->
  0 <= t / 3600 /\ 0 <= t mod 3600 / 60 < 60 /\ 0 <= t mod 3600 mod 60 < 60
  /\ t = 3600 * (t / 3600) + 60 * (t mod 3600 / 60) + t mod 3600 mod 60.
Proof.
  intros Ht.
  pose proof (Z.div_pos t 3600 Ht ltac:(lia)).
  pose proof (Z.mod_pos_bound t 3600 ltac:(lia)).
  pose proof (Z.div_mod t 3600 ltac:(lia)).
  pose proof (Z.div_mod (t mod 3600) 60 ltac:(lia)).
  pose proof (Z.mod_pos_bound (t mod 3600) 60 ltac:(lia)).
  assert (0 <= t mod 3600 / 60) by (apply Z.div_pos; lia).
  assert (t mod 3600 / 60 < 60) by (apply Z.div_lt_upper_bound; lia).
  lia.
Qed.

Lemma parse_hours_minutes_formula a b :
  a <> EmptyString -> b <> EmptyString ->
  Str.all_digits a = true -> Str.all_digits b = true ->
  parse_duration (a +:+ String "h" (b +:+ String "m" EmptyString))
  = if Str.int a * 60 + Str.int b <=? 0 then Raise DurationNotPositive
    else timedelta_minutes (Str.int a * 60 + Str.int b).
Proof.
  intros Ha Hb Da Db. rewrite parse_duration_stable.
  - rewrite scan_hours by (assumption || reflexivity).
    rewrite scan_minutes by (assumption || reflexivity). reflexivity.
  - apply all_stable_unit; [reflexivity | exact Da|].
    apply all_stable_unit; [reflexivity | exact Db | reflexivity].
Qed.

Lemma parse_minutes_formula b :
  b <> EmptyString -> Str.all_digits b = true ->
  parse_duration (b +:+ String "m" EmptyString)
  = if Str.int b <=? 0 then Raise DurationNotPositive
    else timedelta_minutes (Str.int b).
Proof.
  intros Hb Db. rewrite parse_duration_stable.
  - rewrite scan_minutes by (assumption || reflexivity). reflexivity.
  - apply all_stable_unit; [reflexivity | exact Db | reflexivity].
Qed.

(** The digits a two-character field adds to a number being read. *)
Lemma int_acc_two n acc :
  0 <= n < 100 -> Str.int_acc (format_02d n) acc = 100 * acc + n.
Proof.
  intros Hn. rewrite (format_02d_two n Hn). simpl.
  assert (0 <= n / 10 < 10).
  { split; [apply Z.div_pos; lia | apply Z.div_lt_upper_bound; lia]. }
  pose proof (Z.mod_pos_bound n 10 ltac:(lia)).
  pose proof (Z.div_mod n 10 ltac:(lia)).
  rewrite !code_digit_char by assumption. lia.
Qed.

Lemma human_td_nonneg delta :
  0 <= delta ->
  human_td delta
  = if negb (delta / US_PER_SECOND / 3600 =? 0)
    then format_d (delta / US_PER_SECOND / 3600)
         +:+ String "h" (format_02d (delta / US_PER_SECOND mod 3600 / 60)
                         +:+ String "m" EmptyString)
    else format_d (delta / US_PER_SECOND mod 3600 / 60) +:+ String "m" EmptyString.
Proof.
  intros H. unfold human_td, int_total_seconds.
  rewrite Z.quot_div_nonneg by (unfold US_PER_SECOND; lia).
  assert (Hs : 0 <= delta / US_PER_SECOND)
    by (apply Z.div_pos; unfold US_PER_SECOND; lia).
  destruct (Z.ltb_spec (delta / US_PER_SECOND) 0) as [Hn|_]; [lia|].
  rewrite Z.abs_eq by exact Hs.
  destruct (negb _); reflexivity.
Qed.

Lemma whole_minutes delta :
  0 <= delta ->
  delta / US_PER_SECOND / 3600 * 60 + delta / US_PER_SECOND mod 3600 / 60
  = delta / US_PER_MINUTE.
Proof.
  intros H. unfold US_PER_MINUTE.
  rewrite (Z.mul_comm 60 US_PER_SECOND).
  rewrite <- Z.div_div by (unfold US_PER_SECOND; lia).
  set (t := delta / US_PER_SECOND).
  pose proof (Z.div_mod t 3600 ltac:(lia)) as E.
  rewrite E at 3.
  replace (3600 * (t / 3600) + t mod 3600)
    with (t mod 3600 + (t / 3600 * 60) * 60) by lia.
  rewrite Z.div_add by lia. lia.
Qed.

End DurationTexts.

(** X1. Whatever [parse_duration] accepts is a strictly positive whole
    number of minutes that fits a [timedelta]: it never returns a zero, a
    negative or a fractional-minute duration. *)
Theorem parse_duration_ok_positive_minutes (s : string) (td : Z) :
  parse_duration s = Ok td ->
  0 < td
  /\ td mod US_PER_MINUTE = 0
  /\ timedelta_in_range td = true
  /\ exists n, 0 < n /\ td = minutes n.
Proof.
  unfold parse_duration.
  destruct (scan _ _) as [st|e]; [|discriminate].
  intros H. apply finish_ok in H as (n & Hn & -> & Hr & _).
  unfold minutes in *. repeat split.
  - unfold US_PER_MINUTE, US_PER_SECOND. lia.
  - apply Z.mod_mul. discriminate.
  - exact Hr.
  - now exists n.
Qed.

Lemma parse_duration_ok_positive_minutes_witness :
  0 < minutes 90 /\ minutes 90 mod US_PER_MINUTE = 0.
Proof.
  destruct (parse_duration_ok_positive_minutes "1h30m" (minutes 90))
    as (H1 & H2 & _); [vm_compute; reflexivity|].
  now split.
Defined.

(** X2. A text that [parse_duration] accepts holds, once stripped and
    lowered, nothing but digits, the units h and m and colons, and at
    least one digit: any other character, or a text without a digit, is
    refused. *)
Theorem parse_duration_ok_alphabet (s : string) (td : Z) :
  parse_duration s = Ok td ->
  all_allowed (Str.lower (Str.strip s)) = true
  /\ has_digit (Str.lower (Str.strip s)) = true.
Proof.
  unfold parse_duration.
  destruct (scan _ _) as [st|e] eqn:E; [|discriminate].
  intros H. split; [now apply (scan_allowed _ _ _ E)|].
  destruct (has_digit (Str.lower (Str.strip s))) eqn:Hd; [reflexivity|].
  apply scan_no_digit in E; [|exact Hd | reflexivity]. subst st.
  vm_compute in H. discriminate.
Qed.

Lemma parse_duration_ok_alphabet_witness :
  all_allowed (Str.lower (Str.strip " 2H ")) = true
  /\ has_digit (Str.lower (Str.strip " 2H ")) = true.
Proof.
  apply (parse_duration_ok_alphabet " 2H " (minutes 120)).
  vm_compute. reflexivity.
Defined.

(** X3. Two digit runs within the digit limit of [int], one with the
    hour unit and one with the minute unit, add up in either order:
    "<a>h<b>m" and "<b>m<a>h" both give 60 * a + b minutes. *)
Theorem parse_duration_hours_minutes (a b : string) :
  a <> EmptyString -> b <> EmptyString ->
  Str.all_digits a = true -> Str.all_digits b = true ->
  int_readable a = true -> int_readable b = true ->
  parse_duration (a +:+ "h" +:+ b +:+ "m")
  = (if Str.int a * 60 + Str.int b <=? 0 then Raise DurationNotPositive
     else timedelta_minutes (Str.int a * 60 + Str.int b))
  /\ parse_duration (b +:+ "m" +:+ a +:+ "h")
     = parse_duration (a +:+ "h" +:+ b +:+ "m").
Proof.
  intros Ha Hb Da Db _ _.
  pose proof (parse_hours_minutes_formula a b Ha Hb Da Db) as E1.
  change (a +:+ String "h" (b +:+ String "m" EmptyString))
    with (a +:+ "h" +:+ b +:+ "m") in E1.
  split; [exact E1|]. rewrite E1.
  change (b +:+ "m" +:+ a +:+ "h")
    with (b +:+ String "m" (a +:+ String "h" EmptyString)).
  rewrite parse_duration_stable.
  - rewrite scan_minutes by (assumption || reflexivity).
    rewrite scan_hours by (assumption || reflexivity). simpl. unfold finish. simpl.
    replace (0 + Str.int b + Str.int a * 60) with (Str.int a * 60 + Str.int b)
      by lia.
    reflexivity.
  - apply all_stable_unit; [reflexivity | exact Db|].
    apply all_stable_unit; [reflexivity | exact Da | reflexivity].
Qed.

Lemma parse_duration_hours_minutes_witness :
  parse_duration ("30" +:+ "m" +:+ "1" +:+ "h")
  = parse_duration ("1" +:+ "h" +:+ "30" +:+ "m").
Proof.
  apply (parse_duration_hours_minutes "1" "30");
    [discriminate | discriminate | reflexivity ..].
Defined.



(** X5. What [human_td] prints for a duration of a minute or more and of
    fewer than 2^33 seconds, [parse_duration] reads back as that duration
    cut to whole minutes: the report's "<H>h<MM>m" and "<M>m" are texts
    the parser accepts with the same meaning. *)
Theorem human_td_parses_back (delta : Z) :
  US_PER_MINUTE <= delta -> seconds_exact delta = true ->
  parse_duration (human_td delta) = Ok (minutes (delta / US_PER_MINUTE)).
Proof.
  intros Hmin Hx.
  assert (H0 : 0 <= delta) by (unfold US_PER_MINUTE, US_PER_SECOND in Hmin; lia).
  assert (Hr : timedelta_in_range delta = true).
  { unfold seconds_exact in Hx. apply Z.ltb_lt in Hx.
    rewrite Z.abs_eq in Hx by exact H0.
    unfold timedelta_in_range, MAX_DELTA_DAYS.
    pose proof (Z.div_pos delta US_PER_DAY H0 ltac:(reflexivity)).
    apply andb_true_intro. split; apply Z.leb_le; [lia|].
    apply Z.div_le_upper_bound; [reflexivity|].
    unfold US_PER_DAY, US_PER_HOUR, US_PER_MINUTE, US_PER_SECOND in *. lia. }
  pose proof (whole_minutes delta H0) as Hw.
  assert (Hus : 0 < US_PER_SECOND) by reflexivity.
  assert (Hs : 0 <= delta / US_PER_SECOND) by (apply Z.div_pos; lia).
  destruct (hms_fields _ Hs) as (Hh & Hm & _ & _).
  assert (Hk : 0 < delta / US_PER_MINUTE).
  { apply Z.div_str_pos. split; [reflexivity | exact Hmin]. }
  assert (Hfit : timedelta_minutes (delta / US_PER_MINUTE)
                 = Ok (minutes (delta / US_PER_MINUTE))).
  { unfold timedelta_minutes, minutes.
    rewrite (timedelta_in_range_below _ delta); [reflexivity | | exact Hr].
    split.
    - apply Z.mul_nonneg_nonneg; [lia | discriminate].
    - rewrite Z.mul_comm. apply Z.mul_div_le. reflexivity. }
  rewrite (human_td_nonneg delta H0).
  destruct (format_d_sound _ Hh) as (Ih & Ah & Nh).
  destruct (format_02d_sound (delta / US_PER_SECOND mod 3600 / 60))
    as (Im2 & Am2 & Nm2); [lia|].
  destruct (format_d_sound (delta / US_PER_SECOND mod 3600 / 60))
    as (Im & Am & Nm); [lia|].
  destruct (negb _) eqn:E.
  - rewrite parse_hours_minutes_formula by assumption.
    rewrite Ih, Im2, Hw.
    destruct (Z.leb_spec (delta / US_PER_MINUTE) 0); [lia | exact Hfit].
  - apply negb_false_iff, Z.eqb_eq in E. rewrite E in Hw.
    rewrite parse_minutes_formula by assumption.
    rewrite Im. replace (delta / US_PER_SECOND mod 3600 / 60)
      with (delta / US_PER_MINUTE) by lia.
    destruct (Z.leb_spec (delta / US_PER_MINUTE) 0); [lia | exact Hfit].
Qed.

Lemma human_td_parses_back_witness :
  parse_duration (human_td (minutes 90 + 59 * US_PER_SECOND))
  = Ok (minutes ((minutes 90 + 59 * US_PER_SECOND) / US_PER_MINUTE)).
Proof.
  apply (human_td_parses_back (minutes 90 + 59 * US_PER_SECOND));
    vm_compute; [discriminate | reflexivity].
Defined.

Section HmsTexts.

Local Arguments String.append !_ _ / : simpl nomatch.

Lemma hms_shape total_seconds :
  _secs_to_hms total_seconds
  = format_02d (Z.max 0 total_seconds / 3600)
    +:+ String ":" (format_02d (Z.max 0 total_seconds mod 3600 / 60)
    +:+ String ":" (format_02d (Z.max 0 total_seconds mod 3600 mod 60))).
Proof.
  unfold _secs_to_hms.
  replace (if total_seconds <? 0 then 0 else total_seconds)
    with (Z.max 0 total_seconds); [reflexivity|].
  destruct (Z.ltb_spec total_seconds 0); lia.
Qed.

Lemma append_not_empty a b : a <> EmptyString -> a +:+ b <> EmptyString.
Proof. destruct a; [congruence | discriminate]. Qed.

Lemma hms_faithful a b :
  _secs_to_hms a = _secs_to_hms b -> Z.max 0 a = Z.max 0 b.
Proof.
  rewrite !hms_shape.
  destruct (hms_fields (Z.max 0 a) ltac:(lia)) as (Ha1 & Ha2 & Ha3 & Ea).
  destruct (hms_fields (Z.max 0 b) ltac:(lia)) as (Hb1 & Hb2 & Hb3 & Eb).
  destruct (format_02d_sound _ Ha1) as (I1 & D1 & _).
  destruct (format_02d_sound (Z.max 0 a mod 3600 / 60)) as (I2 & D2 & _); [lia|].
  destruct (format_02d_sound (Z.max 0 a mod 3600 mod 60)) as (I3 & D3 & _); [lia|].
  destruct (format_02d_sound _ Hb1) as (J1 & E1 & _).
  destruct (format_02d_sound (Z.max 0 b mod 3600 / 60)) as (J2 & E2 & _); [lia|].
  destruct (format_02d_sound (Z.max 0 b mod 3600 mod 60)) as (J3 & E3 & _); [lia|].
  intros E.
  apply split_at_colon in E as [Eh E]; [|assumption..].
  apply split_at_colon in E as [Em Es]; [|assumption..].
  apply (f_equal Str.int) in Eh, Em, Es.
  rewrite I1, J1 in Eh. rewrite I2, J2 in Em. rewrite I3, J3 in Es. lia.
Qed.

Lemma parse_hms secs :
  parse_duration (_secs_to_hms secs)
  = if 10000 * (Z.max 0 secs / 3600) + 100 * (Z.max 0 secs mod 3600 / 60)
       + Z.max 0 secs mod 3600 mod 60 <=? 0
    then Raise DurationNotPositive
    else timedelta_minutes
           (10000 * (Z.max 0 secs / 3600) + 100 * (Z.max 0 secs mod 3600 / 60)
            + Z.max 0 secs mod 3600 mod 60).
Proof.
  rewrite hms_shape.
  destruct (hms_fields (Z.max 0 secs) ltac:(lia)) as (H1 & H2 & H3 & _).
  destruct (format_02d_sound _ H1) as (I1 & D1 & N1).
  destruct (format_02d_sound (Z.max 0 secs mod 3600 / 60)) as (_ & D2 & _); [lia|].
  destruct (format_02d_sound (Z.max 0 secs mod 3600 mod 60)) as (_ & D3 & _); [lia|].
  rewrite parse_duration_stable.
  - rewrite (scan_digits _ _ _ D1), scan_colon.
    rewrite (scan_digits _ _ _ D2), scan_colon.
    rewrite (scan_digits_end _ _ D3). unfold finish. simpl.
    rewrite is_empty_false by (now apply append_not_empty, append_not_empty).
    simpl. unfold Str.int. rewrite !int_acc_app.
    rewrite !int_acc_two by lia. fold (Str.int (format_02d (Z.max 0 secs / 3600))).
    rewrite I1.
    replace (100 * (100 * (Z.max 0 secs / 3600) + Z.max 0 secs mod 3600 / 60)
             + Z.max 0 secs mod 3600 mod 60)
      with (10000 * (Z.max 0 secs / 3600) + 100 * (Z.max 0 secs mod 3600 / 60)
            + Z.max 0 secs mod 3600 mod 60) by lia.
    reflexivity.
  - rewrite all_stable_app, (all_digits_stable _ D1). simpl.
    rewrite all_stable_app, (all_digits_stable _ D2). simpl.
    now apply all_digits_stable.
Qed.

End HmsTexts.

(** X6. [_secs_to_hms] loses nothing but the sign: two second counts
    are rendered alike exactly when they agree once negative counts are
    taken as zero, so every negative count reads "00:00:00" and distinct
    non-negative counts never share a text. *)
Theorem secs_to_hms_faithful (a b : Z) :
  (_secs_to_hms a = _secs_to_hms b <-> Z.max 0 a = Z.max 0 b)
  /\ (a < 0 -> _secs_to_hms a = "00:00:00").
Proof.
  split; [split|].
  - apply hms_faithful.
  - intros E. now rewrite !hms_shape, E.
  - intros H. rewrite hms_shape.
    replace (Z.max 0 a) with 0 by lia. reflexivity.
Qed.

Lemma secs_to_hms_faithful_witness : _secs_to_hms (-7) = "00:00:00".
Proof.
  apply (proj2 (secs_to_hms_faithful (-7) 0)). reflexivity.
Defined.

(** X7. The "HH:MM:SS" text that the ledger keeps in its [duration] field
    is accepted by [parse_duration], which drops the colons and reads the
    digits as minutes: h hours m minutes s seconds come back as
    10000 * h + 100 * m + s minutes (so "01:30:00" is 13000 minutes), and
    "00:00:00" is refused. *)
Theorem parse_duration_of_hms (secs : Z) :
  parse_duration (_secs_to_hms secs)
  = if 10000 * (Z.max 0 secs / 3600) + 100 * (Z.max 0 secs mod 3600 / 60)
       + Z.max 0 secs mod 3600 mod 60 <=? 0
    then Raise DurationNotPositive
    else timedelta_minutes
           (10000 * (Z.max 0 secs / 3600) + 100 * (Z.max 0 secs mod 3600 / 60)
            + Z.max 0 secs mod 3600 mod 60).
Proof. apply parse_hms. Qed.

(** ** The proleptic Gregorian calendar *)

Section Calendar.

Lemma all_from_spec check fuel : forall n,
  all_from check fuel n = true ->
  forall i, n <= i < n + Z.of_nat fuel -> check i = true.
Proof.
  induction fuel as [|fuel IH]; intros n H i Hi; [lia|].
  simpl in H. destruct (check n) eqn:E; [|discriminate].
  destruct (Z.eq_dec i n) as [->|Hne]; [exact E|].
  apply (IH (n + 1) H). lia.
Qed.

Lemma first_cycle_ordinals :
  all_from ordinal_ok (Z.to_nat 146097) 1 = true.
Proof. vm_compute. reflexivity. Qed.

Lemma first_cycle_years : all_from year_ok (Z.to_nat 400) 1 = true.
Proof. vm_compute. reflexivity. Qed.

Lemma is_leap_shift y k : is_leap (y + 400 * k) = is_leap y.
Proof.
  unfold is_leap.
  replace (y + 400 * k) with (y + (100 * k) * 4) at 1 by lia.
  replace (y + 400 * k) with (y + (4 * k) * 100) at 1 by lia.
  replace (y + 400 * k) with (y + k * 400) by lia.
  now rewrite !Z.mod_add by lia.
Qed.

Lemma days_before_year_shift y k :
  days_before_year (y + 400 * k) = days_before_year y + 146097 * k.
Proof.
  unfold days_before_year. cbv zeta.
  replace (y + 400 * k - 1) with (y - 1 + (100 * k) * 4) at 2 by lia.
  replace (y + 400 * k - 1) with (y - 1 + (4 * k) * 100) at 2 by lia.
  replace (y + 400 * k - 1) with (y - 1 + k * 400) at 2 by lia.
  rewrite !Z.div_add by lia. lia.
Qed.

Lemma days_in_month_shift y k m :
  days_in_month (y + 400 * k) m = days_in_month y m.
Proof. unfold days_in_month. now rewrite is_leap_shift. Qed.

Lemma ymd2ord_shift y k m d :
  ymd2ord (y + 400 * k) m d = ymd2ord y m d + 146097 * k.
Proof.
  unfold ymd2ord, days_before_month.
  rewrite days_before_year_shift, is_leap_shift. lia.
Qed.

End Calendar.

Section CalendarMore.

Lemma year_eq (y y' m d : Z) : y = y' -> (y, m, d) = (y', m, d).
Proof. now intros ->. Qed.

Lemma ord2ymd_shift n :
  ord2ymd n
  = (fst (fst (ord2ymd ((n - 1) mod 146097 + 1))) + 400 * ((n - 1) / 146097),
     snd (fst (ord2ymd ((n - 1) mod 146097 + 1))),
     snd (ord2ymd ((n - 1) mod 146097 + 1))).
Proof.
  unfold ord2ymd. change DI400Y with 146097. cbv zeta.
  replace ((n - 1) mod 146097 + 1 - 1) with ((n - 1) mod 146097) by lia.
  rewrite Z.mod_mod by lia.
  rewrite (Z.div_small ((n - 1) mod 146097) 146097)
    by (apply Z.mod_pos_bound; lia).
  set (r := (n - 1) mod 146097).
  set (k := (n - 1) / 146097).
  repeat match goal with
         | |- context [if ?c then _ else _] => destruct c
         end; simpl fst; simpl snd; apply year_eq; lia.
Qed.

Lemma cycle_split x c :
  0 < c -> 1 <= (x - 1) mod c + 1 <= c /\ x = (x - 1) mod c + 1 + c * ((x - 1) / c).
Proof.
  intros Hc. pose proof (Z.mod_pos_bound (x - 1) c Hc).
  pose proof (Z.div_mod (x - 1) c ltac:(lia)). lia.
Qed.

(** Every ordinal splits into a valid date, whose ordinal it is. *)
Lemma ord2ymd_valid n :
  1 <= month_of n <= 12
  /\ 1 <= day_of n <= days_in_month (year_of n) (month_of n)
  /\ ymd2ord (year_of n) (month_of n) (day_of n) = n
  /\ (1 <= n <= 3652059 -> 1 <= year_of n <= 9999).
Proof.
  destruct (cycle_split n 146097 ltac:(lia)) as [Hr Hn].
  pose proof (all_from_spec _ _ _ first_cycle_ordinals
                ((n - 1) mod 146097 + 1) ltac:(lia)) as Hc.
  unfold year_of, month_of, day_of. rewrite ord2ymd_shift. simpl fst. simpl snd.
  unfold ordinal_ok in Hc.
  destruct (ord2ymd ((n - 1) mod 146097 + 1)) as [[y0 m0] d0]. simpl fst. simpl snd.
  repeat (apply andb_prop in Hc as [Hc ?]).
  rewrite days_in_month_shift, ymd2ord_shift.
  repeat split; lia.
Qed.

Lemma in_number_list k bound :
  1 <= k <= Z.of_nat bound -> In k (map Z.of_nat (seq 1 bound)).
Proof.
  intros H. apply List.in_map_iff. exists (Z.to_nat k). split; [lia|].
  apply List.in_seq. lia.
Qed.

Lemma days_in_month_le y m : 1 <= m <= 12 -> 28 <= days_in_month y m <= 31.
Proof.
  intros H. unfold days_in_month.
  assert (E : m = 1 \/ m = 2 \/ m = 3 \/ m = 4 \/ m = 5 \/ m = 6 \/ m = 7
              \/ m = 8 \/ m = 9 \/ m = 10 \/ m = 11 \/ m = 12) by lia.
  repeat (destruct E as [->|E]; [destruct (is_leap y); vm_compute; split; discriminate|]).
  subst. destruct (is_leap y); vm_compute; split; discriminate.
Qed.

(** Every valid date is the split of its ordinal. *)
Lemma ymd_roundtrip y m d :
  1 <= m <= 12 -> 1 <= d <= days_in_month y m ->
  ord2ymd (ymd2ord y m d) = (y, m, d).
Proof.
  intros Hm Hd.
  destruct (cycle_split y 400 ltac:(lia)) as [Hr Hy].
  set (y0 := (y - 1) mod 400 + 1) in *. set (k := (y - 1) / 400) in *.
  pose proof (all_from_spec _ _ _ first_cycle_years y0 ltac:(lia)) as Hc.
  unfold year_ok in Hc. rewrite List.forallb_forall in Hc.
  specialize (Hc m (in_number_list m 12 ltac:(lia))).
  rewrite List.forallb_forall in Hc.
  pose proof (days_in_month_le y m Hm).
  specialize (Hc d (in_number_list d 31 ltac:(lia))).
  rewrite Hy in Hd |- *. rewrite days_in_month_shift in Hd.
  rewrite ymd2ord_shift.
  destruct (Z.ltb_spec (days_in_month y0 m) d) as [Hlt|_]; [lia|].
  simpl in Hc. repeat (apply andb_prop in Hc as [Hc ?]).
  rewrite ord2ymd_shift.
  replace (ymd2ord y0 m d + 146097 * k - 1)
    with (ymd2ord y0 m d - 1 + k * 146097) by lia.
  rewrite Z.mod_add, Z.div_add by lia.
  rewrite Z.mod_small, Z.div_small by lia.
  replace (ymd2ord y0 m d - 1 + 1) with (ymd2ord y0 m d) by lia.
  destruct (ord2ymd (ymd2ord y0 m d)) as [[y1 m1] d1].
  unfold ymd_eqb in *. simpl in *. f_equal; [f_equal|]; lia.
Qed.

End CalendarMore.

Section Window.

Lemma days_before_month_next y m :
  1 <= m <= 11 ->
  days_before_month y (m + 1) = days_before_month y m + days_in_month y m.
Proof.
  intros H. unfold days_before_month, days_in_month.
  assert (E : m = 1 \/ m = 2 \/ m = 3 \/ m = 4 \/ m = 5 \/ m = 6 \/ m = 7
              \/ m = 8 \/ m = 9 \/ m = 10 \/ m = 11) by lia.
  repeat (destruct E as [->|E]; [destruct (is_leap y); reflexivity|]).
  subst. destruct (is_leap y); reflexivity.
Qed.

Lemma days_before_year_next y :
  days_before_year (y + 1)
  = days_before_year y + 365 + (if is_leap y then 1 else 0).
Proof.
  unfold days_before_year, is_leap. cbv zeta.
  replace (y + 1 - 1) with y by lia.
  destruct (Z.eqb_spec (y mod 4) 0), (Z.eqb_spec (y mod 100) 0),
    (Z.eqb_spec (y mod 400) 0); simpl; Z.div_mod_to_equations; lia.
Qed.

(** The first day of the next month comes [days_in_month] days after the
    first day of the month. *)
Lemma next_month_start y m :
  1 <= m <= 12 ->
  (if m =? 12 then ymd2ord (y + 1) 1 1 else ymd2ord y (m + 1) 1)
  = ymd2ord y m 1 + days_in_month y m.
Proof.
  intros H. destruct (Z.eqb_spec m 12) as [->|Hne].
  - unfold ymd2ord. rewrite days_before_year_next.
    unfold days_before_month, days_in_month.
    change (table DAYS_BEFORE_MONTH 12) with 334.
    change (table DAYS_BEFORE_MONTH 1) with 0.
    change (table DAYS_IN_MONTH 12) with 31.
    change (12 =? 2) with false. change (2 <? 12) with true.
    change (2 <? 1) with false. simpl andb.
    destruct (is_leap y); lia.
  - unfold ymd2ord. rewrite days_before_month_next by lia. lia.
Qed.

Lemma mk_datetime_first y m :
  1 <= m <= 12 ->
  mk_datetime y m 1 0 0 0 0
  = if (MINYEAR <=? y) && (y <=? MAXYEAR)
    then Some (combine_midnight (ymd2ord y m 1)) else None.
Proof.
  intros H. unfold mk_datetime.
  pose proof (days_in_month_le y m H).
  destruct ((MINYEAR <=? y) && (y <=? MAXYEAR)); [|reflexivity].
  destruct (Z.leb_spec 1 m); [|lia]. destruct (Z.leb_spec m 12); [|lia].
  destruct (Z.leb_spec 1 (days_in_month y m)); [|lia]. simpl.
  f_equal. lia.
Qed.

(** The window of [now], spelled out. *)
Lemma report_window_spec now :
  report_window now
  = if (MINYEAR <=? year_of (date_of now))
       && (if month_of (date_of now) =? 12
           then year_of (date_of now) + 1 <=? MAXYEAR
           else year_of (date_of now) <=? MAXYEAR)
    then Some (combine_midnight
                 (ymd2ord (year_of (date_of now)) (month_of (date_of now)) 1),
               combine_midnight
                 (ymd2ord (year_of (date_of now)) (month_of (date_of now)) 1
                  + days_in_month (year_of (date_of now)) (month_of (date_of now))))
    else None.
Proof.
  destruct (ord2ymd_valid (date_of now)) as (Hm & _).
  set (y := year_of (date_of now)) in *. set (m := month_of (date_of now)) in *.
  unfold report_window, start_of_month, end_of_month. fold y m.
  rewrite <- (next_month_start y m Hm).
  rewrite (mk_datetime_first y m Hm).
  destruct (Z.eqb_spec m 12) as [E|E].
  - rewrite (mk_datetime_first (y + 1) 1 ltac:(lia)).
    unfold MINYEAR, MAXYEAR.
    destruct (Z.leb_spec 1 y), (Z.leb_spec y 9999), (Z.leb_spec (y + 1) 9999),
      (Z.leb_spec 1 (y + 1)); simpl; try reflexivity; lia.
  - rewrite (mk_datetime_first y (m + 1) ltac:(lia)).
    unfold MINYEAR, MAXYEAR.
    destruct (Z.leb_spec 1 y), (Z.leb_spec y 9999); simpl; reflexivity.
Qed.

Lemma same_month_iff y m n :
  1 <= m <= 12 ->
  (ymd2ord y m 1 <= n < ymd2ord y m 1 + days_in_month y m)
  <-> (year_of n = y /\ month_of n = m).
Proof.
  intros Hm. split.
  - intros Hn.
    assert (E : n = ymd2ord y m (n - ymd2ord y m 1 + 1))
      by (unfold ymd2ord; lia).
    rewrite E. unfold year_of, month_of.
    rewrite ymd_roundtrip; [now split | exact Hm | lia].
  - intros [<- <-].
    destruct (ord2ymd_valid n) as (_ & Hd & E & _).
    unfold ymd2ord in *. lia.
Qed.

Lemma date_of_bounds a b x :
  combine_midnight a <= x < combine_midnight b <-> a <= date_of x < b.
Proof.
  pose proof (midnight_le x). pose proof (next_midnight_gt x).
  split; intros [H1 H2]; split.
  - rewrite <- (date_of_combine a). now apply date_of_mono.
  - destruct (Z_lt_le_dec (date_of x) b) as [Hlt|Hge]; [exact Hlt|].
    pose proof (combine_midnight_le _ _ Hge). lia.
  - pose proof (combine_midnight_le _ _ H1). lia.
  - assert (date_of x + 1 <= b) by lia.
    pose proof (combine_midnight_le _ _ H3). lia.
Qed.

Lemma days_loop_length fuel : forall dcur k,
  (k <= fuel)%nat ->
  length (days_loop fuel dcur (combine_midnight (dcur + Z.of_nat k))) = k.
Proof.
  induction fuel as [|fuel IH]; intros dcur k Hk.
  - now replace k with 0%nat by lia.
  - simpl. destruct (Z.ltb_spec (combine_midnight dcur)
                       (combine_midnight (dcur + Z.of_nat k))) as [H|H].
    + destruct k as [|k].
      { replace (dcur + Z.of_nat 0) with dcur in H by lia. lia. }
      simpl length. f_equal.
      replace (dcur + Z.of_nat (S k)) with (dcur + 1 + Z.of_nat k) by lia.
      apply IH. lia.
    + destruct k as [|k]; [reflexivity|].
      pose proof (combine_midnight_lt dcur (dcur + Z.of_nat (S k)) ltac:(lia)).
      lia.
Qed.

End Window.

Section WindowFacts.

Lemma report_window_some now lo hi :
  report_window now = Some (lo, hi) ->
  lo = combine_midnight
         (ymd2ord (year_of (date_of now)) (month_of (date_of now)) 1)
  /\ hi = combine_midnight
            (ymd2ord (year_of (date_of now)) (month_of (date_of now)) 1
             + days_in_month (year_of (date_of now)) (month_of (date_of now))).
Proof.
  rewrite report_window_spec. destruct (_ && _); [|discriminate].
  intros E. injection E as <- <-. now split.
Qed.

Lemma window_instants now lo hi x :
  report_window now = Some (lo, hi) ->
  lo <= x < hi
  <-> year_of (date_of x) = year_of (date_of now)
      /\ month_of (date_of x) = month_of (date_of now).
Proof.
  intros H. apply report_window_some in H as [-> ->].
  destruct (ord2ymd_valid (date_of now)) as (Hm & _).
  rewrite date_of_bounds. now apply same_month_iff.
Qed.

End WindowFacts.

(** X8. When the report window exists it is the calendar month of [now]:
    it holds exactly the instants whose date has the year and the month of
    today, [now] among them, and it lasts as many days as that month
    has. *)
Theorem report_window_is_calendar_month (now lo hi : Z) :
  report_window now = Some (lo, hi) ->
  lo <= now < hi
  /\ hi - lo
     = days_in_month (year_of (date_of now)) (month_of (date_of now))
       * US_PER_DAY
  /\ forall x,
       lo <= x < hi
       <-> year_of (date_of x) = year_of (date_of now)
           /\ month_of (date_of x) = month_of (date_of now).
Proof.
  intros H. split; [|split].
  - now apply (window_instants now lo hi now H).
  - apply report_window_some in H as [-> ->]. unfold combine_midnight. lia.
  - intros x. now apply window_instants.
Qed.

Lemma report_window_is_calendar_month_witness :
  march_start <= sample_now < march_end
  /\ march_end - march_start
     = days_in_month (year_of (date_of sample_now))
         (month_of (date_of sample_now)) * US_PER_DAY.
Proof.
  destruct (report_window_is_calendar_month sample_now march_start march_end)
    as (H1 & H2 & _); [vm_compute; reflexivity|].
  split; [exact H1 | exact H2].
Defined.

(** X9. For an instant [now] of the years 1-9999, the window of the
    report cannot be built in December 9999, where [end_of_month] asks for
    the year 10000, and can be built at every other time. *)
Theorem report_window_fails_in_last_december (now : Z) :
  1 <= date_of now <= 3652059 ->
  report_window now = None
  <-> year_of (date_of now) = 9999 /\ month_of (date_of now) = 12.
Proof.
  intros Hr. destruct (ord2ymd_valid (date_of now)) as (Hm & _ & _ & Hy).
  specialize (Hy Hr). rewrite report_window_spec. unfold MINYEAR, MAXYEAR.
  destruct (Z.leb_spec 1 (year_of (date_of now))) as [_|H]; [|lia]. simpl.
  destruct (Z.eqb_spec (month_of (date_of now)) 12) as [E|E].
  - destruct (Z.leb_spec (year_of (date_of now) + 1) 9999); split;
      try discriminate; try reflexivity; intros; lia.
  - destruct (Z.leb_spec (year_of (date_of now)) 9999); [|lia].
    split; [discriminate | intros; lia].
Qed.

Lemma report_window_fails_in_last_december_witness :
  report_window (combine_midnight 3652059 + 12 * US_PER_HOUR) = None.
Proof.
  apply (report_window_fails_in_last_december
           (combine_midnight 3652059 + 12 * US_PER_HOUR));
    vm_compute; split; first [discriminate | reflexivity].
Defined.

(** X10. The days enumerated for the weekly grouping are exactly the
    dates that have the year and the month of today, as many as the month
    has days. *)
Theorem month_days_are_the_month (now lo hi : Z) :
  report_window now = Some (lo, hi) ->
  (forall d,
     In d (month_days lo hi)
     <-> year_of d = year_of (date_of now) /\ month_of d = month_of (date_of now))
  /\ Z.of_nat (length (month_days lo hi))
     = days_in_month (year_of (date_of now)) (month_of (date_of now)).
Proof.
  intros H. destruct (ord2ymd_valid (date_of now)) as (Hm & _).
  pose proof (days_in_month_le (year_of (date_of now)) _ Hm) as Hd.
  apply report_window_some in H as [-> ->]. split.
  - intros d. rewrite month_days_spec, date_of_combine.
    rewrite <- (same_month_iff _ _ d Hm).
    split; intros [H1 H2]; (split; [exact H1|]).
    + destruct (Z_lt_le_dec d (ymd2ord (year_of (date_of now))
                                 (month_of (date_of now)) 1
                               + days_in_month (year_of (date_of now))
                                   (month_of (date_of now)))) as [Hlt|Hge];
        [exact Hlt|].
      pose proof (combine_midnight_le _ _ Hge). lia.
    + now apply combine_midnight_lt.
  - unfold month_days, days_fuel. rewrite !date_of_combine.
    set (first := ymd2ord (year_of (date_of now)) (month_of (date_of now)) 1).
    set (dim := days_in_month (year_of (date_of now)) (month_of (date_of now))) in *.
    replace (first + dim) with (first + Z.of_nat (Z.to_nat dim)) by lia.
    rewrite days_loop_length; lia.
Qed.

Lemma month_days_are_the_month_witness :
  Z.of_nat (length (month_days march_start march_end))
  = days_in_month (year_of (date_of sample_now)) (month_of (date_of sample_now)).
Proof.
  apply (month_days_are_the_month sample_now march_start march_end).
  vm_compute. reflexivity.
Defined.

Section IsoRoundTrip.

Local Arguments String.append !_ _ / : simpl nomatch.

Lemma digit_digit_char d : 0 <= d < 10 -> Iso.digit (digit_char d) = Some d.
Proof.
  intros H. unfold Iso.digit.
  rewrite (isdigit_digit_char d H). now rewrite (code_digit_char d H).
Qed.

Lemma zero_pad_app w : forall n acc rest,
  zero_pad w n acc +:+ rest = zero_pad w n (acc +:+ rest).
Proof.
  induction w as [|w IH]; intros n acc rest; simpl; [reflexivity|].
  now rewrite IH.
Qed.

(** Reading back the [w] digits that [zero_pad] wrote. *)
Lemma digits_zero_pad w : forall j x tail a,
  0 <= x < 10 ^ Z.of_nat w ->
  Iso.digits (w + j) (zero_pad w x tail) a
  = Iso.digits j tail (a * 10 ^ Z.of_nat w + x).
Proof.
  induction w as [|w IH]; intros j x tail a Hx.
  - simpl in *. f_equal. lia.
  - rewrite Nat2Z.inj_succ, Z.pow_succ_r in * by lia.
    simpl zero_pad. replace (S w + j)%nat with (w + S j)%nat by lia.
    assert (Hq : 0 <= x / 10 < 10 ^ Z.of_nat w).
    { split; [apply Z.div_pos; lia | apply Z.div_lt_upper_bound; lia]. }
    rewrite (IH (S j) (x / 10) _ a Hq). simpl.
    pose proof (Z.mod_pos_bound x 10 ltac:(lia)).
    rewrite digit_digit_char by assumption. f_equal.
    pose proof (Z.div_mod x 10 ltac:(lia)). lia.
Qed.

Lemma digits_zero_pad_all w x tail :
  0 <= x < 10 ^ Z.of_nat w ->
  Iso.digits w (zero_pad w x tail) 0 = Some (x, tail).
Proof.
  intros Hx. pose proof (digits_zero_pad w 0 x tail 0 Hx) as H.
  rewrite Nat.add_0_r in H. rewrite H.
  change (Iso.digits 0 tail (0 * 10 ^ Z.of_nat w + x))
    with (Some (0 * 10 ^ Z.of_nat w + x, tail)).
  now rewrite Z.mul_0_l, Z.add_0_l.
Qed.

Lemma zero_pad_split a b : forall n acc,
  zero_pad (a + b) n acc
  = zero_pad a (n / 10 ^ Z.of_nat b) (zero_pad b n acc).
Proof.
  induction b as [|b IH]; intros n acc.
  - rewrite Nat.add_0_r. simpl. now rewrite Z.div_1_r.
  - replace (a + S b)%nat with (S (a + b)) by lia.
    rewrite Nat2Z.inj_succ, Z.pow_succ_r by lia.
    simpl zero_pad. rewrite IH. rewrite Z.div_div by lia. reflexivity.
Qed.

Lemma time_fields dt :
  0 <= hour_of dt < 24 /\ 0 <= minute_of dt < 60 /\ 0 <= second_of dt < 60
  /\ 0 <= microsecond_of dt < 1000000
  /\ dt = combine_midnight (date_of dt) + hour_of dt * US_PER_HOUR
          + minute_of dt * US_PER_MINUTE + second_of dt * US_PER_SECOND
          + microsecond_of dt.
Proof.
  unfold hour_of, minute_of, second_of, microsecond_of, combine_midnight, date_of.
  change US_PER_DAY with 86400000000. change US_PER_HOUR with 3600000000.
  change US_PER_MINUTE with 60000000. change US_PER_SECOND with 1000000.
  pose proof (Z.div_mod dt 86400000000 ltac:(lia)).
  pose proof (Z.mod_pos_bound dt 86400000000 ltac:(lia)).
  set (t := dt mod 86400000000) in *.
  pose proof (Z.div_mod t 3600000000 ltac:(lia)).
  pose proof (Z.mod_pos_bound t 3600000000 ltac:(lia)).
  set (u := t mod 3600000000) in *.
  pose proof (Z.div_mod u 60000000 ltac:(lia)).
  pose proof (Z.mod_pos_bound u 60000000 ltac:(lia)).
  set (v := u mod 60000000) in *.
  pose proof (Z.div_mod v 1000000 ltac:(lia)).
  pose proof (Z.mod_pos_bound v 1000000 ltac:(lia)).
  assert (0 <= t / 3600000000 < 24)
    by (split; [apply Z.div_pos; lia | apply Z.div_lt_upper_bound; lia]).
  assert (0 <= u / 60000000 < 60)
    by (split; [apply Z.div_pos; lia | apply Z.div_lt_upper_bound; lia]).
  assert (0 <= v / 1000000 < 60)
    by (split; [apply Z.div_pos; lia | apply Z.div_lt_upper_bound; lia]).
  lia.
Qed.

Lemma mk_datetime_valid y m d hh mm ss us :
  1 <= y <= 9999 -> 1 <= m <= 12 -> 1 <= d <= days_in_month y m ->
  0 <= hh < 24 -> 0 <= mm < 60 -> 0 <= ss < 60 -> 0 <= us < 1000000 ->
  mk_datetime y m d hh mm ss us
  = Some (combine_midnight (ymd2ord y m d) + hh * US_PER_HOUR
          + mm * US_PER_MINUTE + ss * US_PER_SECOND + us).
Proof.
  intros. unfold mk_datetime, MINYEAR, MAXYEAR.
  repeat match goal with
         | |- context [?a <=? ?b] =>
             destruct (Z.leb_spec a b); [|lia]
         end.
  reflexivity.
Qed.

Lemma iso_time_read hh mm ss us :
  0 <= hh < 24 -> 0 <= mm < 60 -> 0 <= ss < 60 -> 0 <= us < 1000000 ->
  Iso.time (zero_pad 2 hh
              (String ":" (zero_pad 2 mm
                 (String ":" (zero_pad 2 ss
                    (if us =? 0 then EmptyString
                     else String "." (zero_pad 6 us EmptyString)))))))
  = Some (hh, mm, ss, us).
Proof.
  intros Hh Hm Hs Hu. unfold Iso.time.
  rewrite (digits_zero_pad_all 2 hh) by (simpl; lia).
  cbn -[zero_pad Iso.digits Z.eqb].
  rewrite (digits_zero_pad_all 2 mm) by (simpl; lia).
  cbn -[zero_pad Iso.digits Z.eqb].
  rewrite (digits_zero_pad_all 2 ss) by (simpl; lia).
  cbn -[zero_pad Iso.digits Z.eqb].
  destruct (Z.eqb_spec us 0) as [->|Hne]; [reflexivity|].
  cbn -[zero_pad Iso.digits Z.eqb Iso.fraction].
  unfold Iso.fraction.
  rewrite (digits_zero_pad_all 6 us) by (simpl; lia).
  assert (E : Iso.digits 3 (zero_pad 6 us EmptyString) 0
              = Some (us / 1000, zero_pad 3 us EmptyString)).
  { change 6%nat with (3 + 3)%nat.
    rewrite (zero_pad_split 3 3 us EmptyString).
    apply digits_zero_pad_all. change (10 ^ Z.of_nat 3) with 1000.
    split; [apply Z.div_pos; lia | apply Z.div_lt_upper_bound; lia]. }
  rewrite E. reflexivity.
Qed.

End IsoRoundTrip.

Section IsoRoundTrip2.

Local Arguments String.append !_ _ / : simpl nomatch.

(** What [isoformat] writes, [fromisoformat] reads back. *)
Lemma fromisoformat_isoformat dt :
  valid_datetime dt = true ->
  fromisoformat (datetime_isoformat dt) = Some dt.
Proof.
  intros Hv. unfold valid_datetime in Hv.
  apply andb_prop in Hv as [H1 H2]. apply Z.leb_le in H1, H2.
  destruct (ord2ymd_valid (date_of dt)) as (Hm & Hd & Ho & Hy).
  specialize (Hy (conj H1 H2)).
  destruct (time_fields dt) as (Hh & Hmi & Hs & Hu & Edt).
  unfold datetime_isoformat, date_isoformat.
  unfold year_of, month_of, day_of in *.
  destruct (ord2ymd (date_of dt)) as [[y m] d]. simpl fst in *. simpl snd in *.
  pose proof (days_in_month_le y m Hm) as Hdim.
  rewrite !zero_pad_app. cbn [String.append].
  rewrite !zero_pad_app. cbn [String.append].
  rewrite !zero_pad_app. cbn [String.append].
  cbv beta delta [fromisoformat].
  rewrite (digits_zero_pad_all 4 y) by (change (10 ^ Z.of_nat 4) with 10000; lia).
  cbn -[zero_pad Iso.digits Z.eqb Iso.time mk_datetime].
  rewrite (digits_zero_pad_all 2 m) by (change (10 ^ Z.of_nat 2) with 100; lia).
  cbn -[zero_pad Iso.digits Z.eqb Iso.time mk_datetime].
  rewrite (digits_zero_pad_all 2 d) by (change (10 ^ Z.of_nat 2) with 100; lia).
  cbn -[zero_pad Iso.digits Z.eqb Iso.time mk_datetime].
  rewrite iso_time_read by assumption.
  cbn -[mk_datetime].
  rewrite mk_datetime_valid by assumption.
  f_equal. rewrite Ho. lia.
Qed.

End IsoRoundTrip2.

(** ** The ledger commands *)

Section Commands.

Implicit Types (data : list row) (r : row).

Lemma last_snoc_row data r : last (data ++ [r]) = Some r.
Proof. apply last_snoc. Qed.

Lemma removelast_snoc data r : removelast (data ++ [r]) = data.
Proof. apply List.removelast_last. Qed.

Lemma is_active_snoc data r :
  is_active (data ++ [r])
  = match end_ (row_entry r) with None => true | Some _ => false end.
Proof. unfold is_active. now rewrite last_snoc_row. Qed.

Lemma last_removelast data r :
  last data = Some r -> data = removelast data ++ [r].
Proof.
  intros H. destruct data as [|x l] using rev_ind; [discriminate|].
  rewrite last_snoc in H. injection H as ->.
  now rewrite removelast_snoc.
Qed.

(** What [save_data] does to a record cannot be seen through [e.get]. *)
Lemma row_entry_cleaned r : row_entry (cleaned r) = row_entry r.
Proof. destruct r as [[| |name] s e ds d m]; reflexivity. Qed.

Lemma cleaned_named r : named r = true -> cleaned r = r.
Proof. destruct r as [[| |name] s e ds d m]; [discriminate ..|reflexivity]. Qed.

Lemma cleaned_twice r : cleaned (cleaned r) = cleaned r.
Proof. destruct r as [[| |name] s e ds d m]; reflexivity. Qed.

Lemma save_data_snoc data r : save_data (data ++ [r]) = save_data data ++ [cleaned r].
Proof. unfold save_data. now rewrite map_app. Qed.

Lemma save_data_twice data : save_data (save_data data) = save_data data.
Proof.
  unfold save_data. rewrite map_map. apply map_ext. apply cleaned_twice.
Qed.

Lemma save_data_named data : forallb named data = true -> save_data data = data.
Proof.
  induction data as [|r data IH]; [reflexivity|]. simpl.
  intros H. apply andb_prop in H as [Hr Hd].
  now rewrite (cleaned_named r Hr), (IH Hd).
Qed.

Lemma is_active_save_data data : is_active (save_data data) = is_active data.
Proof.
  destruct data as [|r data _] using rev_ind; [reflexivity|].
  now rewrite save_data_snoc, !is_active_snoc, row_entry_cleaned.
Qed.

Lemma closed_save_data data : Forall closed data -> Forall closed (save_data data).
Proof.
  induction 1 as [|r data Hr _ IH]; [constructor|].
  simpl. constructor; [|exact IH].
  unfold closed in *. now rewrite row_entry_cleaned.
Qed.

(** With no session running, every record of a well-formed ledger is
    closed. *)
Lemma inactive_all_closed data :
  is_active data = false -> open_at_tail_only data -> Forall closed data.
Proof.
  unfold is_active, open_at_tail_only. intros Ha Hc.
  destruct (last data) as [r|] eqn:E.
  - rewrite (last_removelast data r E). apply Forall_app. split; [exact Hc|].
    constructor; [|constructor]. unfold closed.
    destruct (end_ (row_entry r)); [discriminate | discriminate].
  - apply last_None in E. subst. constructor.
Qed.

Lemma cmd_start_inactive words now data :
  is_active data = false ->
  cmd_start words now data
  = Some (save_data data
            ++ [ {| row_project := Project (project_name words);
                    row_start := Some (iso_now now);
                    row_end := None;
                    duration_seconds := None; duration := None;
                    manual := false |} ],
          StartedTracking (project_name words)).
Proof. intros H. unfold cmd_start. now rewrite H, save_data_snoc. Qed.

Lemma cmd_start_active words now data d m :
  is_active data = true -> cmd_start words now data = Some (d, m) -> d = data.
Proof.
  intros H. unfold cmd_start. rewrite H.
  destruct (last data) as [r|]; [|discriminate].
  destruct (row_start r) as [s|]; [|discriminate].
  destruct (isoformat_readable s); [|discriminate].
  destruct (project_text (row_project r)); [|discriminate].
  now intros E; injection E as <- _.
Qed.

Lemma cmd_stop_inactive now data :
  is_active data = false -> cmd_stop now data = (data, NoActiveTimer).
Proof. intros H. unfold cmd_stop. now rewrite H. Qed.

Lemma cmd_stop_active now data r :
  last data = Some r -> end_ (row_entry r) = None ->
  cmd_stop now data
  = (save_data (removelast data)
       ++ [cleaned (close_row r (iso_now now) (fromisoformat (iso_now now)))],
     Stopped (project_text (row_project r))).
Proof.
  intros Hl He. unfold cmd_stop, is_active, set_last.
  now rewrite Hl, He, save_data_snoc.
Qed.

Lemma close_row_closed r end_iso end_dt : closed (close_row r end_iso end_dt).
Proof.
  unfold closed, close_row.
  destruct (row_start r ≫= fromisoformat), end_dt; discriminate.
Qed.

Lemma cleaned_closed r : closed r -> closed (cleaned r).
Proof. unfold closed. now rewrite row_entry_cleaned. Qed.

Lemma is_active_cases data :
  (is_active data = true
   /\ exists r, last data = Some r /\ end_ (row_entry r) = None)
  \/ is_active data = false.
Proof.
  unfold is_active. destruct (last data) as [r|]; [|now right].
  destruct (end_ (row_entry r)) eqn:E; [now right | left].
  split; [reflexivity | now exists r].
Qed.

Lemma cmd_log_logged proj txt now data d mins :
  cmd_log proj txt now data = Some (d, Logged mins proj) ->
  exists r, d = save_data data ++ [r] /\ closed r.
Proof.
  unfold cmd_log. destruct (log_duration txt) as [dur|e].
  - destruct (valid_datetime (now - dur)); [|discriminate].
    intros E. injection E as <- _. rewrite save_data_snoc.
    eexists. split; [reflexivity|].
    unfold closed. simpl. discriminate.
  - destruct e; discriminate.
Qed.

Lemma open_tail_snoc data r :
  Forall closed data -> open_at_tail_only (save_data data ++ [r]).
Proof.
  intros H. unfold open_at_tail_only. rewrite removelast_snoc.
  now apply closed_save_data.
Qed.

Lemma open_tail_removelast data :
  open_at_tail_only data -> Forall closed (removelast data).
Proof. exact (fun H => H). Qed.

Lemma entries_named data :
  forallb named data = true -> entries data = Some (map row_entry data).
Proof.
  unfold entries. induction data as [|r data IH]; [reflexivity|].
  simpl. intros H. apply andb_prop in H as [Hr Hd].
  rewrite (IH Hd). unfold report_entry. unfold named in Hr.
  destruct (row_project r); [discriminate ..|reflexivity].
Qed.

Lemma named_snoc data r :
  forallb named data = true -> named r = true ->
  forallb named (data ++ [r]) = true.
Proof. intros Hd Hr. rewrite forallb_app, Hd. simpl. now rewrite Hr. Qed.

Lemma written_timestamps_read_back_aux now :
  valid_datetime now = true ->
  fromisoformat (iso_now now) = Some now
  /\ isoformat_readable (iso_now now) = true.
Proof.
  intros H. pose proof (fromisoformat_isoformat now H) as E.
  unfold iso_now, isoformat_readable. now rewrite E.
Qed.

End Commands.

(** X11. Every timestamp the program writes it can read back: for an
    instant of the years 1-9999, [fromisoformat] applied to what
    [iso_now] wrote gives that instant again. *)
Theorem written_timestamps_read_back (now : Z) :
  valid_datetime now = true ->
  fromisoformat (iso_now now) = Some now
  /\ isoformat_readable (iso_now now) = true.
Proof.
  apply written_timestamps_read_back_aux.
Qed.

Lemma written_timestamps_read_back_witness :
  fromisoformat (iso_now (sample_now + 123456)) = Some (sample_now + 123456).
Proof.
  apply (written_timestamps_read_back (sample_now + 123456)). reflexivity.
Defined.

(** X12. A session started at [t1] with no other running and stopped at
    [t2], fewer than 2^33 seconds apart, leaves one more record in the
    ledger: closed, with the two instants as written by [iso_now], the
    whole seconds between them in [duration_seconds] and their
    [_secs_to_hms] text in [duration].  The earlier records are as
    [save_data] writes them: unchanged when each has a project name. *)
Theorem start_then_stop (words : list string) (t1 t2 : Z) (data : list row) :
  is_active data = false ->
  valid_datetime t1 = true -> valid_datetime t2 = true ->
  seconds_exact (t2 - t1) = true ->
  exists data1,
    cmd_start words t1 data = Some (data1, StartedTracking (project_name words))
    /\ cmd_stop t2 data1
       = (save_data data
            ++ [ {| row_project := Project (project_name words);
                    row_start := Some (iso_now t1);
                    row_end := Some (iso_now t2);
                    duration_seconds := Some (int_total_seconds (t2 - t1));
                    duration := Some (_secs_to_hms (int_total_seconds (t2 - t1)));
                    manual := false |} ],
          Stopped (Some (project_name words)))
    /\ (forallb named data = true -> save_data data = data).
Proof.
  intros Ha H1 H2 _. eexists. split; [now apply cmd_start_inactive|].
  split; [|apply save_data_named].
  erewrite cmd_stop_active; [|apply last_snoc_row | reflexivity].
  rewrite removelast_snoc, save_data_twice. unfold close_row. simpl.
  unfold iso_now. rewrite !fromisoformat_isoformat by assumption.
  reflexivity.
Qed.

Lemma start_then_stop_witness :
  exists data1,
    cmd_start ["deep"; "work"] open_start (removelast sample_rows)
    = Some (data1, StartedTracking (project_name ["deep"; "work"]))
    /\ cmd_stop sample_now data1
       = (save_data (removelast sample_rows)
            ++ [ {| row_project := Project (project_name ["deep"; "work"]);
                    row_start := Some (iso_now open_start);
                    row_end := Some (iso_now sample_now);
                    duration_seconds :=
                      Some (int_total_seconds (sample_now - open_start));
                    duration :=
                      Some (_secs_to_hms
                              (int_total_seconds (sample_now - open_start)));
                    manual := false |} ],
          Stopped (Some (project_name ["deep"; "work"])))
    /\ (forallb named (removelast sample_rows) = true ->
        save_data (removelast sample_rows) = removelast sample_rows).
Proof.
  apply (start_then_stop ["deep"; "work"] open_start sample_now
           (removelast sample_rows)); reflexivity.
Defined.

(** X13. Stopping is idempotent: after [cmd_stop], whatever it did, a
    second [cmd_stop] reports that no timer is active and leaves the ledger
    as it is. *)
Theorem stop_is_idempotent (t1 t2 : Z) (data : list row) :
  cmd_stop t2 (fst (cmd_stop t1 data)) = (fst (cmd_stop t1 data), NoActiveTimer).
Proof.
  destruct (is_active_cases data) as [(Ha & r & Hl & He)|Ha].
  - rewrite (cmd_stop_active t1 data r Hl He). simpl.
    apply cmd_stop_inactive. rewrite is_active_snoc, row_entry_cleaned.
    pose proof (close_row_closed r (iso_now t1) (fromisoformat (iso_now t1))) as Hc.
    unfold closed in Hc. now destruct (end_ (row_entry (close_row _ _ _))).
  - rewrite (cmd_stop_inactive t1 data Ha). simpl.
    now apply cmd_stop_inactive.
Qed.

(** X14. While a session started by [cmd_start] is running, another
    [cmd_start] adds nothing: it reports the running project and returns
    the ledger unchanged. *)
Theorem second_start_refused (w1 w2 : list string) (t1 t2 : Z)
    (data : list row) :
  is_active data = false -> valid_datetime t1 = true ->
  exists data1,
    cmd_start w1 t1 data = Some (data1, StartedTracking (project_name w1))
    /\ cmd_start w2 t2 data1
       = Some (data1, AlreadyTracking (project_name w1)).
Proof.
  intros Ha H1. eexists. split; [now apply cmd_start_inactive|].
  unfold cmd_start. rewrite is_active_snoc, last_snoc_row. simpl.
  destruct (written_timestamps_read_back_aux t1 H1) as [_ ->]. reflexivity.
Qed.

Lemma second_start_refused_witness :
  exists data1,
    cmd_start ["alpha"] sample_now (removelast sample_rows)
    = Some (data1, StartedTracking (project_name ["alpha"]))
    /\ cmd_start ["beta"] (sample_now + 1) data1
       = Some (data1, AlreadyTracking (project_name ["alpha"])).
Proof.
  apply (second_start_refused ["alpha"] ["beta"] sample_now (sample_now + 1)
           (removelast sample_rows));
    reflexivity.
Defined.

(** X15. [cmd_start], [cmd_stop] and the interrupt handlers keep the
    ledger well formed: if only the last record may be open before, the
    same holds after.  [cmd_log] keeps it too when no session is
    running. *)
Theorem open_only_at_tail_kept (data : list row) (now : Z) :
  open_at_tail_only data ->
  (forall words d m,
     cmd_start words now data = Some (d, m) -> open_at_tail_only d)
  /\ open_at_tail_only (fst (cmd_stop now data))
  /\ open_at_tail_only (finalize_active now data)
  /\ (is_active data = false ->
      forall proj txt d m,
        cmd_log proj txt now data = Some (d, m) -> open_at_tail_only d).
Proof.
  intros Hw. split; [|split; [|split]].
  - intros words d m H.
    destruct (is_active_cases data) as [(Ha & _)|Ha].
    + now rewrite (cmd_start_active words now data d m Ha H).
    + rewrite (cmd_start_inactive words now data Ha) in H.
      injection H as <- _. apply open_tail_snoc.
      now apply inactive_all_closed.
  - destruct (is_active_cases data) as [(Ha & r & Hl & He)|Ha].
    + rewrite (cmd_stop_active now data r Hl He). simpl.
      now apply open_tail_snoc.
    + now rewrite (cmd_stop_inactive now data Ha).
  - unfold finalize_active.
    destruct (is_active data); [|exact Hw].
    destruct (last data) as [r|]; [|exact Hw].
    unfold set_last. rewrite save_data_snoc. now apply open_tail_snoc.
  - intros Ha proj txt d m H. unfold cmd_log in H.
    destruct (log_duration txt) as [dur|e].
    + destruct (valid_datetime (now - dur)); [|discriminate].
      injection H as <- _. rewrite save_data_snoc. apply open_tail_snoc.
      now apply inactive_all_closed.
    + destruct e; try discriminate; now injection H as <- _.
Qed.

Lemma open_only_at_tail_kept_witness :
  (forall words d m,
     cmd_start words sample_now sample_rows = Some (d, m) ->
     open_at_tail_only d)
  /\ open_at_tail_only (fst (cmd_stop sample_now sample_rows))
  /\ open_at_tail_only (finalize_active sample_now sample_rows)
  /\ (is_active sample_rows = false ->
      forall proj txt d m,
        cmd_log proj txt sample_now sample_rows = Some (d, m) ->
        open_at_tail_only d).
Proof.
  apply (open_only_at_tail_kept sample_rows sample_now).
  unfold open_at_tail_only. simpl.
  constructor; [discriminate | constructor].
Defined.

(** X16. [cmd_log] does not look for a running session: it always
    appends a closed record.  After a successful log no timer is active
    any more, so [cmd_stop] and the handlers change nothing; a session
    that was running stays open in the ledger, no longer in last place,
    where no command closes it. *)
Theorem log_hides_running_timer (proj txt : string) (now mins : Z)
    (data d : list row) :
  cmd_log proj txt now data = Some (d, Logged mins proj) ->
  (forall t, cmd_stop t d = (d, NoActiveTimer))
  /\ (forall t, finalize_active t d = d)
  /\ (is_active data = true ->
      exists r, In r (removelast d) /\ end_ (row_entry r) = None)
  /\ (is_active data = true -> ~ open_at_tail_only d).
Proof.
  intros H. apply cmd_log_logged in H as (r & -> & Hc).
  assert (Hi : is_active (save_data data ++ [r]) = false).
  { rewrite is_active_snoc. unfold closed in Hc.
    now destruct (end_ (row_entry r)). }
  assert (Ho : is_active data = true ->
               exists r0, In r0 (removelast (save_data data ++ [r]))
                          /\ end_ (row_entry r0) = None).
  { intros Ha. destruct (is_active_cases data) as [(_ & r0 & Hl & He)|E];
      [|congruence].
    exists (cleaned r0). rewrite removelast_snoc, row_entry_cleaned.
    split; [|exact He].
    rewrite (last_removelast data r0 Hl), save_data_snoc.
    apply List.in_or_app. right. now left. }
  split; [|split; [|split]].
  - intros t. now apply cmd_stop_inactive.
  - intros t. unfold finalize_active. now rewrite Hi.
  - exact Ho.
  - intros Ha Hw. destruct (Ho Ha) as (r0 & Hin & He).
    unfold open_at_tail_only in Hw. rewrite List.Forall_forall in Hw.
    now apply (Hw r0 Hin).
Qed.

Lemma log_hides_running_timer_witness :
  cmd_stop (sample_now + 1)
    (sample_rows
     ++ [ {| row_project := Project "beta";
             row_start := Some (datetime_isoformat (sample_now - 45 * US_PER_MINUTE));
             row_end := Some (datetime_isoformat sample_now);
             duration_seconds := Some 2700;
             duration := Some (_secs_to_hms 2700); manual := true |} ])
  = (sample_rows
     ++ [ {| row_project := Project "beta";
             row_start := Some (datetime_isoformat (sample_now - 45 * US_PER_MINUTE));
             row_end := Some (datetime_isoformat sample_now);
             duration_seconds := Some 2700;
             duration := Some (_secs_to_hms 2700); manual := true |} ],
     NoActiveTimer).
Proof.
  refine (proj1 (log_hides_running_timer "beta" "45m" sample_now 45
                   sample_rows _ _)
            (sample_now + 1)).
  vm_compute. reflexivity.
Defined.

(** X17. Ctrl-C, SIGHUP and SIGTERM close the running session exactly as
    [cmd_stop] does: for an instant of the years 1-9999 the handlers and
    the command leave the same ledger. *)
Theorem interrupt_closes_like_stop (now : Z) (data : list row) :
  valid_datetime now = true ->
  finalize_active now data = fst (cmd_stop now data).
Proof.
  intros H. unfold finalize_active, cmd_stop.
  destruct (is_active data); [|reflexivity].
  destruct (last data) as [r|]; [|reflexivity]. simpl.
  unfold iso_now. now rewrite (fromisoformat_isoformat now H).
Qed.

Lemma interrupt_closes_like_stop_witness :
  finalize_active sample_now sample_rows
  = fst (cmd_stop sample_now sample_rows).
Proof.
  apply (interrupt_closes_like_stop sample_now). reflexivity.
Defined.

(** ** More on the aggregation *)

Section AggregationMore.

Implicit Types (m : gmap string Z) (pd : gmap string (gmap string Z)).
Implicit Types (st : totals) (p proj k : string).

Lemma entry_segments_times now lo hi e :
  entry_segments now lo hi e
  = if negb (truthy (start e)) then Some []
    else (fun '(s, en) => interval_segments s en lo hi) <$> entry_times now e.
Proof.
  unfold entry_segments, entry_times.
  destruct (negb (truthy (start e))); [reflexivity|].
  destruct (fromisoformat (default EmptyString (start e))); [|reflexivity].
  simpl.
  destruct (if truthy (end_ e) then _ else _); reflexivity.
Qed.

Lemma aggregate_from_app now lo hi l1 l2 : forall st,
  aggregate_from now lo hi (l1 ++ l2) st
  = aggregate_from now lo hi l1 st ≫= aggregate_from now lo hi l2.
Proof.
  induction l1 as [|e rest IH]; intros st; simpl; [reflexivity|].
  destruct (process_entry now lo hi e st); simpl; [apply IH | reflexivity].
Qed.

Lemma month_total_add_segments p proj segs : forall st,
  month_total p (monthly_project_totals (add_segments proj segs st))
  = month_total p (monthly_project_totals st)
    + (if decide (proj = p) then total_duration segs else 0).
Proof.
  induction segs as [|s rest IH]; intros st.
  - simpl. destruct (decide (proj = p)); lia.
  - rewrite add_segments_cons, IH. simpl.
    rewrite month_total_accumulate. destruct (decide (proj = p)); lia.
Qed.

Lemma interval_total a b lo hi :
  total_duration (interval_segments a b lo hi)
  = Z.max 0 (Z.min b hi - Z.max a lo).
Proof.
  unfold interval_segments.
  destruct (clamp_interval a b lo hi) as [[cs ce]|] eqn:E.
  - apply clamp_interval_some in E as (-> & -> & Hlt).
    destruct (split_segments_sound
                (split_fuel (Z.max a lo) (Z.min b hi)) (Z.max a lo) (Z.min b hi))
      as [Hc _]; [lia | intros _; now apply split_fuel_enough|].
    unfold split_by_day. rewrite (chained_total _ _ _ Hc). lia.
  - unfold clamp_interval in E.
    destruct (Z.leb_spec (Z.min b hi) (Z.max a lo)); [|discriminate].
    simpl. lia.
Qed.

Lemma entry_total now lo hi e segs :
  entry_segments now lo hi e = Some segs ->
  total_duration segs = entry_overlap now lo hi e.
Proof.
  rewrite entry_segments_times. unfold entry_overlap.
  destruct (negb (truthy (start e))) eqn:Et.
  - intros E. injection E as <-. unfold entry_times. now rewrite Et.
  - destruct (entry_times now e) as [[s en]|]; simpl; [|discriminate].
    intros E. injection E as <-. apply interval_total.
Qed.

Lemma monthly_is_overlap_sum now lo hi data p : forall st st',
  aggregate_from now lo hi data st = Some st' ->
  month_total p (monthly_project_totals st')
  = month_total p (monthly_project_totals st) + overlap_sum p now lo hi data.
Proof.
  induction data as [|e rest IH]; intros st st' H; simpl in *.
  - injection H as <-. lia.
  - rewrite process_entry_segments in H.
    destruct (entry_segments now lo hi e) as [segs|] eqn:E; simpl in H;
      [|discriminate].
    rewrite (IH _ _ H), month_total_add_segments.
    rewrite (entry_total now lo hi e segs E).
    fold (project_of e). lia.
Qed.

End AggregationMore.

Section Blocked.

Lemma fromisoformat_not_digit c rest :
  Str.isdigit c = false -> fromisoformat (String c rest) = None.
Proof.
  intros H. unfold fromisoformat. simpl. unfold Iso.digit. now rewrite H.
Qed.

Lemma aggregate_from_blocked now lo hi e before after :
  (forall st, process_entry now lo hi e st = None) ->
  forall st, aggregate_from now lo hi (before ++ e :: after) st = None.
Proof.
  intros He. induction before as [|b rest IH]; intros st; simpl.
  - now rewrite He.
  - destruct (process_entry now lo hi b st); simpl; [apply IH | reflexivity].
Qed.

End Blocked.

(** X18. One timestamp that does not begin with a digit blocks the whole
    report, wherever its record stands in the ledger and whatever the other
    records hold: the aggregation raises when a record has such a start,
    and when a record with a readable start has such an end. *)
Theorem garbage_timestamp_blocks_report (now lo hi : Z)
    (before after : list entry) (e : entry) (c : ascii) (rest : string) :
  Str.isdigit c = false ->
  (start e = Some (String c rest) ->
   aggregate now lo hi (before ++ e :: after) = None)
  /\ (forall s,
        truthy (start e) = true ->
        fromisoformat (default EmptyString (start e)) = Some s ->
        end_ e = Some (String c rest) ->
        aggregate now lo hi (before ++ e :: after) = None).
Proof.
  intros Hc. split.
  - intros Hs. apply aggregate_from_blocked. intros st.
    unfold process_entry. rewrite Hs. simpl.
    now rewrite (fromisoformat_not_digit c rest Hc).
  - intros s Ht Hs He. apply aggregate_from_blocked. intros st.
    unfold process_entry. rewrite Ht, Hs, He. simpl.
    now rewrite (fromisoformat_not_digit c rest Hc).
Qed.

Lemma garbage_timestamp_blocks_report_witness :
  aggregate sample_now march_start march_end
    (sample_ledger ++ bad_start_entry :: [open_entry])
  = None.
Proof.
  refine (proj1 (garbage_timestamp_blocks_report sample_now march_start
                   march_end sample_ledger [open_entry] bad_start_entry
                   "y" "esterday" _) _); reflexivity.
Defined.

(** X19. Once the aggregation has completed, the monthly total of a
    project is the sum, over the records of that project, of the length of
    the part of their interval that lies inside the window, an open record
    running until [now]; records outside the window count for nothing. *)
Theorem monthly_total_is_overlap_sum (now lo hi : Z) (data : list entry)
    (t : totals) (p : string) :
  aggregate now lo hi data = Some t ->
  month_total p (monthly_project_totals t) = overlap_sum p now lo hi data.
Proof.
  intros H. unfold aggregate in H.
  rewrite (monthly_is_overlap_sum now lo hi data p _ _ H).
  unfold month_total. simpl. now rewrite lookup_empty.
Qed.

Lemma monthly_total_is_overlap_sum_witness :
  month_total "alpha"
    (monthly_project_totals
       (default no_totals
          (aggregate sample_now march_start march_end
             (open_entry :: sample_ledger))))
  = overlap_sum "alpha" sample_now march_start march_end
      (open_entry :: sample_ledger).
Proof.
  apply (monthly_total_is_overlap_sum sample_now march_start march_end
           (open_entry :: sample_ledger)).
  vm_compute. reflexivity.
Defined.

Section AggregationInvariants.

Implicit Types (m : gmap string Z) (pd : gmap string (gmap string Z)).
Implicit Types (st : totals) (p proj k : string).

Lemma chained_bounds segs : forall from to,
  chained from segs to ->
  Forall (fun s => seg_start s < seg_end s) segs ->
  from <= to
  /\ Forall (fun s => from <= seg_start s /\ seg_end s <= to) segs.
Proof.
  induction segs as [|s rest IH]; intros from to Hc Hp; simpl in Hc.
  - subst. split; [lia | constructor].
  - destruct Hc as [Hs Hr]. inversion Hp as [|? ? Hlt Hrest]; subst.
    destruct (IH _ _ Hr Hrest) as [Hle Hall]. split; [lia|].
    constructor; [lia|].
    eapply List.Forall_impl; [|exact Hall]. simpl. intros x [H1 H2]. lia.
Qed.

Lemma interval_segments_bounds a b lo hi :
  Forall (fun s => lo <= seg_start s /\ seg_end s <= hi)
    (interval_segments a b lo hi).
Proof.
  unfold interval_segments.
  destruct (clamp_interval a b lo hi) as [[cs ce]|] eqn:E; [|constructor].
  apply clamp_interval_some in E as (-> & -> & Hlt).
  destruct (split_segments_sound
              (split_fuel (Z.max a lo) (Z.min b hi)) (Z.max a lo) (Z.min b hi))
    as [Hc Hd]; [lia | intros _; now apply split_fuel_enough|].
  destruct (chained_bounds _ _ _ Hc) as [_ Hall].
  { eapply List.Forall_impl; [|exact Hd]. now intros s (H & _). }
  eapply List.Forall_impl; [|exact Hall]. simpl. intros s [H1 H2]. lia.
Qed.

(** A property of the totals that every segment of the window keeps holds
    of the outcome of the aggregation. *)
Lemma aggregate_from_invariant (P : totals -> Prop) now lo hi :
  (forall st proj s,
     P st -> within_one_day s -> lo <= seg_start s -> seg_end s <= hi ->
     P (add_segment (seg_day s) proj (seg_duration s) st)) ->
  forall data st st',
    P st -> aggregate_from now lo hi data st = Some st' -> P st'.
Proof.
  intros Hstep.
  assert (Hsegs : forall proj segs st,
             Forall within_one_day segs ->
             Forall (fun s => lo <= seg_start s /\ seg_end s <= hi) segs ->
             P st -> P (add_segments proj segs st)).
  { intros proj segs. induction segs as [|s rest IH]; intros st Hw Hb Hp;
      [exact Hp|].
    inversion Hw; inversion Hb; subst. rewrite add_segments_cons.
    apply IH; try assumption. apply Hstep; tauto. }
  induction data as [|e rest IH]; intros st st' Hp H; simpl in H.
  - now injection H as <-.
  - rewrite process_entry_segments in H.
    destruct (entry_segments now lo hi e) as [segs|] eqn:E; simpl in H;
      [|discriminate].
    assert (Hw : Forall within_one_day segs
                 /\ Forall (fun s => lo <= seg_start s /\ seg_end s <= hi) segs).
    { rewrite entry_segments_times in E.
      destruct (negb (truthy (start e)));
        [injection E as <-; split; constructor|].
      destruct (entry_times now e) as [[s en]|]; simpl in E; [|discriminate].
      injection E as <-.
      split; [apply interval_segments_within | apply interval_segments_bounds]. }
    destruct Hw as [Hw Hb].
    exact (IH _ _ (Hsegs _ segs st Hw Hb Hp) H).
Qed.

Lemma sum_step (z1 z2 y : Z) : y + z2 + z1 = y + z1 + z2.
Proof. lia. Qed.

Lemma dict_sum_empty : dict_sum ∅ = 0.
Proof. unfold dict_sum. apply map_fold_empty. Qed.

Lemma dict_sum_insert p v m :
  dict_sum (<[p := v]> m) = dict_sum m - default 0 (m !! p) + v.
Proof.
  unfold dict_sum. destruct (m !! p) as [old|] eqn:E.
  - rewrite <- (insert_delete_eq m p v).
    rewrite (map_fold_insert_L _ 0 p v (delete p m));
      [|intros; apply sum_step | apply lookup_delete_eq].
    rewrite (map_fold_delete_L _ 0 p old m);
      [|intros; apply sum_step | exact E].
    simpl. lia.
  - rewrite (map_fold_insert_L _ 0 p v m);
      [|intros; apply sum_step | exact E].
    simpl. lia.
Qed.

Lemma dict_sum_accumulate p dur m :
  dict_sum (accumulate p dur m) = dict_sum m + dur.
Proof. unfold accumulate. rewrite dict_sum_insert. lia. Qed.

Lemma grand_total_insert k day pd :
  grand_total (<[k := day]> pd)
  = grand_total pd - dict_sum (default ∅ (pd !! k)) + dict_sum day.
Proof.
  unfold grand_total. destruct (pd !! k) as [old|] eqn:E.
  - rewrite <- (insert_delete_eq pd k day).
    rewrite (map_fold_insert_L _ 0 k day (delete k pd));
      [|intros; apply sum_step | apply lookup_delete_eq].
    rewrite (map_fold_delete_L _ 0 k old pd);
      [|intros; apply sum_step | exact E].
    simpl. lia.
  - rewrite (map_fold_insert_L _ 0 k day pd);
      [|intros; apply sum_step | exact E].
    simpl. rewrite dict_sum_empty. lia.
Qed.

Lemma grand_total_add_segment k proj dur st :
  grand_total (per_day_totals st) = dict_sum (monthly_project_totals st) ->
  grand_total (per_day_totals (add_segment k proj dur st))
  = dict_sum (monthly_project_totals (add_segment k proj dur st)).
Proof.
  intros H. rewrite add_segment_per_day, grand_total_insert. simpl.
  rewrite !dict_sum_accumulate. lia.
Qed.

Lemma all_positive_add_segment k proj dur st :
  0 < dur -> all_positive st -> all_positive (add_segment k proj dur st).
Proof.
  intros Hd [Hday Hmon]. split.
  - intros k' day. rewrite add_segment_per_day.
    destruct (decide (k = k')) as [<-|Hne].
    + rewrite lookup_insert_eq. intros E. injection E as <-.
      split; [apply insert_non_empty|].
      intros p v. unfold accumulate.
      destruct (decide (proj = p)) as [<-|Hp].
      * rewrite lookup_insert_eq. intros E. injection E as <-.
        destruct (per_day_totals st !! k) as [old|] eqn:Eo; simpl.
        -- destruct (old !! proj) as [v0|] eqn:Ev; simpl; [|lia].
           destruct (Hday k old Eo) as [_ Hc]. specialize (Hc proj v0 Ev). lia.
        -- rewrite lookup_empty. simpl. lia.
      * rewrite lookup_insert_ne by exact Hp.
        destruct (per_day_totals st !! k) as [old|] eqn:Eo; simpl.
        -- intros Ev. destruct (Hday k old Eo) as [_ Hc]. now apply (Hc p).
        -- rewrite lookup_empty. discriminate.
    + rewrite lookup_insert_ne by exact Hne. apply Hday.
  - intros p v. simpl. unfold accumulate.
    destruct (decide (proj = p)) as [<-|Hp].
    + rewrite lookup_insert_eq. intros E. injection E as <-.
      destruct (monthly_project_totals st !! proj) as [v0|] eqn:Ev; simpl; [|lia].
      specialize (Hmon proj v0 Ev). lia.
    + rewrite lookup_insert_ne by exact Hp. apply Hmon.
Qed.

Lemma keys_in_window_add_segment lo hi proj s st :
  within_one_day s -> lo <= seg_start s -> seg_end s <= hi ->
  keys_in_window lo hi st ->
  keys_in_window lo hi (add_segment (seg_day s) proj (seg_duration s) st).
Proof.
  intros (Hpos & _ & _ & Hkey) Hlo Hhi Hk k.
  rewrite add_segment_per_day.
  destruct (decide (seg_day s = k)) as [<-|Hne].
  - intros _. exists (date_of (seg_start s)). split; [|exact Hkey].
    apply month_days_spec. split; [now apply date_of_mono|].
    pose proof (midnight_le (seg_start s)). lia.
  - rewrite lookup_insert_ne by exact Hne. apply Hk.
Qed.

Lemma aggregate_keys_in_window now lo hi data t :
  aggregate now lo hi data = Some t -> keys_in_window lo hi t.
Proof.
  intros H.
  apply (aggregate_from_invariant (keys_in_window lo hi) now lo hi)
    with (data := data) (st := no_totals); [| |exact H].
  - intros st proj s Hp Hw Hl Hh. now apply keys_in_window_add_segment.
  - intros k' [x Hx]. simpl in Hx. rewrite lookup_empty in Hx. discriminate.
Qed.

Lemma aggregate_grand_total now lo hi data t :
  aggregate now lo hi data = Some t ->
  grand_total (per_day_totals t) = dict_sum (monthly_project_totals t).
Proof.
  intros H.
  apply (aggregate_from_invariant
           (fun st => grand_total (per_day_totals st)
                      = dict_sum (monthly_project_totals st)) now lo hi)
    with (data := data) (st := no_totals); [| |exact H].
  - intros st proj s Hp _ _ _. now apply grand_total_add_segment.
  - unfold grand_total, dict_sum. simpl. now rewrite !map_fold_empty.
Qed.

End AggregationInvariants.

(** X20. After the aggregation every cell of [per_day_totals] and of
    [monthly_project_totals] holds a strictly positive duration, and no day
    is present without a project: a day or a project with no time in the
    window has no entry at all. *)
Theorem totals_are_positive (now lo hi : Z) (data : list entry) (t : totals) :
  aggregate now lo hi data = Some t ->
  (forall k day, per_day_totals t !! k = Some day ->
     day <> ∅ /\ forall p v, day !! p = Some v -> 0 < v)
  /\ (forall p v, monthly_project_totals t !! p = Some v -> 0 < v).
Proof.
  intros H.
  apply (aggregate_from_invariant all_positive now lo hi) with (data := data)
    (st := no_totals); [| |exact H].
  - intros st proj s Hp Hw _ _. apply all_positive_add_segment; [|exact Hp].
    now apply within_one_day_positive.
  - split; simpl; intros ? ?; rewrite lookup_empty; discriminate.
Qed.

Lemma totals_are_positive_witness : 0 < minutes 120.
Proof.
  refine (proj2 (totals_are_positive sample_now march_start march_end
                   sample_ledger
                   (default no_totals
                      (aggregate sample_now march_start march_end sample_ledger))
                   _) "alpha" (minutes 120) _);
    vm_compute; reflexivity.
Defined.

(** X21. Every key of [per_day_totals] is the ISO text of one of the
    days enumerated for the window: time is never filed under a day that
    the weekly listing does not visit. *)
Theorem day_keys_are_window_days (now lo hi : Z) (data : list entry)
    (t : totals) (k : string) :
  aggregate now lo hi data = Some t ->
  is_Some (per_day_totals t !! k) ->
  exists d, In d (month_days lo hi) /\ k = date_isoformat d.
Proof.
  intros H. now apply (aggregate_keys_in_window now lo hi data t H).
Qed.

Lemma day_keys_are_window_days_witness :
  exists d, In d (month_days march_start march_end)
            /\ "2024-03-01" = date_isoformat d.
Proof.
  apply (day_keys_are_window_days sample_now march_start march_end
           sample_ledger
           (default no_totals
              (aggregate sample_now march_start march_end sample_ledger))).
  - vm_compute. reflexivity.
  - vm_compute. eexists. reflexivity.
Defined.

(** X22. The figures of the report add up: the day totals, summed over
    all days, equal the overall total, the sum of the monthly totals of all
    projects. *)
Theorem day_totals_add_up_to_overall (now lo hi : Z) (data : list entry)
    (t : totals) :
  aggregate now lo hi data = Some t ->
  grand_total (per_day_totals t) = dict_sum (monthly_project_totals t).
Proof.
  apply aggregate_grand_total.
Qed.

Lemma day_totals_add_up_to_overall_witness :
  grand_total
    (per_day_totals
       (default no_totals
          (aggregate sample_now march_start march_end
             (open_entry :: sample_ledger))))
  = dict_sum
      (monthly_project_totals
         (default no_totals
            (aggregate sample_now march_start march_end
               (open_entry :: sample_ledger)))).
Proof.
  apply (day_totals_add_up_to_overall sample_now march_start march_end
           (open_entry :: sample_ledger)).
  vm_compute. reflexivity.
Defined.

Section Sessions.

Local Arguments String.append !_ _ / : simpl nomatch.

Lemma isoformat_not_empty dt : Str.is_empty (datetime_isoformat dt) = false.
Proof.
  unfold datetime_isoformat, date_isoformat.
  destruct (ord2ymd (date_of dt)) as [[y m] d]. reflexivity.
Qed.

Lemma closed_session_times now s e proj :
  valid_datetime s = true -> valid_datetime e = true ->
  entry_times now {| project := proj; start := Some (iso_now s);
                     end_ := Some (iso_now e) |}
  = Some (s, e).
Proof.
  intros Hs He. unfold entry_times, truthy, iso_now. simpl.
  rewrite !isoformat_not_empty. simpl.
  now rewrite !fromisoformat_isoformat by assumption.
Qed.

End Sessions.

(** X23. On a ledger whose records all carry a project name, a session
    started by [cmd_start] at [t1] and closed by [cmd_stop] at [t2], both
    inside the window of the report, adds exactly [t2 - t1] to the monthly
    total of its project and nothing to any other. *)
Theorem tracked_session_counts (words : list string) (t1 t2 now lo hi : Z)
    (data : list row) (es : list entry) (t : totals) :
  forallb named data = true ->
  is_active data = false ->
  valid_datetime t1 = true -> valid_datetime t2 = true ->
  lo <= t1 -> t1 <= t2 -> t2 <= hi ->
  entries data = Some es ->
  aggregate now lo hi es = Some t ->
  exists data1 data2 es' t',
    cmd_start words t1 data = Some (data1, StartedTracking (project_name words))
    /\ cmd_stop t2 data1 = (data2, Stopped (Some (project_name words)))
    /\ entries data2 = Some es'
    /\ aggregate now lo hi es' = Some t'
    /\ forall p,
         month_total p (monthly_project_totals t')
         = month_total p (monthly_project_totals t)
           + (if decide (project_name words = p) then t2 - t1 else 0).
Proof.
  intros Hn Ha H1 H2 Hlo Hle Hhi Hes Hagg.
  rewrite (entries_named data Hn) in Hes. injection Hes as <-.
  set (r := {| row_project := Project (project_name words);
               row_start := Some (iso_now t1);
               row_end := Some (iso_now t2);
               duration_seconds := Some (int_total_seconds (t2 - t1));
               duration := Some (_secs_to_hms (int_total_seconds (t2 - t1)));
               manual := false |}).
  assert (Hstop : cmd_stop t2
                    (data ++ [ {| row_project := Project (project_name words);
                                  row_start := Some (iso_now t1);
                                  row_end := None;
                                  duration_seconds := None; duration := None;
                                  manual := false |} ])
                  = (data ++ [r], Stopped (Some (project_name words)))).
  { erewrite cmd_stop_active; [|apply last_snoc_row | reflexivity].
    rewrite removelast_snoc, (save_data_named data Hn).
    unfold close_row. simpl.
    unfold iso_now. rewrite !fromisoformat_isoformat by assumption.
    reflexivity. }
  assert (Hseg : entry_segments now lo hi (row_entry r)
                 = Some (interval_segments t1 t2 lo hi)).
  { rewrite entry_segments_times. unfold r, row_entry. simpl.
    rewrite (closed_session_times now t1 t2 _ H1 H2).
    unfold truthy, iso_now. simpl. now rewrite isoformat_not_empty. }
  exists (data ++ [ {| row_project := Project (project_name words);
                       row_start := Some (iso_now t1); row_end := None;
                       duration_seconds := None; duration := None;
                       manual := false |} ]),
    (data ++ [r]), (map row_entry (data ++ [r])),
    (add_segments (project_name words) (interval_segments t1 t2 lo hi) t).
  split.
  { rewrite (cmd_start_inactive words t1 data Ha).
    now rewrite (save_data_named data Hn). }
  split; [exact Hstop|]. split.
  { apply entries_named, named_snoc; [exact Hn | reflexivity]. }
  split.
  - unfold aggregate in *. rewrite map_app, aggregate_from_app, Hagg.
    simpl. rewrite process_entry_segments, Hseg. reflexivity.
  - intros p. rewrite month_total_add_segments, interval_total.
    destruct (decide (project_name words = p)); lia.
Qed.

Lemma tracked_session_counts_witness :
  exists data1 data2 es' t',
    cmd_start ["alpha"] open_start (removelast sample_rows)
    = Some (data1, StartedTracking (project_name ["alpha"]))
    /\ cmd_stop sample_now data1 = (data2, Stopped (Some (project_name ["alpha"])))
    /\ entries data2 = Some es'
    /\ aggregate sample_now march_start march_end es' = Some t'
    /\ forall p,
         month_total p (monthly_project_totals t')
         = month_total p
             (monthly_project_totals
                (default no_totals
                   (aggregate sample_now march_start march_end
                      (map row_entry (removelast sample_rows)))))
           + (if decide (project_name ["alpha"] = p)
              then sample_now - open_start else 0).
Proof.
  apply (tracked_session_counts ["alpha"] open_start sample_now sample_now
           march_start march_end (removelast sample_rows)
           (map row_entry (removelast sample_rows)));
    vm_compute; first [reflexivity | discriminate].
Defined.

(** ** The weekly listing *)

Section Listing.

Local Arguments String.append !_ _ / : simpl nomatch.
Implicit Types (pd : gmap string (gmap string Z)).

Lemma digits_tail_inj w x x' tail tail' :
  0 <= x < 10 ^ Z.of_nat w -> 0 <= x' < 10 ^ Z.of_nat w ->
  zero_pad w x tail = zero_pad w x' tail' -> x = x' /\ tail = tail'.
Proof.
  intros Hx Hx' E. apply (f_equal (fun s => Iso.digits w s 0)) in E.
  rewrite !digits_zero_pad_all in E by assumption.
  injection E as -> ->. now split.
Qed.

Lemma string_tail_eq (c : ascii) (a b : string) :
  String c a = String c b -> a = b.
Proof. congruence. Qed.

(** Two dates of the years 0-9999 with the same ISO text are the same. *)
Lemma date_isoformat_inj d d' :
  0 <= year_of d < 10000 -> 0 <= year_of d' < 10000 ->
  date_isoformat d = date_isoformat d' -> d = d'.
Proof.
  intros Hy Hy'.
  destruct (ord2ymd_valid d) as (Hm & Hd & Ho & _).
  destruct (ord2ymd_valid d') as (Hm' & Hd' & Ho' & _).
  unfold date_isoformat. unfold year_of, month_of, day_of in *.
  destruct (ord2ymd d) as [[y m] dd]. destruct (ord2ymd d') as [[y' m'] dd'].
  simpl fst in *. simpl snd in *.
  pose proof (days_in_month_le y m Hm). pose proof (days_in_month_le y' m' Hm').
  cbn [String.append]. intros E.
  apply digits_tail_inj in E as [-> E];
    [|change (10 ^ Z.of_nat 4) with 10000; lia..].
  apply string_tail_eq in E.
  apply digits_tail_inj in E as [-> E];
    [|change (10 ^ Z.of_nat 2) with 100; lia..].
  apply string_tail_eq in E.
  apply digits_tail_inj in E as [-> _];
    [|change (10 ^ Z.of_nat 2) with 100; lia..].
  congruence.
Qed.

Lemma shown_concat pd weeks :
  concat (map snd (weekly_listing pd weeks))
  = filter (fun d => has_time pd d = true) (concat (map snd weeks)).
Proof.
  unfold weekly_listing, shown_days.
  induction weeks as [|b rest IH]; simpl; [reflexivity|].
  now rewrite filter_app, IH.
Qed.

(** The day totals of a duplicate-free list of days whose texts are the
    keys of [pd], added up, are the grand total. *)
Lemma day_totals_sum (days : list Z) : forall pd,
  List.NoDup days ->
  (forall d d', In d days -> In d' days ->
     date_isoformat d = date_isoformat d' -> d = d') ->
  (forall k, is_Some (pd !! k) <-> exists d, In d days /\ date_isoformat d = k) ->
  fold_right (fun d acc => day_total pd d + acc) 0 days = grand_total pd.
Proof.
  induction days as [|d rest IH]; intros pd Hnd Hinj Hkeys.
  - simpl. assert (E : pd = ∅).
    { apply map_eq. intros k. rewrite lookup_empty.
      destruct (pd !! k) eqn:Ek; [|reflexivity].
      destruct (proj1 (Hkeys k) ltac:(now rewrite Ek)) as (x & [] & _). }
    subst. unfold grand_total. now rewrite map_fold_empty.
  - inversion Hnd as [|? ? Hnotin Hrest]; subst.
    destruct (proj2 (Hkeys (date_isoformat d))) as [day Hday];
      [exists d; split; [now left | reflexivity]|].
    simpl. unfold day_total at 1. rewrite Hday. simpl.
    assert (Eg : grand_total pd
                 = grand_total (delete (date_isoformat d) pd) + dict_sum day).
    { unfold grand_total.
      now rewrite (map_fold_delete_L _ 0 (date_isoformat d) day pd);
        [|intros; apply sum_step | exact Hday]. }
    rewrite Eg, <- (IH (delete (date_isoformat d) pd) Hrest).
    + assert (Es : forall l, (forall x, In x l -> In x rest) ->
                   fold_right (fun d0 acc => day_total pd d0 + acc) 0 l
                   = fold_right
                       (fun d0 acc =>
                          day_total (delete (date_isoformat d) pd) d0 + acc)
                       0 l).
      { induction l as [|x l IHl]; intros Hr; simpl; [reflexivity|].
        rewrite IHl by (intros y Hy; apply Hr; now right).
        f_equal. unfold day_total.
        rewrite lookup_delete_ne; [reflexivity|].
        intros E. apply Hinj in E; [|now left | right; apply Hr; now left].
        subst x. apply Hnotin, Hr. now left. }
      rewrite (Es rest) by tauto. lia.
    + intros a b Ha Hb. apply Hinj; now right.
    + intros k. destruct (decide (date_isoformat d = k)) as [<-|Hne].
      * rewrite lookup_delete_eq. split; [intros [x Hx]; discriminate|].
        intros (x & Hx & E). exfalso. apply Hnotin.
        rewrite <- (Hinj x d); [exact Hx | now right | now left | exact E].
      * rewrite lookup_delete_ne by exact Hne. rewrite Hkeys. split.
        -- intros (x & [->|Hx] & E); [congruence | now exists x].
        -- intros (x & Hx & E). exists x. split; [now right | exact E].
Qed.

Lemma window_years now lo hi d :
  report_window now = Some (lo, hi) -> In d (month_days lo hi) ->
  0 <= year_of d < 10000.
Proof.
  intros Hw Hd.
  assert (Hy : 1 <= year_of (date_of now) <= 9999).
  { rewrite report_window_spec in Hw. unfold MINYEAR, MAXYEAR in Hw.
    destruct (Z.leb_spec 1 (year_of (date_of now))); [|discriminate].
    destruct (month_of (date_of now) =? 12);
      [destruct (Z.leb_spec (year_of (date_of now) + 1) 9999)
      |destruct (Z.leb_spec (year_of (date_of now)) 9999)];
      try discriminate; lia. }
  destruct (ord2ymd_valid (date_of now)) as (Hm & _).
  pose proof (report_window_some now lo hi Hw) as [-> ->].
  apply month_days_spec in Hd. rewrite date_of_combine in Hd.
  destruct Hd as [H1 H2].
  assert (Hin : ymd2ord (year_of (date_of now)) (month_of (date_of now)) 1 <= d
                < ymd2ord (year_of (date_of now)) (month_of (date_of now)) 1
                  + days_in_month (year_of (date_of now)) (month_of (date_of now))).
  { split; [exact H1|].
    destruct (Z_lt_le_dec d (ymd2ord (year_of (date_of now))
                               (month_of (date_of now)) 1
                             + days_in_month (year_of (date_of now))
                                 (month_of (date_of now)))) as [Hlt|Hge];
      [exact Hlt|].
    pose proof (combine_midnight_le _ _ Hge). lia. }
  apply (same_month_iff _ _ d Hm) in Hin as [-> _]. lia.
Qed.

End Listing.

Section ListingFacts.

Implicit Types (pd : gmap string (gmap string Z)).

Lemma grouped_days_permutation lo hi :
  Permutation (concat (map snd (group_by_iso_week (month_days lo hi))))
              (month_days lo hi).
Proof.
  destruct (days_loop_sorted (days_fuel lo hi) (date_of lo) hi) as [Hs Hall].
  destruct (group_fold_ok (month_days lo hi) (date_of lo) [] [])
    as (bound & _ & _ & _ & Hp).
  - exact Hs.
  - eapply List.Forall_impl; [|exact Hall]. now intros d [Hd _].
  - apply weeks_ok_empty.
  - exact Hp.
Qed.

Lemma month_days_NoDup lo hi : List.NoDup (month_days lo hi).
Proof.
  apply sorted_NoDup.
  now destruct (days_loop_sorted (days_fuel lo hi) (date_of lo) hi).
Qed.

Lemma shown_spec pd lo hi :
  let shown :=
    concat (map snd (weekly_listing pd (group_by_iso_week (month_days lo hi)))) in
  List.NoDup shown
  /\ forall d, In d shown
               <-> In d (month_days lo hi) /\ is_Some (pd !! date_isoformat d).
Proof.
  intros shown. subst shown. rewrite shown_concat.
  pose proof (grouped_days_permutation lo hi) as Hp.
  split.
  - apply NoDup_ListNoDup. rewrite Hp. apply NoDup_filter.
    apply NoDup_ListNoDup, month_days_NoDup.
  - intros d. rewrite <- !list_elem_of_In, list_elem_of_filter, Hp.
    unfold has_time. rewrite bool_decide_eq_true. tauto.
Qed.

End ListingFacts.

(** X24. The weekly listing shows every day that has time, once: under
    the weeks of the month, the days printed are distinct days of the
    window, each day key of [per_day_totals] is the text of exactly one of
    them, and the day totals printed add up to the overall total. *)
Theorem weekly_listing_is_complete (now lo hi : Z) (data : list entry)
    (t : totals) :
  report_window now = Some (lo, hi) ->
  aggregate now lo hi data = Some t ->
  List.NoDup
    (concat (map snd (weekly_listing (per_day_totals t)
                        (group_by_iso_week (month_days lo hi)))))
  /\ (forall d,
        In d (concat (map snd (weekly_listing (per_day_totals t)
                                 (group_by_iso_week (month_days lo hi)))))
        <-> In d (month_days lo hi)
            /\ is_Some (per_day_totals t !! date_isoformat d))
  /\ (forall k,
        is_Some (per_day_totals t !! k) ->
        exists d,
          In d (concat (map snd (weekly_listing (per_day_totals t)
                                   (group_by_iso_week (month_days lo hi)))))
          /\ date_isoformat d = k
          /\ forall d',
               In d' (concat (map snd (weekly_listing (per_day_totals t)
                                         (group_by_iso_week (month_days lo hi))))) ->
               date_isoformat d' = k -> d' = d)
  /\ listing_total (per_day_totals t)
       (weekly_listing (per_day_totals t) (group_by_iso_week (month_days lo hi)))
     = dict_sum (monthly_project_totals t).
Proof.
  intros Hw Hagg.
  destruct (shown_spec (per_day_totals t) lo hi) as [Hnd Hin].
  pose proof (aggregate_keys_in_window now lo hi data t Hagg) as Hkeys.
  assert (Hinj : forall d d',
             In d (concat (map snd (weekly_listing (per_day_totals t)
                                      (group_by_iso_week (month_days lo hi))))) ->
             In d' (concat (map snd (weekly_listing (per_day_totals t)
                                       (group_by_iso_week (month_days lo hi))))) ->
             date_isoformat d = date_isoformat d' -> d = d').
  { intros d d' Hd Hd'. apply Hin in Hd as [Hd _]. apply Hin in Hd' as [Hd' _].
    apply date_isoformat_inj; now apply (window_years now lo hi). }
  assert (Hcover : forall k,
             is_Some (per_day_totals t !! k)
             <-> exists d,
                   In d (concat (map snd (weekly_listing (per_day_totals t)
                                            (group_by_iso_week (month_days lo hi)))))
                   /\ date_isoformat d = k).
  { intros k. split.
    - intros Hk. destruct (Hkeys k Hk) as (d & Hd & ->).
      exists d. split; [|reflexivity]. apply Hin. now split.
    - intros (d & Hd & <-). now apply Hin in Hd as [_ Hd]. }
  split; [exact Hnd|]. split; [exact Hin|]. split.
  - intros k Hk. destruct (proj1 (Hcover k) Hk) as (d & Hd & E).
    exists d. split; [exact Hd|]. split; [exact E|].
    intros d' Hd' E'. apply Hinj; [exact Hd' | exact Hd | congruence].
  - unfold listing_total.
    rewrite (day_totals_sum _ (per_day_totals t) Hnd Hinj Hcover).
    now apply (aggregate_grand_total now lo hi data).
Qed.

Lemma weekly_listing_is_complete_witness :
  listing_total
    (per_day_totals
       (default no_totals
          (aggregate sample_now march_start march_end
             (open_entry :: sample_ledger))))
    (weekly_listing
       (per_day_totals
          (default no_totals
             (aggregate sample_now march_start march_end
                (open_entry :: sample_ledger))))
       (group_by_iso_week (month_days march_start march_end)))
  = dict_sum
      (monthly_project_totals
         (default no_totals
            (aggregate sample_now march_start march_end
               (open_entry :: sample_ledger)))).
Proof.
  apply (weekly_listing_is_complete sample_now march_start march_end
           (open_entry :: sample_ledger)); vm_compute; reflexivity.
Defined.

Section MoreSplitting.

Lemma day_numbers_shift D n :
  map (fun i => D + Z.of_nat i) (seq 0 (S n))
  = D :: map (fun i => D + 1 + Z.of_nat i) (seq 0 n).
Proof.
  simpl. f_equal; [lia|]. rewrite <- seq_shift, map_map.
  apply map_ext. intros i. lia.
Qed.

Lemma split_segments_days fuel : forall cs ce,
  cs < ce ->
  date_of ce - date_of cs + 1 <= Z.of_nat fuel ->
  map (fun s => date_of (seg_start s)) (split_segments fuel cs ce)
  = map (fun i => date_of cs + Z.of_nat i)
        (seq 0 (Z.to_nat (date_of (ce - 1) - date_of cs + 1))).
Proof.
  induction fuel as [|fuel IH]; intros cs ce Hlt Hfuel.
  - pose proof (date_of_mono cs ce ltac:(lia)). simpl in Hfuel. lia.
  - simpl. destruct (Z.ltb_spec cs ce) as [_|H]; [|lia].
    pose proof (day_span_gt cs) as Hgt. pose proof (midnight_le cs) as Hml.
    rewrite day_span_next in *.
    destruct (Z_le_gt_dec ce (combine_midnight (date_of cs + 1))) as [Hin|Hout].
    + replace (Z.min ce (combine_midnight (date_of cs + 1))) with ce by lia.
      assert (E : date_of (ce - 1) = date_of cs)
        by (apply date_of_within; lia).
      rewrite E. replace (date_of cs - date_of cs + 1) with 1 by lia.
      simpl. f_equal; [lia|].
      destruct fuel; simpl; [reflexivity|].
      destruct (Z.ltb_spec ce ce); [lia | reflexivity].
    + replace (Z.min ce (combine_midnight (date_of cs + 1)))
        with (combine_midnight (date_of cs + 1)) by lia.
      simpl map. rewrite IH; [|lia | rewrite date_of_combine; lia].
      rewrite date_of_combine.
      assert (Hd : date_of cs + 1 <= date_of (ce - 1)).
      { rewrite <- (date_of_combine (date_of cs + 1)). apply date_of_mono. lia. }
      replace (Z.to_nat (date_of (ce - 1) - date_of cs + 1))
        with (S (Z.to_nat (date_of (ce - 1) - (date_of cs + 1) + 1))) by lia.
      now rewrite day_numbers_shift.
Qed.

Lemma log_duration_nonneg txt dur : log_duration txt = Ok dur -> 0 <= dur.
Proof.
  unfold log_duration. destruct (Str.str_isdigit _).
  - unfold timedelta_hours_decimal.
    set (digits := Str.int (Str.remove_first_dot (Str.strip txt))).
    set (scale := 10 ^ Z.of_nat (default 0%nat (Str.after_dot (Str.strip txt)))).
    destruct (Z.leb_spec digits 0); [discriminate|].
    destruct (timedelta_in_range _); [|discriminate].
    intros E. injection E as <-.
    assert (Hs : 0 < scale) by (apply Z.pow_pos_nonneg; lia).
    unfold round_half_even.
    assert (0 <= digits * US_PER_HOUR / scale).
    { apply Z.div_pos; [|exact Hs]. apply Z.mul_nonneg_nonneg; [lia | discriminate]. }
    repeat match goal with
           | |- context [if ?c then _ else _] => destruct c
           end; lia.
  - intros H. unfold parse_duration in H.
    destruct (scan _ _) as [st|e]; [|discriminate].
    apply finish_ok in H as (n & Hn & -> & _).
    unfold minutes, US_PER_MINUTE, US_PER_SECOND. lia.
Qed.

End MoreSplitting.

(** X25. For an instant whose next day is still a date of the calendar,
    [day_span] gives the first midnight strictly after it: later than the
    instant, at most a day later, the midnight that opens the next date,
    with no other midnight in between; from a midnight it gives the one a
    day later. *)
Theorem day_span_is_next_midnight (dt : Z) :
  valid_datetime dt = true -> valid_datetime (dt + US_PER_DAY) = true ->
  dt < day_span dt <= dt + US_PER_DAY
  /\ day_span dt = combine_midnight (date_of dt + 1)
  /\ valid_datetime (day_span dt) = true
  /\ (forall k, dt < combine_midnight k -> day_span dt <= combine_midnight k)
  /\ (dt = combine_midnight (date_of dt) -> day_span dt = dt + US_PER_DAY).
Proof.
  intros Hv Hn.
  pose proof (day_span_gt dt). pose proof (midnight_le dt).
  rewrite day_span_next in *.
  assert (Hnext : date_of (dt + US_PER_DAY) = date_of dt + 1).
  { unfold date_of. replace (dt + US_PER_DAY) with (dt + 1 * US_PER_DAY) by lia.
    apply Z.div_add. discriminate. }
  split; [unfold combine_midnight in *; lia|]. split; [reflexivity|].
  split.
  { unfold valid_datetime in *. now rewrite date_of_combine, <- Hnext. }
  split.
  - intros k Hk. apply combine_midnight_le.
    destruct (Z_lt_le_dec (date_of dt) k) as [Hlt|Hge]; [lia|].
    pose proof (combine_midnight_le _ _ Hge). lia.
  - intros E. unfold combine_midnight in *. lia.
Qed.

Lemma day_span_is_next_midnight_witness :
  sample_now < day_span sample_now <= sample_now + US_PER_DAY
  /\ day_span sample_now = combine_midnight (date_of sample_now + 1)
  /\ valid_datetime (day_span sample_now) = true
  /\ (forall k, sample_now < combine_midnight k ->
      day_span sample_now <= combine_midnight k)
  /\ (sample_now = combine_midnight (date_of sample_now) ->
      day_span sample_now = sample_now + US_PER_DAY).
Proof.
  apply (day_span_is_next_midnight sample_now); reflexivity.
Defined.

(** X26. The splitting loop emits exactly one segment per calendar day
    touched: the dates of the segments are the consecutive days from the
    day of the clamped start to the day of the last instant before the
    clamped end. *)
Theorem one_segment_per_day (cs ce : Z) :
  cs < ce ->
  map (fun s => date_of (seg_start s)) (split_by_day cs ce)
  = map (fun i => date_of cs + Z.of_nat i)
        (seq 0 (Z.to_nat (date_of (ce - 1) - date_of cs + 1))).
Proof.
  intros H. apply split_segments_days; [exact H|].
  now apply split_fuel_enough.
Qed.

Lemma one_segment_per_day_witness :
  map (fun s => date_of (seg_start s)) (split_by_day open_start (march_end - 1))
  = map (fun i => date_of open_start + Z.of_nat i)
        (seq 0 (Z.to_nat (date_of (march_end - 1 - 1) - date_of open_start + 1))).
Proof.
  apply (one_segment_per_day open_start (march_end - 1)). reflexivity.
Defined.

(** X27. On a ledger whose records all carry a project name, a duration
    logged with [cmd_log] from a text without a full stop and within the
    digit limit of [int], whose interval lies inside the window of a
    report made at any instant [rnow], adds exactly that duration to the
    monthly total of its project and nothing to any other. *)
Theorem logged_time_counts (proj txt : string) (now rnow mins lo hi dur : Z)
    (data d : list row) (es : list entry) (t : totals) :
  forallb named data = true ->
  Str.after_dot txt = None -> int_readable txt = true ->
  cmd_log proj txt now data = Some (d, Logged mins proj) ->
  log_duration txt = Ok dur ->
  valid_datetime now = true -> lo <= now - dur -> now <= hi ->
  entries data = Some es ->
  aggregate rnow lo hi es = Some t ->
  exists es' t',
    entries d = Some es'
    /\ aggregate rnow lo hi es' = Some t'
    /\ forall p,
         month_total p (monthly_project_totals t')
         = month_total p (monthly_project_totals t)
           + (if decide (proj = p) then dur else 0).
Proof.
  intros Hn _ _ Hlog Hdur Hnow Hlo Hhi Hes Hagg.
  rewrite (entries_named data Hn) in Hes. injection Hes as <-.
  pose proof (log_duration_nonneg txt dur Hdur) as Hpos.
  unfold cmd_log in Hlog. rewrite Hdur in Hlog.
  destruct (valid_datetime (now - dur)) eqn:Hstart; [|discriminate].
  injection Hlog as <- _.
  rewrite save_data_snoc, (save_data_named data Hn). simpl cleaned.
  eexists. exists (add_segments proj (interval_segments (now - dur) now lo hi) t).
  split; [apply entries_named, named_snoc; [exact Hn | reflexivity]|].
  split.
  - unfold aggregate in *. rewrite map_app, aggregate_from_app, Hagg.
    simpl. rewrite process_entry_segments, entry_segments_times.
    unfold row_entry. simpl.
    fold (iso_now (now - dur)) (iso_now now).
    rewrite (closed_session_times rnow (now - dur) now _ Hstart Hnow).
    unfold truthy, iso_now. simpl. now rewrite isoformat_not_empty.
  - intros p. rewrite month_total_add_segments, interval_total.
    destruct (decide (proj = p)); lia.
Qed.

Lemma logged_time_counts_witness :
  exists es' t',
    entries
      (save_data
         (sample_rows
            ++ [ {| row_project := Project "beta";
                    row_start := Some (datetime_isoformat
                                         (sample_now - 45 * US_PER_MINUTE));
                    row_end := Some (datetime_isoformat sample_now);
                    duration_seconds :=
                      Some (int_total_seconds (45 * US_PER_MINUTE));
                    duration :=
                      Some (_secs_to_hms
                              (int_total_seconds (45 * US_PER_MINUTE)));
                    manual := true |} ]))
    = Some es'
    /\ aggregate (sample_now + US_PER_HOUR) march_start march_end es' = Some t'
    /\ forall p,
         month_total p (monthly_project_totals t')
         = month_total p
             (monthly_project_totals
                (default no_totals
                   (aggregate (sample_now + US_PER_HOUR) march_start march_end
                      (map row_entry sample_rows))))
           + (if decide ("beta" = p) then 45 * US_PER_MINUTE else 0).
Proof.
  apply (logged_time_counts "beta" "45m" sample_now (sample_now + US_PER_HOUR)
           45 march_start march_end (45 * US_PER_MINUTE) sample_rows _
           (map row_entry sample_rows));
    vm_compute; first [reflexivity | discriminate].
Defined.

(** X28. [human_td] shows a negative duration of a second or more as the
    minus sign followed by what it shows for the opposite duration; shorter
    negative durations lose their sign and read "0m". *)
Theorem human_td_negative (delta : Z) :
  (US_PER_SECOND <= delta -> human_td (- delta) = "-" +:+ human_td delta)
  /\ (0 <= delta < US_PER_SECOND -> human_td (- delta) = "0m").
Proof.
  assert (Hq : int_total_seconds (- delta) = - int_total_seconds delta).
  { unfold int_total_seconds. apply Z.quot_opp_l. discriminate. }
  split.
  - intros H.
    assert (Hs : 1 <= int_total_seconds delta).
    { unfold int_total_seconds.
      rewrite Z.quot_div_nonneg by (unfold US_PER_SECOND in *; lia).
      apply Z.div_le_lower_bound; [reflexivity | lia]. }
    unfold human_td. rewrite Hq.
    destruct (Z.ltb_spec (- int_total_seconds delta) 0) as [_|Hn]; [|lia].
    destruct (Z.ltb_spec (int_total_seconds delta) 0) as [Hn|_]; [lia|].
    rewrite Z.abs_opp. destruct (negb _); reflexivity.
  - intros H. unfold human_td. rewrite Hq.
    assert (E : int_total_seconds delta = 0).
    { unfold int_total_seconds. apply Z.quot_small. lia. }
    rewrite E. reflexivity.
Qed.

Lemma human_td_negative_witness :
  human_td (- minutes 90) = "-" +:+ human_td (minutes 90).
Proof.
  apply (proj1 (human_td_negative (minutes 90))). vm_compute. discriminate.
Defined.

(** ** What the splitting loop files under each day *)

Section DayCells.

Implicit Types (st : totals) (proj k : string).

Lemma day_cell_add_segment k k' proj dur st :
  day_cell k proj (add_segment k' proj dur st)
  = day_cell k proj st + (if decide (k' = k) then dur else 0).
Proof.
  unfold day_cell. rewrite add_segment_per_day.
  destruct (decide (k' = k)) as [->|Hne].
  - rewrite lookup_insert_eq. simpl. unfold accumulate.
    now rewrite lookup_insert_eq.
  - rewrite lookup_insert_ne by exact Hne. lia.
Qed.

Lemma real_date_year d : 1 <= d <= 3652059 -> 0 <= year_of d < 10000.
Proof.
  intros H. destruct (ord2ymd_valid d) as (_ & _ & _ & Hy).
  specialize (Hy H). lia.
Qed.

(** The loop adds to the cell of day [d] the length of the part of
    [cur_start, cur_end) that lies in [midnight d, midnight (d + 1)). *)
Lemma split_loop_cell proj d fuel : forall cs ce st,
  1 <= date_of cs -> date_of ce <= 3652059 -> 1 <= d <= 3652059 ->
  (cs < ce -> date_of ce - date_of cs + 1 <= Z.of_nat fuel) ->
  day_cell (date_isoformat d) proj (split_loop fuel proj cs ce st)
  = day_cell (date_isoformat d) proj st
    + Z.max 0 (Z.min ce (combine_midnight (d + 1)) - Z.max cs (combine_midnight d)).
Proof.
  induction fuel as [|fuel IH]; intros cs ce st Hlo Hhi Hd Hfuel.
  - simpl. destruct (Z_lt_le_dec cs ce) as [Hlt|Hge].
    + specialize (Hfuel Hlt). pose proof (date_of_mono cs ce ltac:(lia)).
      simpl in Hfuel. lia.
    + lia.
  - simpl. destruct (Z.ltb_spec cs ce) as [Hlt|Hge]; [|lia].
    specialize (Hfuel Hlt).
    pose proof (day_span_gt cs) as Hgt. pose proof (midnight_le cs) as Hml.
    pose proof (date_of_mono cs ce ltac:(lia)) as Hmono.
    rewrite day_span_next in *.
    set (se := Z.min ce (combine_midnight (date_of cs + 1))) in *.
    assert (Hse : cs < se <= ce) by (unfold se; lia).
    rewrite IH; [| pose proof (date_of_mono cs se ltac:(lia)); lia | exact Hhi
                 | exact Hd |].
    2:{ intros Hlt'.
        assert (E : se = combine_midnight (date_of cs + 1)) by (unfold se; lia).
        rewrite E, date_of_combine. lia. }
    rewrite day_cell_add_segment.
    destruct (decide (date_isoformat (date_of cs) = date_isoformat d)) as [E|N].
    + apply date_isoformat_inj in E;
        [|apply real_date_year; lia | now apply real_date_year].
      subst d. unfold se in *. lia.
    + assert (Hne : date_of cs <> d) by congruence.
      destruct (Z_lt_le_dec d (date_of cs)) as [Hb|Ha].
      * pose proof (combine_midnight_le (d + 1) (date_of cs) ltac:(lia)).
        unfold se in *. lia.
      * pose proof (combine_midnight_le (date_of cs + 1) d ltac:(lia)).
        unfold se in *. lia.
Qed.

End DayCells.

(** C8. The interval from 2024-03-10 23:30 to 2024-03-11 01:00 gives
    exactly two day segments, and the report files 30 minutes under
    2024-03-10 and 60 minutes under 2024-03-11.  In general the loop of
    [cmd_report] adds to the cell of each day the length of the part of
    the interval from that day's midnight, included, to the next midnight,
    excluded: a segment that starts exactly at a midnight is filed under
    the day that midnight opens, and nothing of it under an earlier
    day. *)
Theorem midnight_boundary (proj : string) (cs ce : datetime) (d : date)
    (st : totals) :
  valid_datetime cs = true -> valid_datetime ce = true ->
  1 <= d <= 3652059 ->
  day_cell (date_isoformat d) proj (split_loop (split_fuel cs ce) proj cs ce st)
  = day_cell (date_isoformat d) proj st
    + Z.max 0 (Z.min ce (combine_midnight (d + 1)) - Z.max cs (combine_midnight d))
  /\ (cs = combine_midnight d -> cs < ce ->
      day_cell (date_isoformat d) proj
        (split_loop (split_fuel cs ce) proj cs ce st)
      = day_cell (date_isoformat d) proj st
        + (Z.min ce (combine_midnight (d + 1)) - cs)
      /\ cs < Z.min ce (combine_midnight (d + 1))
      /\ forall k, 1 <= k < d ->
           day_cell (date_isoformat k) proj
             (split_loop (split_fuel cs ce) proj cs ce st)
           = day_cell (date_isoformat k) proj st)
  /\ exists t0 m t1 w0 w1 t,
       fromisoformat "2024-03-10T23:30:00" = Some t0
       /\ fromisoformat "2024-03-11T00:00:00" = Some m
       /\ fromisoformat "2024-03-11T01:00:00" = Some t1
       /\ report_window t0 = Some (w0, w1)
       /\ interval_segments t0 t1 w0 w1
          = [ {| seg_day := "2024-03-10"; seg_start := t0; seg_end := m |};
              {| seg_day := "2024-03-11"; seg_start := m; seg_end := t1 |} ]
       /\ m - t0 = minutes 30
       /\ t1 - m = minutes 60
       /\ aggregate t1 w0 w1
            [ {| project := Some "alpha";
                 start := Some "2024-03-10T23:30:00";
                 end_ := Some "2024-03-11T01:00:00" |} ]
          = Some t
       /\ per_day_totals t
          = {[ "2024-03-10" := {[ "alpha" := minutes 30 ]};
               "2024-03-11" := {[ "alpha" := minutes 60 ]} ]}
       /\ monthly_project_totals t = {[ "alpha" := minutes 90 ]}.
Proof.
  intros Hcs Hce Hd.
  unfold valid_datetime in Hcs, Hce.
  apply andb_prop in Hcs as [Hcs1 Hcs2]. apply andb_prop in Hce as [Hce1 Hce2].
  apply Z.leb_le in Hcs1, Hcs2, Hce1, Hce2.
  assert (Hcell : forall k, 1 <= k <= 3652059 ->
            day_cell (date_isoformat k) proj
              (split_loop (split_fuel cs ce) proj cs ce st)
            = day_cell (date_isoformat k) proj st
              + Z.max 0 (Z.min ce (combine_midnight (k + 1))
                         - Z.max cs (combine_midnight k))).
  { intros k Hk. apply split_loop_cell; [exact Hcs1 | exact Hce2 | exact Hk|].
    apply split_fuel_enough. }
  split; [now apply Hcell|]. split.
  - intros E Hlt.
    pose proof (combine_midnight_le d (d + 1) ltac:(lia)) as Hnext.
    assert (Hstrict : combine_midnight d < combine_midnight (d + 1)).
    { unfold combine_midnight, US_PER_DAY, US_PER_HOUR, US_PER_MINUTE,
        US_PER_SECOND. lia. }
    split; [rewrite (Hcell d Hd); lia|]. split; [lia|].
    intros k Hk. rewrite (Hcell k) by lia.
    pose proof (combine_midnight_le (k + 1) d ltac:(lia)). lia.
  - do 6 eexists.
    split; [vm_compute; reflexivity|].
    split; [vm_compute; reflexivity|].
    split; [vm_compute; reflexivity|].
    split; [vm_compute; reflexivity|].
    split; [vm_compute; reflexivity|].
    split; [vm_compute; reflexivity|].
    split; [vm_compute; reflexivity|].
    split; [vm_compute; reflexivity|].
    split; vm_compute; reflexivity.
Qed.

Lemma midnight_boundary_witness :
  day_cell (date_isoformat 738956) "alpha"
    (split_loop (split_fuel 63845796600000000 63845802000000000) "alpha"
       63845796600000000 63845802000000000 no_totals)
  = day_cell (date_isoformat 738956) "alpha" no_totals
    + Z.max 0 (Z.min 63845802000000000 (combine_midnight (738956 + 1))
               - Z.max 63845796600000000 (combine_midnight 738956)).
Proof.
  refine (proj1 (midnight_boundary "alpha" 63845796600000000 63845802000000000
                   738956 no_totals _ _ _)).
  - reflexivity.
  - reflexivity.
  - lia.
Defined.
